(** * LatexBible: schedule allocation, text fetching and resumable assembly

    A shallow embedding of [latexbible.py]: the utility functions, the
    allocation of [generate_schedule_csv], [get_sefaria_verse_entries] and
    [generate_latex_from_schedule].  The prompts, the calendar conversion
    and the ICS file are left out.  Python values are modelled as follows:

    - [int] is [Z]; [//] and [%] are floor division and its remainder
      ([Z.div] and [Z.modulo]), raising [ZeroDivisionError] on a zero divisor;
    - [str] is a list of Unicode code points; literals of the source are
      written as UTF-8 strings and decoded by [u];
    - a Python exception is carried by its class name;
    - a [float] is the rational number it stands for, an infinity or nan;
    - lists are lists, indexed with stdpp's lookup and insert, with the
      [IndexError] of an index out of range written out;
    - the network is an oracle that gives the outcome of the [n]-th request
      of a run, and what a run does (requests, sleeps, log records, writes
      and removals of files) is the list of its events, so that an
      interrupted run is a prefix of that list. *)

From Stdlib Require Import ZArith String Ascii DecimalZ QArith Qround.
From Stdlib.Strings Require Import Byte.
From stdpp Require Import base tactics option list list_numbers.
From Stdlib Require Import Lia.

Local Open Scope Z_scope.

(** ** Python values *)

(** A character is its code point, a [str] the list of its characters. *)
Definition char := Z.
Definition str := list char.

(** Decoding of the UTF-8 bytes of a literal into code points. *)
Fixpoint utf8_decode (bs : list Z) : str :=
  match bs with
  | [] => []
  | b :: rest =>
      if b <? 128 then b :: utf8_decode rest
      else if b <? 224 then
        match rest with
        | b1 :: rest1 =>
            Z.lor (Z.shiftl (Z.land b 31) 6) (Z.land b1 63) :: utf8_decode rest1
        | _ => [b]
        end
      else if b <? 240 then
        match rest with
        | b1 :: b2 :: rest2 =>
            Z.lor (Z.shiftl (Z.land b 15) 12)
              (Z.lor (Z.shiftl (Z.land b1 63) 6) (Z.land b2 63))
            :: utf8_decode rest2
        | _ => [b]
        end
      else
        match rest with
        | b1 :: b2 :: b3 :: rest3 =>
            Z.lor (Z.shiftl (Z.land b 7) 18)
              (Z.lor (Z.shiftl (Z.land b1 63) 12)
                 (Z.lor (Z.shiftl (Z.land b2 63) 6) (Z.land b3 63)))
            :: utf8_decode rest3
        | _ => [b]
        end
  end.

Definition u (s : string) : str :=
  utf8_decode (map (fun b => Z.of_N (Byte.to_N b)) (list_byte_of_string s)).
Arguments u : simpl never.

(** Code points the source names through escapes. *)
Definition NL : char := 10.
Definition QUOTE : char := 34.

(** The outcome of a computation that may raise; an exception is the name of
    its class. *)
Inductive result (A : Type) : Type :=
| Ok (a : A)
| Raise (exn : string).
Arguments Ok {A} a.
Arguments Raise {A} exn.

#[global] Instance result_ret : MRet result := fun A a => Ok a.
#[global] Instance result_bind : MBind result := fun A B f m =>
  match m with
  | Ok a => f a
  | Raise e => Raise e
  end.

Definition ZeroDivisionError : string := "ZeroDivisionError".
Definition IndexError : string := "IndexError".
Definition KeyError : string := "KeyError".
Definition TypeError : string := "TypeError".
Definition AttributeError : string := "AttributeError".
Definition JSONDecodeError : string := "JSONDecodeError".
Definition UnicodeEncodeError : string := "UnicodeEncodeError".

(** [a // b] and [a % b]. *)
Definition floordiv (a b : Z) : result Z :=
  if b =? 0 then Raise ZeroDivisionError else Ok (a / b).
Definition pymod (a b : Z) : result Z :=
  if b =? 0 then Raise ZeroDivisionError else Ok (a mod b).

(** [l[i]]: a negative index counts from the end. *)
Definition py_index {A} (l : list A) (i : Z) : result A :=
  let j := if i <? 0 then i + Z.of_nat (length l) else i in
  if j <? 0 then Raise IndexError
  else match l !! Z.to_nat j with
       | Some x => Ok x
       | None => Raise IndexError
       end.

(** [l[lo:hi]]: both bounds are clamped to [0, len(l)]. *)
Definition clamp_index (len i : Z) : Z :=
  if i <? 0 then Z.max 0 (i + len) else Z.min i len.

Definition py_slice {A} (l : list A) (lo hi : Z) : list A :=
  let len := Z.of_nat (length l) in
  let a := clamp_index len lo in
  let b := clamp_index len hi in
  take (Z.to_nat (b - a)) (drop (Z.to_nat a) l).

(** [str.isspace] on one character, which is also the class [\s] of [re] on
    [str] patterns. *)
Definition isspace (c : char) : bool :=
  ((9 <=? c) && (c <=? 13)) || ((28 <=? c) && (c <=? 32))
  || (c =? 133) || (c =? 160) || (c =? 5760)
  || ((8192 <=? c) && (c <=? 8202))
  || (c =? 8232) || (c =? 8233) || (c =? 8239) || (c =? 8287) || (c =? 12288).

Fixpoint lstrip (s : str) : str :=
  match s with
  | [] => []
  | c :: t => if isspace c then lstrip t else s
  end.

Definition rstrip (s : str) : str := reverse (lstrip (reverse s)).

(** [s.strip()] *)
Definition strip (s : str) : str := rstrip (lstrip s).

Arguments strip : simpl never.

(** A lone surrogate: [json] returns one for an escape such as [\ud800],
    and the UTF-8 codec refuses to encode it. *)
Definition surrogate (c : char) : bool := (55296 <=? c) && (c <=? 57343).

(** [s.encode('utf-8')] raises nothing. *)
Definition encodable (s : str) : bool := forallb (fun c => negb (surrogate c)) s.

(** What [f.read()] returns for a file opened in text mode that holds [s]:
    with universal newlines a carriage return, alone or before a line feed,
    is read as a line feed. *)
Fixpoint read_text (s : str) : str :=
  match s with
  | [] => []
  | c :: t =>
      if c =? 13 then
        10 :: match t with
              | c' :: t' => if c' =? 10 then read_text t' else read_text t
              | [] => []
              end
      else c :: read_text t
  end.

(** [s.split(sep)] for a one-character separator. *)
Fixpoint split (sep : char) (s : str) : list str :=
  match s with
  | [] => [[]]
  | c :: t =>
      if c =? sep then [] :: split sep t
      else match split sep t with
           | h :: r => (c :: h) :: r
           | [] => [[c]]
           end
  end.

(** [sep.join(l)] *)
Fixpoint join (sep : str) (l : list str) : str :=
  match l with
  | [] => []
  | [x] => x
  | x :: rest => x ++ sep ++ join sep rest
  end.

(** [s.replace(c, by)] for a one-character pattern. *)
Definition replace_char (c : char) (by_ : str) (s : str) : str :=
  concat (map (fun x => if x =? c then by_ else [x]) s).

(** ** Regular expressions of the cleaning step

    [re.sub(p, '', s)] deletes the leftmost non-overlapping matches of [p].
    A pattern is given by the length of its match at the start of a string.
    Both patterns of the source match at least two characters. *)
Fixpoint re_sub_from (match_at : str -> option nat) (skip : nat) (s : str) : str :=
  match s with
  | [] => []
  | c :: t =>
      match skip with
      | S k => re_sub_from match_at k t
      | O =>
          match match_at s with
          | Some (S k) => re_sub_from match_at k t
          | _ => c :: re_sub_from match_at O t
          end
      end
  end.

Definition re_sub_empty (match_at : str -> option nat) (s : str) : str :=
  re_sub_from match_at O s.

(** [.*?>]: the shortest run of characters other than a newline that is
    followed by [>]; the result counts the run and the [>]. *)
Fixpoint match_lazy_gt (s : str) : option nat :=
  match s with
  | [] => None
  | c :: t =>
      if c =? 62 then Some 1%nat
      else if c =? NL then None
      else S <$> match_lazy_gt t
  end.

(** [<.*?>] *)
Definition match_tag (s : str) : option nat :=
  match s with
  | c :: t => if c =? 60 then S <$> match_lazy_gt t else None
  | [] => None
  end.

(** [[^;\s]*;] after the first character of the class: the longest run of
    characters that are neither [;] nor whitespace, followed by [;]. *)
Fixpoint match_run_semi (s : str) : option nat :=
  match s with
  | [] => None
  | c :: t =>
      if c =? 59 then Some 1%nat
      else if isspace c then None
      else S <$> match_run_semi t
  end.

(** [&[^;\s]+;] *)
Definition match_entity (s : str) : option nat :=
  match s with
  | c :: d :: t =>
      if (c =? 38) && negb (d =? 59) && negb (isspace d)
      then (fun n => S (S n)) <$> match_run_semi t
      else None
  | _ => None
  end.

(** ** Utility functions of the source *)

Definition remove_html_tags_and_entities (text : str) : str :=
  let text := re_sub_empty match_tag text in
  let text := re_sub_empty match_entity text in
  strip text.

Definition escape_latex_special_chars (text : str) : str :=
  replace_char 95 (u "\_") (replace_char 92 (u "\textbackslash{}") text).

(** The dictionary [hebrew_letters], with [dict.get(k, '')]. *)
Definition hebrew_letters : list (Z * str) :=
  [ (1, u "א"); (2, u "ב"); (3, u "ג"); (4, u "ד"); (5, u "ה"); (6, u "ו");
    (7, u "ז"); (8, u "ח"); (9, u "ט");
    (10, u "י"); (20, u "כ"); (30, u "ל"); (40, u "מ"); (50, u "נ");
    (60, u "ס"); (70, u "ע"); (80, u "פ"); (90, u "צ");
    (100, u "ק"); (200, u "ר"); (300, u "ש"); (400, u "ת") ].

Fixpoint dict_get {V} (d : list (Z * V)) (k : Z) (default : V) : V :=
  match d with
  | [] => default
  | (k', v) :: rest => if k' =? k then v else dict_get rest k default
  end.

Definition hebrew_number (num : Z) : str :=
  if num =? 15 then u "טו"
  else if num =? 16 then u "טז"
  else
    let result := [] in
    let '(result, num) :=
      if 100 <=? num then
        let hundreds := (num / 100) * 100 in
        (result ++ dict_get hebrew_letters hundreds [], num mod 100)
      else (result, num) in
    let '(result, num) :=
      if 10 <=? num then
        let tens := (num / 10) * 10 in
        (result ++ dict_get hebrew_letters tens [], num mod 10)
      else (result, num) in
    let result :=
      if negb (num =? 0) then result ++ dict_get hebrew_letters num []
      else result in
    result.

(** A Python [float], as [json] gives it for a number written with a
    fraction or an exponent: a finite value is the rational it stands for. *)
Inductive pyfloat : Type :=
| FNum (q : Q)
| FInf (negative : bool)
| FNaN.

(** [hebrew_letters.get(x, '')] for a finite float [x]: a float is found
    under the integer key it equals. *)
Definition float_letter (q : Q) : str :=
  if Qeq_bool (inject_Z (Qfloor q)) q then dict_get hebrew_letters (Qfloor q) []
  else [].

(** [hebrew_number] on a float.  No comparison, division or lookup of the
    function raises on a float.  For a finite value [//] is the floor of
    the quotient and [%] its remainder, which Python computes exactly; the
    product [(num // 100) * 100] is exact below [2 ^ 53] and at least 500
    above, where the table has no entry either way.  An infinity and nan
    fail every test but [if num] and are under no key, [inf // 100] and
    [inf % 100] being nan. *)
Definition hebrew_number_float (x : pyfloat) : str :=
  match x with
  | FNum q =>
      if Qeq_bool q (inject_Z 15) then u "טו"
      else if Qeq_bool q (inject_Z 16) then u "טז"
      else
        let result := [] in
        let '(result, q) :=
          if Qle_bool (inject_Z 100) q then
            let hundreds := (Qfloor (q / inject_Z 100) * 100)%Z in
            (result ++ dict_get hebrew_letters hundreds [],
             (q - inject_Z hundreds)%Q)
          else (result, q) in
        let '(result, q) :=
          if Qle_bool (inject_Z 10) q then
            let tens := (Qfloor (q / inject_Z 10) * 10)%Z in
            (result ++ dict_get hebrew_letters tens [],
             (q - inject_Z tens)%Q)
          else (result, q) in
        let result :=
          if negb (Qeq_bool q (inject_Z 0)) then result ++ float_letter q
          else result in
        result
  | FInf _ => []
  | FNaN => []
  end.

(** ** The allocation of [generate_schedule_csv]

    [all_verses] is the flat unit list and [total_days] the length of the
    window; a day is named by its offset [i] from [start]. *)
Section Allocation.
Context {A : Type}.

(** [daily_counts[i] += 1] *)
Definition incr_at (daily_counts : list Z) (i : Z) : result (list Z) :=
  x ← py_index daily_counts i;
  Ok (<[Z.to_nat i := x + 1]> daily_counts).

(** [for x in xs: acc = body(acc, x)], stopping at the first exception. *)
Fixpoint for_each {S X} (body : S -> X -> result S) (acc : S) (xs : list X)
  : result S :=
  match xs with
  | [] => Ok acc
  | x :: rest => acc' ← body acc x; for_each body acc' rest
  end.

(** Lines 93-95. *)
Definition daily_counts_of (n total_days : Z) : result (list Z) :=
  q ← floordiv n total_days;
  let daily_counts := replicate (Z.to_nat total_days) q in
  r ← pymod n total_days;
  for_each incr_at daily_counts (seqZ 0 r).

(** Lines 97-103; the state of the loop is [(portions, idx)]. *)
Definition portion_step (all_verses : list A) (daily_counts : list Z)
    (st : list (Z * list A) * Z) (i : Z) : result (list (Z * list A) * Z) :=
  let '(portions, idx) := st in
  c ← py_index daily_counts i;
  let portion := py_slice all_verses idx (idx + c) in
  c' ← py_index daily_counts i;
  Ok (portions ++ [(i, portion)], idx + c').

Definition allocate (all_verses : list A) (total_days : Z)
  : result (list (Z * list A)) :=
  daily_counts ← daily_counts_of (Z.of_nat (length all_verses)) total_days;
  st ← for_each (portion_step all_verses daily_counts) ([], 0)
         (seqZ 0 total_days);
  Ok st.1.
End Allocation.

(** ** The remote text service

    The body of a response as [res.json()] returns it: a number written
    as an integer is an [int], any other number a [float]; an object is the
    list of its members. *)
#[warnings="-register-all"]
Inductive json : Type :=
| JNull
| JBool (b : bool)
| JInt (n : Z)
| JFloat (x : pyfloat)
| JStr (s : str)
| JList (l : list json)
| JDict (d : list (str * json)).

(** [requests.get]: a response with its status code and its body ([None]
    when the body is not JSON, so that [res.json()] raises), or an exception
    of the transport. *)
Inductive http_result : Type :=
| Response (status_code : Z) (body : option json)
| TransportError.

(** What a run does to the outside world, in order.  [ERemoveCheckpoint] and
    [ERemoveProgress] are the guarded removals of lines 229 and 230: the file
    is removed if it exists.  [ETruncateCheckpoint] and [ETruncateTex] are
    the writes of lines 219-220 and 225-226 that fail: [open] has emptied
    the file when [f.write] raises [UnicodeEncodeError]. *)
Inductive event : Type :=
| EGet (url : str)
| ESleep (secs : Z)
| EWarning (r : str) (retries : Z)
| EError (r : str) (exn : string)
| EInfo (last : Z)
| EWriteCheckpoint (tex : str)
| EWriteProgress (i : Z)
| EWriteTex (tex : str)
| ERemoveCheckpoint
| ERemoveProgress
| ETruncateCheckpoint
| ETruncateTex.

(** A computation with effects: from the number of requests sent so far to
    its value, the events it caused and the new number of requests. *)
Definition io (A : Type) : Type := nat -> A * list event * nat.

#[global] Instance io_ret : MRet io := fun A a c => (a, [], c).
#[global] Instance io_bind : MBind io := fun A B f m c =>
  let '(a, ev1, c1) := m c in
  let '(b, ev2, c2) := f a c1 in
  (b, ev1 ++ ev2, c2).

Definition emit (e : event) : io unit := fun c => (tt, [e], c).

(** A fetched unit: [(section[0], i, clean)]. *)
Definition entry : Type := json * json * str.

(** [data.get(key, default)] on the members of an object. *)
Fixpoint members_get (d : list (str * json)) (key : str) (default : json) : json :=
  match d with
  | [] => default
  | (k, v) :: rest =>
      if bool_decide (k = key) then v else members_get rest key default
  end.

Definition json_get (data : json) (key : str) (default : json) : result json :=
  match data with
  | JDict d => Ok (members_get d key default)
  | _ => Raise AttributeError
  end.

(** [v[k]] for an integer [k]. *)
Definition subscript (v : json) (k : Z) : result json :=
  match v with
  | JList l => py_index l k
  | JStr s => c ← py_index s k; Ok (JStr [c])
  | JDict _ => Raise KeyError
  | _ => Raise TypeError
  end.

(** The integer that [enumerate] accepts as [start]. *)
Definition as_index (v : json) : result Z :=
  match v with
  | JInt n => Ok n
  | JBool b => Ok (Z.b2z b)
  | _ => Raise TypeError
  end.

(** [remove_html_tags_and_entities(txt)]: [re.sub] refuses what is not a
    string. *)
Definition clean_text (txt : json) : result str :=
  match txt with
  | JStr s => Ok (remove_html_tags_and_entities s)
  | _ => Raise TypeError
  end.

(** Lines 161-163: the entries appended before an exception stay in
    [verse_entries]. *)
Fixpoint enumerate_he (section : json) (i : Z) (he : list json)
    (verse_entries : list entry) : list entry * option string :=
  match he with
  | [] => (verse_entries, None)
  | txt :: rest =>
      match (clean ← clean_text txt;
             chap ← subscript section 0;
             Ok (chap, JInt i, clean)) with
      | Ok e => enumerate_he section (i + 1) rest (verse_entries ++ [e])
      | Raise exn => (verse_entries, Some exn)
      end
  end.

(** Lines 157-166, inside the [try]: the new [verse_entries] and the
    exception that ended the block, if any. *)
Definition parse_payload (body : option json) (verse_entries : list entry)
  : list entry * option string :=
  match body with
  | None => (verse_entries, Some JSONDecodeError)
  | Some data =>
      match (section ← json_get data (u "sections") (JList [JInt 1; JInt 1]);
             he ← json_get data (u "he") (JList []);
             Ok (section, he)) with
      | Raise exn => (verse_entries, Some exn)
      | Ok (section, JList he) =>
          match (start ← subscript section 1; as_index start) with
          | Raise exn => (verse_entries, Some exn)
          | Ok start => enumerate_he section start he verse_entries
          end
      | Ok (section, he) =>
          match (clean ← clean_text he;
                 chap ← subscript section 0;
                 num ← subscript section 1;
                 Ok (chap, num, clean)) with
          | Raise exn => (verse_entries, Some exn)
          | Ok e => (verse_entries ++ [e], None)
          end
      end
  end.

(** A cell of the schedule as [pd.read_csv] returns it: a string, or the
    float [nan] of a missing value, which has no [split]. *)
Inductive cell : Type :=
| CStr (s : str)
| CNaN.

(** Line 144: the URL of a sub-reference. *)
Definition sefaria_url (r : str) : str :=
  u "https://www.sefaria.org/api/texts/" ++ r ++ u "?context=0".
Arguments sefaria_url : simpl never.

Section Fetcher.
(** The network: the outcome of the [n]-th request of the run. *)
Variable net : nat -> str -> http_result.

Definition requests_get (url : str) : io http_result :=
  fun c => (net c url, [EGet url], S c).

(** Lines 145-155: the body of the first response with status 200, or
    [None] when the loop runs to its [else]. *)
Fixpoint retry_loop (url : str) (attempts : list Z) : io (option (option json)) :=
  match attempts with
  | [] => mret None
  | attempt :: rest =>
      res ← requests_get url;
      match res with
      | Response status_code body =>
          if status_code =? 200 then mret (Some body)
          else emit (ESleep (2 ^ attempt));; retry_loop url rest
      | TransportError => emit (ESleep (2 ^ attempt));; retry_loop url rest
      end
  end.

(** The body of the loop over the sub-references, lines 143-168. *)
Definition fetch_one (retries : Z) (verse_entries : list entry) (r : str)
  : io (list entry) :=
  let r := strip r in
  let url := sefaria_url r in
  res ← retry_loop url (seqZ 0 retries);
  match res with
  | None => emit (EWarning r retries);; mret verse_entries
  | Some body =>
      let '(verse_entries, exn) := parse_payload body verse_entries in
      match exn with
      | Some e => emit (EError r e);; mret verse_entries
      | None => mret verse_entries
      end
  end.

Fixpoint fetch_all (retries : Z) (verse_entries : list entry) (rs : list str)
  : io (list entry) :=
  match rs with
  | [] => mret verse_entries
  | r :: rest =>
      verse_entries ← fetch_one retries verse_entries r;
      fetch_all retries verse_entries rest
  end.

Definition get_sefaria_verse_entries (ref : cell) (retries : Z)
  : io (result (list entry)) :=
  match ref with
  | CStr s =>
      verse_entries ← fetch_all retries [] (split 44 s);
      mret (Ok verse_entries)
  | CNaN => mret (Raise AttributeError)
  end.
End Fetcher.

(** ** The schedule file

    A row of the schedule is [(Date, Bible, Bible Count)]; the day of the
    week is not read back.  [date_of] is [strftime] of [start] plus an
    offset. *)
Definition schedule_row : Type := str * str * Z.

Definition schedule_of (date_of : Z -> str) (portions : list (Z * list str))
  : list schedule_row :=
  map (fun '(i, verses) =>
         (date_of i, join (u ", ") verses, Z.of_nat (length verses)))
      portions.

(** [to_csv] followed by [read_csv] on the [Bible] column: with pandas'
    defaults an empty field is a missing value and is read as [nan]; a field
    that is not empty is a list of references, each with a colon, and is
    read back as the string it was. *)
Definition read_csv_cell (field : str) : cell :=
  match field with
  | [] => CNaN
  | _ => CStr field
  end.

(** The rows [df.iterrows()] yields for the document: [(Date, Bible)]. *)
Definition read_csv (schedule : list schedule_row) : list (str * cell) :=
  map (fun '(date, bible, _) => (date, read_csv_cell bible)) schedule.

(** ** The document *)

(** The three files of a run: the checkpoint, the progress marker and the
    final document, each with the text that was written to it.  The
    progress file holds [str(i)], read back by [int]; the checkpoint is read
    back in text mode, by [read_text].  Each [with open(...)] block that
    raises nothing and each removal is one step: the file is either as it
    was or completely written.  A write of a text that UTF-8 cannot encode
    leaves the file empty and raises. *)
Record disk : Type := Disk {
  checkpoint : option str;
  progress : option Z;
  tex_file : option str
}.

Definition empty_disk : disk :=
  {| checkpoint := None; progress := None; tex_file := None |}.

Definition apply_event (d : disk) (e : event) : disk :=
  match e with
  | EWriteCheckpoint tex =>
      {| checkpoint := Some tex; progress := progress d; tex_file := tex_file d |}
  | EWriteProgress i =>
      {| checkpoint := checkpoint d; progress := Some i; tex_file := tex_file d |}
  | EWriteTex tex =>
      {| checkpoint := checkpoint d; progress := progress d; tex_file := Some tex |}
  | ERemoveCheckpoint =>
      {| checkpoint := None; progress := progress d; tex_file := tex_file d |}
  | ERemoveProgress =>
      {| checkpoint := checkpoint d; progress := None; tex_file := tex_file d |}
  | ETruncateCheckpoint =>
      {| checkpoint := Some []; progress := progress d; tex_file := tex_file d |}
  | ETruncateTex =>
      {| checkpoint := checkpoint d; progress := progress d; tex_file := Some [] |}
  | _ => d
  end.

(** The disk after the events [evs]. *)
Definition replay (d : disk) (evs : list event) : disk :=
  foldl apply_event d evs.

(** Lines 191-203. *)
Definition preamble : str :=
  u "\documentclass{article}" ++ [NL]
  ++ u "\usepackage[utf8]{inputenc}" ++ [NL]
  ++ u "\usepackage{geometry}" ++ [NL]
  ++ u "\usepackage{fontspec}" ++ [NL]
  ++ u "\geometry{margin=1in}" ++ [NL]
  ++ u "\usepackage{polyglossia}" ++ [NL]
  ++ u "\setmainlanguage{hebrew}" ++ [NL]
  ++ u "\newfontfamily\hebrewfont[Script=Hebrew]{Ezra SIL}" ++ [NL]
  ++ u "\begin{document}" ++ [NL]
  ++ u "\tableofcontents" ++ [NL]
  ++ u "\newpage" ++ [NL].

(** [str(ref)] inside an f-string. *)
Definition format_cell (ref : cell) : str :=
  match ref with
  | CStr s => s
  | CNaN => u "nan"
  end.

(** Line 212. *)
Definition heading (date : str) (ref : cell) : str :=
  [NL] ++ u "\section*{" ++ date ++ u "}" ++ [NL]
  ++ u "\subsection*{תנ" ++ [QUOTE] ++ u "ך: " ++ format_cell ref ++ u "}" ++ [NL].

(** [hebrew_number(num)] on a value of the payload: a [bool] is an [int],
    a [float] passes every comparison; the comparison [num >= 100] refuses
    the other values. *)
Definition hebrew_number_of (num : json) : result str :=
  match num with
  | JInt n => Ok (hebrew_number n)
  | JBool b => Ok (hebrew_number (Z.b2z b))
  | JFloat x => Ok (hebrew_number_float x)
  | _ => Raise TypeError
  end.

(** Line 216. *)
Definition verse_line (tex : str) (e : entry) : result str :=
  let '(chap, num, text) := e in
  h ← hebrew_number_of num;
  Ok (tex ++ u "\noindent\textbf{\textsuperscript{" ++ h ++ u "}} "
          ++ escape_latex_special_chars text ++ u "\\" ++ [NL]).

Definition closing : str := [NL] ++ u "\end{document}".

Section Assembler.
Variable net : nat -> str -> http_result.

(** Lines 209-216: the document with the day of [row] appended. *)
Definition format_day (tex : str) (row : str * cell) : io (result str) :=
  let '(date, ref) := row in
  let tex := tex ++ heading date ref in
  verses ← get_sefaria_verse_entries net ref 5;
  mret (verses ← verses; for_each verse_line tex verses).

(** Lines 205-222, from row [i] on. *)
Fixpoint process_rows (last i : Z) (rows : list (str * cell)) (tex : str)
  : io (result str) :=
  match rows with
  | [] => mret (Ok tex)
  | row :: rest =>
      if i <=? last then process_rows last (i + 1) rest tex
      else
        r ← format_day tex row;
        match r with
        | Raise exn => mret (Raise exn)
        | Ok tex =>
            if encodable tex then
              emit (EWriteCheckpoint tex);;
              emit (EWriteProgress i);;
              process_rows last (i + 1) rest tex
            else
              emit ETruncateCheckpoint;;
              mret (Raise UnicodeEncodeError)
        end
  end.

(** [generate_latex_from_schedule] on the rows of the schedule file, from
    the disk [d] it finds. *)
Definition generate_latex_from_schedule (d : disk) (rows : list (str * cell))
  : io (result unit) :=
  last ← match progress d with
         | Some last => emit (EInfo last);; mret last
         | None => mret (-1)
         end;
  let tex := match checkpoint d with
             | Some tex => read_text tex
             | None => preamble
             end in
  r ← process_rows last 0 rows tex;
  match r with
  | Raise exn => mret (Raise exn)
  | Ok tex =>
      let tex := tex ++ closing in
      if encodable tex then
        emit (EWriteTex tex);;
        emit ERemoveCheckpoint;;
        emit ERemoveProgress;;
        mret (Ok tt)
      else
        emit ETruncateTex;;
        mret (Raise UnicodeEncodeError)
  end.

(** The events of a run from disk [d] with [c] requests already sent. *)
Definition run_events (d : disk) (rows : list (str * cell)) (c : nat)
  : list event :=
  (generate_latex_from_schedule d rows c).1.2.

(** The disk a run leaves when it is interrupted after [k] events. *)
Definition interrupted (k : nat) (d : disk) (rows : list (str * cell))
    (c : nat) : disk :=
  replay d (take k (run_events d rows c)).

(** The disk a run leaves when nothing interrupts it. *)
Definition completed (d : disk) (rows : list (str * cell)) (c : nat) : disk :=
  replay d (run_events d rows c).
End Assembler.

(** ** Closed forms used by the properties *)

(** The counts of lines 93-95, for a window that is not empty. *)
Definition even_counts (n total_days : Z) : list Z :=
  replicate (Z.to_nat (n mod total_days)) (n / total_days + 1)
  ++ replicate (Z.to_nat (total_days - n mod total_days)) (n / total_days).

(** Consecutive pieces of [l] of the lengths [counts]. *)
Fixpoint chunks {A} (counts : list Z) (l : list A) : list (list A) :=
  match counts with
  | [] => []
  | c :: rest => take (Z.to_nat c) l :: chunks rest (drop (Z.to_nat c) l)
  end.

Fixpoint sumZ (l : list Z) : Z :=
  match l with
  | [] => 0
  | x :: rest => x + sumZ rest
  end.

(** The letter of a component of a number, empty when the table has no
    entry. *)
Definition letter_of (component : Z) : str := dict_get hebrew_letters component [].

(** The letters of the hundreds, the tens and the units, in that order. *)
Definition digit_letters (num : Z) : str :=
  letter_of (100 * (num / 100))
  ++ letter_of (10 * ((num / 10) mod 10))
  ++ letter_of (num mod 10).

(** A markup tag as one reads the word: [<], any characters, line breaks
    among them, and the next [>].  It is the pattern of line 27 as
    [re.DOTALL] would have it. *)
Fixpoint match_any_gt (s : str) : option nat :=
  match s with
  | [] => None
  | c :: t => if c =? 62 then Some 1%nat else S <$> match_any_gt t
  end.

Definition match_markup_tag (s : str) : option nat :=
  match s with
  | c :: t => if c =? 60 then S <$> match_any_gt t else None
  | [] => None
  end.

(** A pattern matches somewhere in [s]. *)
Fixpoint occurs (match_at : str -> option nat) (s : str) : bool :=
  match s with
  | [] => false
  | _ :: t => bool_decide (is_Some (match_at s)) || occurs match_at t
  end.

(** What [&[^;\s]+;] asks of the character after the [&], as far as the
    scan to the [;] does not: it is not a [;]. *)
Definition guard_entity (t : str) : bool :=
  match t with
  | d :: _ => negb (d =? 59)
  | [] => true
  end.

(** ** The retry policy in closed form *)

(** The URL requested for the sub-reference [r]. *)
Definition url_of (r : str) : str := sefaria_url (strip r).

Arguments url_of : simpl never.

(** An attempt fails when the transport raises or the status is not 200. *)
Definition failed (res : http_result) : bool :=
  match res with
  | Response status_code _ => negb (status_code =? 200)
  | TransportError => true
  end.

(** The events of [m] failed attempts: attempt [k] and the wait of
    [2 ^ k] after it, counting from [from]. *)
Definition backoff (url : str) (from : Z) (m : nat) : list event :=
  flat_map (fun k => [EGet url; ESleep (2 ^ (from + Z.of_nat k))]) (seq 0 m).

Arguments backoff : simpl never.

Definition is_get (e : event) : bool :=
  match e with
  | EGet _ => true
  | _ => false
  end.

Definition count_gets (evs : list event) : nat := length (filter is_get evs).

(** The number of requests, from request [c] on, that fail in a row, up to
    [n]. *)
Fixpoint failures (net : nat -> str -> http_result) (url : str) (c n : nat) : nat :=
  match n with
  | O => O
  | S n' => if failed (net c url) then S (failures net url (S c) n') else O
  end.

(** ** Shapes of a payload *)

Fixpoint members_lookup (d : list (str * json)) (key : str) : option json :=
  match d with
  | [] => None
  | (k, v) :: rest =>
      if bool_decide (k = key) then Some v else members_lookup rest key
  end.

Definition is_str (v : json) : bool :=
  match v with
  | JStr _ => true
  | _ => false
  end.

(** The shape the service documents: an object with [sections] a pair of
    numbers and [he] a string or a sequence of strings. *)
Definition documented_shape (body : option json) : bool :=
  match body with
  | Some (JDict d) =>
      match members_lookup d (u "sections"), members_lookup d (u "he") with
      | Some (JList [JInt _; JInt _]), Some (JStr _) => true
      | Some (JList [JInt _; JInt _]), Some (JList he) => forallb is_str he
      | _, _ => false
      end
  | _ => false
  end.

(** [sections] gives a starting number: a sequence whose second element is
    an integer. *)
Definition gives_start (section : json) : bool :=
  match section with
  | JList (_ :: (JInt _ | JBool _) :: _) => true
  | _ => false
  end.

(** [sections] has elements 0 and 1: a sequence or a string of at least two
    elements. *)
Definition gives_pair (section : json) : bool :=
  match section with
  | JList (_ :: _ :: _) => true
  | JStr (_ :: _ :: _) => true
  | _ => false
  end.

(** The payloads whose parsing raises before any entry is appended: a body
    that is not JSON or not an object; an [he] that is neither a string nor
    a sequence; a sequence [he] with a [sections] that gives no starting
    number, or whose first element is not a string; a string [he] with a
    [sections] without elements 0 and 1.  A missing [sections] is
    [[1, 1]] and a missing [he] is [[]]. *)
Definition rejected (body : option json) : bool :=
  match body with
  | None => true
  | Some (JDict d) =>
      let section := members_get d (u "sections") (JList [JInt 1; JInt 1]) in
      match members_get d (u "he") (JList []) with
      | JList [] => negb (gives_start section)
      | JList (txt :: _) => negb (gives_start section) || negb (is_str txt)
      | JStr _ => negb (gives_pair section)
      | _ => true
      end
  | Some _ => true
  end.

(** ** Scenarios *)

(** A network on which every request fails. *)
Definition dead_net : nat -> str -> http_result := fun _ _ => TransportError.

(** A payload in the documented shape. *)
Definition sample_payload : json :=
  JDict [(u "sections", JList [JInt 3; JInt 7]);
         (u "he", JList [JStr (u "<i>a</i>"); JStr (u " b&nbsp;")])].

(** A payload without [sections]. *)
Definition bare_payload : json := JDict [(u "he", JList [JStr (u "x")])].

(** A network that answers every request with status 200 and [body]. *)
Definition const_net (body : option json) : nat -> str -> http_result :=
  fun _ _ => Response 200 body.

(** A schedule of two days, one sub-reference each. *)
Definition two_days : list (str * cell) :=
  [(u "2025-01-01", CStr (u "Genesis 1:7"));
   (u "2025-01-02", CStr (u "Genesis 1:9"))].

(** The text a day adds to the document, when formatting it raises
    nothing. *)
Definition day_block (net : nat -> str -> http_result) (row : str * cell)
    (c : nat) : str :=
  match (format_day net [] row c).1.1 with
  | Ok block => block
  | Raise _ => []
  end.

(** ** The run as a sequence of documents *)

(** The events that change the disk. *)
Definition is_disk_event (e : event) : bool :=
  match e with
  | EWriteCheckpoint _ | EWriteProgress _ | EWriteTex _
  | ERemoveCheckpoint | ERemoveProgress
  | ETruncateCheckpoint | ETruncateTex => true
  | _ => false
  end.

(** Events that leave the disk as it is. *)
Definition quiet (evs : list event) : Prop :=
  Forall (fun e => is_disk_event e = false) evs.

(** The rows [process_rows] formats, each with the document accumulated
    through it, up to the first row that raises or whose document cannot be
    written. *)
Fixpoint documents (net : nat -> str -> http_result) (last i : Z)
    (rows : list (str * cell)) (tex : str) (c : nat) : list (Z * str) :=
  match rows with
  | [] => []
  | row :: rest =>
      if i <=? last then documents net last (i + 1) rest tex c
      else
        let '(r, _, c1) := format_day net tex row c in
        match r with
        | Raise _ => []
        | Ok tex' =>
            if encodable tex' then
              (i, tex') :: documents net last (i + 1) rest tex' c1
            else []
        end
  end.

(** The run over the rows ends in a checkpoint that cannot be written. *)
Fixpoint write_fails (net : nat -> str -> http_result) (last i : Z)
    (rows : list (str * cell)) (tex : str) (c : nat) : bool :=
  match rows with
  | [] => false
  | row :: rest =>
      if i <=? last then write_fails net last (i + 1) rest tex c
      else
        let '(r, _, c1) := format_day net tex row c in
        match r with
        | Raise _ => false
        | Ok tex' =>
            if encodable tex' then write_fails net last (i + 1) rest tex' c1
            else true
        end
  end.

(** The two writes of lines 219-222 for one row. *)
Definition checkpoint_pair (doc : Z * str) : list event :=
  [EWriteCheckpoint doc.2; EWriteProgress doc.1].

(** The network answers a request the same way whenever it is sent. *)
Definition stationary (net : nat -> str -> http_result) : Prop :=
  forall n m url, net n url = net m url.

(** What a run reads at its start, lines 179-203: the row of the progress
    marker, [-1] without one, and the stored document as text mode gives
    it, the preamble without one. *)
Definition marker_of (d : disk) : Z :=
  match progress d with
  | Some last => last
  | None => -1
  end.

Definition document_of (d : disk) : str :=
  match checkpoint d with
  | Some tex => read_text tex
  | None => preamble
  end.

(** The value of a computation under [f], an exception as it is. *)
Definition result_map {A B} (f : A -> B) (r : result A) : result B :=
  match r with
  | Ok a => Ok (f a)
  | Raise exn => Raise exn
  end.

(** * The rest of the program *)

(** ** Numerals and escapes, read back *)

(** The number a letter stands for: the key of its entry in
    [hebrew_letters], 0 for a character the table does not have. *)
Fixpoint letter_value (table : list (Z * str)) (c : char) : Z :=
  match table with
  | [] => 0
  | (k, l) :: rest => if bool_decide (l = [c]) then k else letter_value rest c
  end.

(** The sum of the values of the letters of a numeral. *)
Definition gematria (s : str) : Z := sumZ (map (letter_value hebrew_letters) s).

(** What [escape_latex_special_chars] puts for one character. *)
Definition escape_char (c : char) : str :=
  if c =? 92 then u "\textbackslash{}"
  else if c =? 95 then u "\_"
  else [c].

(** A text the cleaning step has nothing to do on. *)
Definition is_clean (text : str) : Prop :=
  occurs match_tag text = false
  /\ occurs match_entity text = false
  /\ strip text = text.

(** ** The units of the curriculum, lines 83-89 *)

(** [str(n)] for an integer: its decimal digits, after a minus sign when it
    is negative. *)
Fixpoint str_of_uint (d : Decimal.uint) : str :=
  match d with
  | Decimal.Nil => []
  | Decimal.D0 d => 48 :: str_of_uint d
  | Decimal.D1 d => 49 :: str_of_uint d
  | Decimal.D2 d => 50 :: str_of_uint d
  | Decimal.D3 d => 51 :: str_of_uint d
  | Decimal.D4 d => 52 :: str_of_uint d
  | Decimal.D5 d => 53 :: str_of_uint d
  | Decimal.D6 d => 54 :: str_of_uint d
  | Decimal.D7 d => 55 :: str_of_uint d
  | Decimal.D8 d => 56 :: str_of_uint d
  | Decimal.D9 d => 57 :: str_of_uint d
  end.

Definition str_of_int (n : Z) : str :=
  match Z.to_int n with
  | Decimal.Pos d => str_of_uint d
  | Decimal.Neg d => 45 :: str_of_uint d
  end.

(** A row of the input table, with the four columns the program reads.
    [Chapter] and [Number of Verses or Mishnahs] are integer columns. *)
Record table_row : Type := TableRow {
  data_type : str;
  book : str;
  chapter : Z;
  number_of_verses : Z
}.

(** Line 88: the units of one row, [range(1, n + 1)]. *)
Definition verses_of_row (row : table_row) : list str :=
  map (fun v => book row ++ u " " ++ str_of_int (chapter row) ++ u ":"
                ++ str_of_int v)
      (seqZ 1 (number_of_verses row)).

(** Line 84: the rows whose [Data Type] is [Bible]. *)
Definition bible_df (df : list table_row) : list table_row :=
  filter (fun row => data_type row = u "Bible") df.

(** Lines 86-89. *)
Definition all_verses_of (df : list table_row) : list str :=
  concat (map verses_of_row (bible_df df)).

(** ** The names of the files, lines 115, 120 and 175-177 *)

(** [s.startswith(p)] *)
Fixpoint startswith (p s : str) : bool :=
  match p, s with
  | [], _ => true
  | _ :: _, [] => false
  | a :: p', b :: s' => (a =? b) && startswith p' s'
  end.

(** [s.replace(old, new)] for an [old] that is not empty: the leftmost
    occurrences that do not overlap are replaced. *)
Fixpoint py_replace_from (old new : str) (skip : nat) (s : str) : str :=
  match s with
  | [] => []
  | c :: t =>
      match skip with
      | S k => py_replace_from old new k t
      | O =>
          if startswith old s
          then new ++ py_replace_from old new (length old - 1) t
          else c :: py_replace_from old new O t
      end
  end.

Definition py_replace (old new s : str) : str := py_replace_from old new O s.

(** [old] occurs in [s]. *)
Fixpoint contains (old s : str) : bool :=
  match s with
  | [] => startswith old []
  | _ :: t => startswith old s || contains old t
  end.

(** Line 115. *)
Definition csv_path_of (name dob : str) : str :=
  u "study_schedule_" ++ replace_char 32 (u "_") name ++ u "_" ++ dob ++ u ".csv".

(** Line 120. *)
Definition ics_path_of (csv_path : str) : str :=
  py_replace (u ".csv") (u ".ics") csv_path.

(** Lines 175-177. *)
Definition tex_path_of (csv_path : str) : str :=
  py_replace (u ".csv") (u ".tex") csv_path.
Definition checkpoint_path_of (csv_path : str) : str :=
  tex_path_of csv_path ++ u ".checkpoint".
Definition progress_path_of (csv_path : str) : str :=
  tex_path_of csv_path ++ u ".progress".

(** ** Measures of a run *)

(** The seconds a run sleeps. *)
Definition slept (evs : list event) : Z :=
  sumZ (map (fun e => match e with ESleep secs => secs | _ => 0 end) evs).

(** The payload is an object whose [he] is a string, so that the number of
    its one entry is [sections[1]] as the service sent it. *)
Definition string_he (body : option json) : bool :=
  match body with
  | Some (JDict d) => is_str (members_get d (u "he") (JList []))
  | _ => false
  end.

(** An entry whose number is an integer of the fetcher's own counting. *)
Definition numbered (e : entry) : Prop := exists n : Z, e.1.2 = JInt n.

(** An event that writes or removes a file. *)
Definition writes (evs : list event) : list event := filter is_disk_event evs.

(** The strings of [he] in a payload: the string itself, or the elements
    of the sequence that are strings. *)
Definition he_texts (body : option json) : list str :=
  match body with
  | Some (JDict d) =>
      match members_get d (u "he") (JList []) with
      | JStr t => [t]
      | JList he => omap (fun v => match v with JStr t => Some t | _ => None end) he
      | _ => []
      end
  | _ => []
  end.

(** A value that [hebrew_number] refuses: null, a string, a sequence or an
    object. *)
Definition unnumbered (num : json) : bool :=
  match num with
  | JNull | JStr _ | JList _ | JDict _ => true
  | _ => false
  end.

(** An entry that the document can take: its number is one the fetcher
    counted and its text can be encoded. *)
Definition printable (e : entry) : Prop := numbered e /\ encodable e.2 = true.

(** * Properties *)

(** ** Allocation *)

Lemma py_index_nat {A} (l : list A) (i : nat) (x : A) :
  l !! i = Some x -> py_index l (Z.of_nat i) = Ok x.
Proof.
  intros Hl. unfold py_index.
  destruct (Z.ltb_spec (Z.of_nat i) 0) as [?|_]; [lia|].
  destruct (Z.ltb_spec (Z.of_nat i) 0) as [?|_]; [lia|].
  by rewrite Nat2Z.id, Hl.
Qed.

Lemma py_slice_nonneg {A} (l : list A) (idx c : Z) :
  0 <= idx -> 0 <= c ->
  py_slice l idx (idx + c) = take (Z.to_nat c) (drop (Z.to_nat idx) l).
Proof.
  intros Hidx Hc. unfold py_slice, clamp_index.
  destruct (Z.ltb_spec idx 0) as [?|_]; [lia|].
  destruct (Z.ltb_spec (idx + c) 0) as [?|_]; [lia|].
  destruct (Z_lt_le_dec idx (Z.of_nat (length l))) as [Hlt|Hge].
  - rewrite (Z.min_l idx) by lia.
    destruct (Z_le_gt_dec (idx + c) (Z.of_nat (length l))) as [Hle|Hgt].
    + rewrite Z.min_l by lia. f_equal. lia.
    + rewrite Z.min_r by lia.
      rewrite take_ge by (rewrite length_drop; lia).
      symmetry. apply take_ge. rewrite length_drop. lia.
  - rewrite !Z.min_r by lia. rewrite Z.sub_diag. simpl.
    rewrite !drop_ge by lia. by rewrite !take_nil.
Qed.

Lemma for_each_cons {S X} (body : S -> X -> result S) acc x rest :
  for_each body acc (x :: rest) = (acc' ← body acc x; for_each body acc' rest).
Proof. reflexivity. Qed.

Lemma bind_Ok {A B} (a : A) (f : A -> result B) : (Ok a ≫= f) = f a.
Proof. reflexivity. Qed.

Lemma incr_at_nat (l : list Z) (i : nat) (x : Z) :
  l !! i = Some x -> incr_at l (Z.of_nat i) = Ok (<[i := x + 1]> l).
Proof.
  intros Hl. unfold incr_at. rewrite (py_index_nat _ _ x Hl), bind_Ok.
  by rewrite Nat2Z.id.
Qed.

(** The loop of lines 94-95 increments the next [k] counts. *)
Lemma for_each_incr_at (k : nat) : forall (pre l : list Z),
  (k <= length l)%nat ->
  for_each incr_at (pre ++ l) (seqZ (Z.of_nat (length pre)) (Z.of_nat k))
  = Ok (pre ++ map Z.succ (take k l) ++ drop k l).
Proof.
  induction k as [|k IH]; intros pre l Hk.
  - rewrite seqZ_nil by lia. simpl. by rewrite drop_0.
  - destruct l as [|x l]; [simpl in Hk; lia|].
    rewrite seqZ_cons by lia. rewrite for_each_cons.
    rewrite (incr_at_nat _ _ x) by (by rewrite lookup_app_r, Nat.sub_diag by lia).
    rewrite bind_Ok.
    replace (<[length pre:=x + 1]> (pre ++ x :: l)) with ((pre ++ [x + 1]) ++ l).
    2:{ rewrite insert_app_r_alt, Nat.sub_diag by lia. simpl. by rewrite <- app_assoc. }
    replace (Z.succ (Z.of_nat (length pre))) with (Z.of_nat (length (pre ++ [x + 1])))
      by (rewrite length_app; simpl; lia).
    replace (Z.pred (Z.of_nat (S k))) with (Z.of_nat k) by lia.
    rewrite IH by (simpl in Hk; lia).
    rewrite <- app_assoc. simpl. by rewrite Z.add_1_r.
Qed.

Lemma daily_counts_of_pos (n total_days : Z) :
  0 < total_days ->
  daily_counts_of n total_days = Ok (even_counts n total_days).
Proof.
  intros Hd. unfold daily_counts_of, floordiv, pymod.
  destruct (Z.eqb_spec total_days 0) as [?|_]; [lia|].
  rewrite !bind_Ok.
  pose proof (Z.mod_pos_bound n total_days Hd) as Hr.
  pose proof (for_each_incr_at (Z.to_nat (n mod total_days)) []
                (replicate (Z.to_nat total_days) (n / total_days))) as H.
  simpl in H. change (Z.of_nat 0) with 0 in H. rewrite Z2Nat.id in H by lia.
  rewrite H by (rewrite length_replicate; lia).
  f_equal. unfold even_counts.
  rewrite take_replicate, drop_replicate, fmap_replicate.
  rewrite Nat.min_l by lia.
  do 2 f_equal. lia.
Qed.

Lemma lookup_even_counts (n total_days : Z) (i : nat) :
  0 < total_days -> Z.of_nat i < total_days ->
  even_counts n total_days !! i
  = Some (n / total_days + (if Z.of_nat i <? n mod total_days then 1 else 0)).
Proof.
  intros Hd Hi. unfold even_counts.
  pose proof (Z.mod_pos_bound n total_days Hd) as Hr.
  destruct (Z.ltb_spec (Z.of_nat i) (n mod total_days)).
  - rewrite lookup_app_l by (rewrite length_replicate; lia).
    rewrite lookup_replicate_2 by lia. done.
  - rewrite lookup_app_r by (rewrite length_replicate; lia).
    rewrite lookup_replicate_2 by (rewrite length_replicate; lia).
    f_equal. lia.
Qed.

Lemma length_even_counts (n total_days : Z) :
  0 < total_days -> length (even_counts n total_days) = Z.to_nat total_days.
Proof.
  intros Hd. pose proof (Z.mod_pos_bound n total_days Hd).
  unfold even_counts. rewrite length_app, !length_replicate. lia.
Qed.

Lemma sumZ_app (l1 l2 : list Z) : sumZ (l1 ++ l2) = sumZ l1 + sumZ l2.
Proof. induction l1 as [|x l1 IH]; simpl; [done|]. rewrite IH. lia. Qed.

Lemma sumZ_replicate (k : nat) (x : Z) : sumZ (replicate k x) = Z.of_nat k * x.
Proof. induction k as [|k IH]; [done|]. simpl replicate. simpl sumZ. rewrite IH. lia. Qed.

Lemma sumZ_even_counts (n total_days : Z) :
  0 < total_days -> sumZ (even_counts n total_days) = n.
Proof.
  intros Hd. pose proof (Z.mod_pos_bound n total_days Hd).
  unfold even_counts. rewrite sumZ_app, !sumZ_replicate, !Z2Nat.id by lia.
  pose proof (Z.div_mod n total_days). lia.
Qed.

Lemma sumZ_nonneg (l : list Z) : Forall (fun c => 0 <= c) l -> 0 <= sumZ l.
Proof. induction 1; simpl; lia. Qed.

Lemma concat_chunks {A} (counts : list Z) : forall l : list A,
  Forall (fun c => 0 <= c) counts ->
  Z.of_nat (length l) <= sumZ counts ->
  concat (chunks counts l) = l.
Proof.
  induction counts as [|c counts IH]; intros l Hpos Hsum; simpl in *.
  - destruct l; [done | simpl in Hsum; lia].
  - apply Forall_cons in Hpos as [Hc Hpos].
    pose proof (sumZ_nonneg _ Hpos).
    rewrite IH; [apply take_drop | done | rewrite length_drop; lia].
Qed.

Lemma lookup_chunks_length {A} (counts : list Z) : forall (l : list A) (i : nat) c,
  Forall (fun c => 0 <= c) counts ->
  sumZ counts <= Z.of_nat (length l) ->
  counts !! i = Some c ->
  exists portion, chunks counts l !! i = Some portion /\ Z.of_nat (length portion) = c.
Proof.
  induction counts as [|c0 counts IH]; intros l i c Hpos Hsum Hi; [done|].
  apply Forall_cons in Hpos as [Hc0 Hpos]. simpl in Hsum.
  pose proof (sumZ_nonneg _ Hpos).
  destruct i as [|i]; simpl in *.
  - inversion Hi; subst. eexists; split; [done|]. rewrite length_take. lia.
  - apply IH; [done | rewrite length_drop; lia | done].
Qed.

Lemma length_chunks {A} (counts : list Z) (l : list A) :
  length (chunks counts l) = length counts.
Proof. revert l. induction counts; intros; simpl; [done | by rewrite IHcounts]. Qed.

Lemma portion_step_nat {A} (all_verses : list A) (daily_counts : list Z)
    portions (idx : Z) (i : nat) (c : Z) :
  daily_counts !! i = Some c -> 0 <= idx -> 0 <= c ->
  portion_step all_verses daily_counts (portions, idx) (Z.of_nat i)
  = Ok (portions
          ++ [(Z.of_nat i, take (Z.to_nat c) (drop (Z.to_nat idx) all_verses))],
        idx + c).
Proof.
  intros Hl Hidx Hc. unfold portion_step.
  rewrite (py_index_nat _ _ c Hl), !bind_Ok.
  by rewrite py_slice_nonneg by lia.
Qed.

(** The loop of lines 99-103 cuts the pieces one after the other. *)
Lemma for_each_portion_step {A} (all_verses : list A) (daily_counts : list Z)
    (todo : list Z) : forall (done_ : list Z) portions (idx : Z),
  daily_counts = done_ ++ todo ->
  Forall (fun c => 0 <= c) daily_counts ->
  idx = sumZ done_ ->
  for_each (portion_step all_verses daily_counts) (portions, idx)
    (seqZ (Z.of_nat (length done_)) (Z.of_nat (length todo)))
  = Ok (portions
          ++ zip (seqZ (Z.of_nat (length done_)) (Z.of_nat (length todo)))
                 (chunks todo (drop (Z.to_nat idx) all_verses)),
        idx + sumZ todo).
Proof.
  induction todo as [|c todo IH]; intros done_ portions idx Hdc Hpos Hidx.
  - simpl. by rewrite app_nil_r, Z.add_0_r.
  - assert (0 <= sumZ done_ /\ 0 <= c) as [Hs Hc].
    { subst daily_counts. apply Forall_app in Hpos as [Hp1 Hp2].
      apply Forall_cons in Hp2 as [Hc _]. split; [|done].
      by apply sumZ_nonneg. }
    rewrite seqZ_cons by (simpl; lia). rewrite for_each_cons.
    rewrite (portion_step_nat _ _ _ _ _ c);
      [| subst daily_counts; by rewrite lookup_app_r, Nat.sub_diag by lia
       | lia | lia].
    rewrite bind_Ok.
    replace (Z.succ (Z.of_nat (length done_)))
      with (Z.of_nat (length (done_ ++ [c]))) by (rewrite length_app; simpl; lia).
    replace (Z.pred (Z.of_nat (length (c :: todo)))) with (Z.of_nat (length todo))
      by (simpl; lia).
    rewrite (IH (done_ ++ [c]));
      [| by rewrite <- app_assoc | done | rewrite sumZ_app; simpl; lia].
    simpl. rewrite <- app_assoc. simpl.
    rewrite drop_drop.
    replace (Z.to_nat (idx + c)) with (Z.to_nat idx + Z.to_nat c)%nat by lia.
    do 2 f_equal. lia.
Qed.

Lemma Forall_even_counts (n total_days : Z) :
  0 <= n -> 0 < total_days -> Forall (fun c => 0 <= c) (even_counts n total_days).
Proof.
  intros Hn Hd. pose proof (Z.div_pos n total_days Hn Hd).
  unfold even_counts. apply Forall_app; split; apply Forall_replicate; lia.
Qed.

(** The allocation in closed form. *)
Lemma allocate_pos {A} (all_verses : list A) (total_days : Z) :
  0 < total_days ->
  allocate all_verses total_days
  = Ok (zip (seqZ 0 total_days)
            (chunks (even_counts (Z.of_nat (length all_verses)) total_days)
                    all_verses)).
Proof.
  intros Hd. unfold allocate. rewrite daily_counts_of_pos by done.
  rewrite bind_Ok.
  set (dc := even_counts _ _).
  pose proof (for_each_portion_step all_verses dc dc [] [] 0) as H.
  simpl in H. change (Z.of_nat 0) with 0 in H. rewrite drop_0 in H.
  assert (Z.of_nat (length dc) = total_days) as Hlen
    by (unfold dc; rewrite length_even_counts; lia).
  rewrite Hlen in H.
  rewrite H; [| done | apply Forall_even_counts; lia | done].
  by rewrite bind_Ok.
Qed.

(** The group of day [i] and its size. *)
Lemma allocate_lookup {A} (all_verses : list A) (total_days i : Z) :
  0 < total_days -> 0 <= i < total_days ->
  exists portion,
    zip (seqZ 0 total_days)
        (chunks (even_counts (Z.of_nat (length all_verses)) total_days)
                all_verses) !! Z.to_nat i = Some (i, portion)
    /\ Z.of_nat (length portion)
       = Z.of_nat (length all_verses) / total_days
         + (if i <? Z.of_nat (length all_verses) mod total_days then 1 else 0).
Proof.
  intros Hd Hi. set (n := Z.of_nat (length all_verses)).
  destruct (lookup_chunks_length (even_counts n total_days) all_verses
              (Z.to_nat i)
              (n / total_days + (if i <? n mod total_days then 1 else 0)))
    as (portion & Hp & Hlen).
  - apply Forall_even_counts; lia.
  - rewrite sumZ_even_counts by done. lia.
  - rewrite lookup_even_counts by lia. by rewrite Z2Nat.id by lia.
  - exists portion. split; [|done].
    rewrite lookup_zip_with, Hp.
    rewrite lookup_seqZ_lt by lia. simpl. do 2 f_equal. lia.
Qed.

Lemma sumZ_lengths_concat {A} (ls : list (list A)) :
  sumZ (map (fun p => Z.of_nat (length p)) ls) = Z.of_nat (length (concat ls)).
Proof.
  induction ls as [|p ls IH]; [done|].
  simpl. rewrite IH, length_app. lia.
Qed.

(** C1: for a positive day count the allocation yields one group per day,
    in day order; the groups, concatenated in order, are exactly the unit
    list (so they partition it contiguously and split no unit); the sizes sum
    to the number of units [n]; and day [i] holds [n / d + 1] units when
    [i < n mod d] and [n / d] units otherwise. *)
Theorem C1_allocate_even_partition {A} (all_verses : list A) (total_days : Z) :
  0 < total_days ->
  exists portions,
    allocate all_verses total_days = Ok portions
    /\ length portions = Z.to_nat total_days
    /\ map fst portions = seqZ 0 total_days
    /\ concat (map snd portions) = all_verses
    /\ sumZ (map (fun p => Z.of_nat (length p.2)) portions)
       = Z.of_nat (length all_verses)
    /\ forall i, 0 <= i < total_days ->
         exists portion,
           portions !! Z.to_nat i = Some (i, portion)
           /\ Z.of_nat (length portion)
              = Z.of_nat (length all_verses) / total_days
                + (if i <? Z.of_nat (length all_verses) mod total_days
                   then 1 else 0).
Proof.
  intros Hd. set (n := Z.of_nat (length all_verses)).
  eexists. split; [by apply allocate_pos|]. fold n.
  set (ec := even_counts n total_days).
  assert (length (seqZ 0 total_days) = Z.to_nat total_days) as Hls
    by apply length_seqZ.
  assert (length (chunks ec all_verses) = Z.to_nat total_days) as Hlc
    by (rewrite length_chunks; apply length_even_counts; lia).
  assert (Forall (fun c => 0 <= c) ec) as Hpos
    by (apply Forall_even_counts; lia).
  assert (sumZ ec = n) as Hsum by (by apply sumZ_even_counts).
  assert (concat (map snd (zip (seqZ 0 total_days) (chunks ec all_verses)))
          = all_verses) as Hcat.
  { rewrite snd_zip by lia. apply concat_chunks; [done | lia]. }
  repeat split.
  - rewrite length_zip. lia.
  - apply fst_zip. lia.
  - done.
  - rewrite <- (map_map snd (fun p => Z.of_nat (length p))).
    rewrite sumZ_lengths_concat. by rewrite Hcat.
  - intros i Hi. by apply allocate_lookup.
Qed.

(** The hypothesis of C1 at the scenario of the specification: 10 units over
    3 days. *)
Lemma C1_allocate_even_partition_witness :
  0 < 3 /\
  exists portions,
    allocate (seqZ 1 10) 3 = Ok portions
    /\ length portions = 3%nat
    /\ map fst portions = seqZ 0 3
    /\ concat (map snd portions) = seqZ 1 10
    /\ sumZ (map (fun p => Z.of_nat (length p.2)) portions) = 10
    /\ forall i, 0 <= i < 3 ->
         exists portion,
           portions !! Z.to_nat i = Some (i, portion)
           /\ Z.of_nat (length portion) = 10 / 3 + (if i <? 10 mod 3 then 1 else 0).
Proof.
  split; [lia|].
  apply (C1_allocate_even_partition (seqZ 1 10) 3). lia.
Defined.

(** 10 units over 3 days: the sizes are 4, 3 and 3 and the first day holds
    the units 1 to 4. *)
Example allocate_10_3 :
  allocate (seqZ 1 10) 3 = Ok [(0, [1; 2; 3; 4]); (1, [5; 6; 7]); (2, [8; 9; 10])].
Proof. vm_compute. reflexivity. Qed.

(** Fewer units than days: the first days hold one unit each and the
    days from the number of units on hold none. *)
Lemma allocate_fewer_units_than_days {A} (all_verses : list A) (total_days : Z) :
  Z.of_nat (length all_verses) < total_days ->
  exists portions,
    allocate all_verses total_days = Ok portions
    /\ length portions = Z.to_nat total_days
    /\ forall i, Z.of_nat (length all_verses) <= i < total_days ->
         portions !! Z.to_nat i = Some (i, []).
Proof.
  intros Hlt. assert (0 < total_days) as Hd by lia.
  eexists. split; [by apply allocate_pos|]. split.
  - rewrite length_zip, length_seqZ, length_chunks, length_even_counts by done.
    lia.
  - intros i Hi.
    destruct (allocate_lookup all_verses total_days i) as (portion & Hp & Hlen);
      [done | lia |].
    rewrite Z.div_small, Z.mod_small in Hlen by lia.
    destruct (Z.ltb_spec i (Z.of_nat (length all_verses))); [lia|].
    destruct portion; [done | simpl in Hlen; lia].
Qed.

(** C7, as the code has it: a zero day count ends in the
    [ZeroDivisionError] of line 93, and a negative one raises nothing and
    yields no portion at all. *)
Theorem C7_allocate_nonpositive {A} (all_verses : list A) (total_days : Z) :
  total_days <= 0 ->
  allocate all_verses total_days
  = if total_days =? 0 then Raise ZeroDivisionError else Ok [].
Proof.
  intros Hd. unfold allocate, daily_counts_of, floordiv, pymod.
  destruct (Z.eqb_spec total_days 0) as [->|Hne]; [done|].
  rewrite !bind_Ok.
  assert (Z.of_nat (length all_verses) mod total_days <= 0) as Hr
    by (apply Z.mod_neg_bound; lia).
  rewrite (seqZ_nil 0 (_ mod _)) by done.
  simpl for_each. rewrite bind_Ok.
  rewrite (seqZ_nil 0 total_days) by done. done.
Qed.

Lemma C7_allocate_nonpositive_witness :
  -2 <= 0 /\ allocate [1; 2; 3] (-2) = Ok [].
Proof.
  split; [lia|]. apply (C7_allocate_nonpositive [1; 2; 3] (-2)). lia.
Defined.

(** C7 as stated fails: no non-positive day count makes the allocation end
    in [InvalidWindowError]; zero gives [ZeroDivisionError] and a negative
    count succeeds. *)
Lemma C7_counterexample :
  allocate [1; 2; 3] 0 = Raise "ZeroDivisionError"
  /\ allocate [1; 2; 3] (-2) = Ok []
  /\ ~ (forall total_days, total_days <= 0 ->
          allocate [1; 2; 3] total_days = Raise "InvalidWindowError").
Proof.
  split; [by vm_compute|]. split; [by vm_compute|].
  intros H. specialize (H (-2) ltac:(lia)). by vm_compute in H.
Qed.

(** ** Hebrew numerals *)

Lemma letter_of_0 : letter_of 0 = [].
Proof. reflexivity. Qed.

Lemma letter_of_large (k : Z) : 500 <= k -> letter_of k = [].
Proof.
  intros Hk. unfold letter_of, hebrew_letters, dict_get.
  repeat match goal with
         | |- context [?a =? k] => destruct (Z.eqb_spec a k) as [?|_]; [lia|]
         end.
  done.
Qed.

Lemma letter_of_negative (k : Z) : k < 0 -> letter_of k = [].
Proof.
  intros Hk. unfold letter_of, hebrew_letters, dict_get.
  repeat match goal with
         | |- context [?a =? k] => destruct (Z.eqb_spec a k) as [?|_]; [lia|]
         end.
  done.
Qed.

Lemma hebrew_number_negative (num : Z) : num < 0 -> hebrew_number num = [].
Proof.
  intros Hneg. unfold hebrew_number.
  destruct (Z.eqb_spec num 15) as [?|_]; [lia|].
  destruct (Z.eqb_spec num 16) as [?|_]; [lia|].
  destruct (Z.leb_spec 100 num) as [?|_]; [lia|].
  destruct (Z.leb_spec 10 num) as [?|_]; [lia|].
  destruct (Z.eqb_spec num 0) as [?|_]; [lia|].
  simpl negb. cbv iota. fold (letter_of num).
  by rewrite letter_of_negative.
Qed.

(** From 0 on: the special forms, or the letters of the three components. *)
Lemma hebrew_number_nonneg (num : Z) :
  0 <= num ->
  hebrew_number num
  = (if num =? 15 then u "טו"
     else if num =? 16 then u "טז"
     else digit_letters num).
Proof.
  intros Hnum.
  unfold hebrew_number, digit_letters.
  destruct (Z.eqb_spec num 15) as [?|H15]; [done|].
  destruct (Z.eqb_spec num 16) as [?|H16]; [done|].
  assert ((num / 10) mod 10 = (num mod 100) / 10
          /\ num mod 10 = (num mod 100) mod 10) as [Htens Hunits].
  { pose proof (Z.div_mod num 100 ltac:(lia)).
    pose proof (Z.mod_pos_bound num 100 ltac:(lia)).
    pose proof (Z.div_mod (num mod 100) 10 ltac:(lia)).
    pose proof (Z.mod_pos_bound (num mod 100) 10 ltac:(lia)).
    pose proof (Z.div_mod num 10 ltac:(lia)).
    pose proof (Z.mod_pos_bound num 10 ltac:(lia)).
    pose proof (Z.div_mod (num / 10) 10 ltac:(lia)).
    pose proof (Z.mod_pos_bound (num / 10) 10 ltac:(lia)).
    lia. }
  pose proof (Z.mod_pos_bound num 100 ltac:(lia)) as Hm100.
  pose proof (Z.mod_pos_bound num 10 ltac:(lia)) as Hm10.
  fold (letter_of ((num / 100) * 100)).
  destruct (Z.leb_spec 100 num) as [Hh|Hh].
  - rewrite (Z.mul_comm (num / 100) 100), Htens, Hunits. simpl app.
    destruct (Z.leb_spec 10 (num mod 100)) as [Ht|Ht].
    + fold (letter_of ((num mod 100) / 10 * 10)).
      rewrite (Z.mul_comm (num mod 100 / 10) 10).
      destruct (Z.eqb_spec (num mod 100 mod 10) 0) as [->|Hu]; simpl negb; cbv iota.
      * by rewrite letter_of_0, app_nil_r.
      * fold (letter_of (num mod 100 mod 10)). by rewrite app_assoc.
    + rewrite (Z.div_small (num mod 100) 10), (Z.mod_small (num mod 100) 10) by lia.
      rewrite Z.mul_0_r, letter_of_0. simpl app.
      destruct (Z.eqb_spec (num mod 100) 0) as [->|Hu]; simpl negb; cbv iota.
      * by rewrite letter_of_0, app_nil_r.
      * done.
  - rewrite (Z.div_small num 100) by lia. rewrite Z.mul_0_r, letter_of_0.
    simpl app. rewrite Htens, Hunits.
    rewrite (Z.mod_small num 100) by lia.
    destruct (Z.leb_spec 10 num) as [Ht|Ht].
    + fold (letter_of (num / 10 * 10)). rewrite (Z.mul_comm (num / 10) 10).
      destruct (Z.eqb_spec (num mod 10) 0) as [->|Hu]; simpl negb; cbv iota.
      * by rewrite letter_of_0, app_nil_r.
      * done.
    + rewrite (Z.div_small num 10), (Z.mod_small num 10) by lia.
      rewrite Z.mul_0_r, letter_of_0. simpl app.
      destruct (Z.eqb_spec num 0) as [->|Hu]; simpl negb; cbv iota; done.
Qed.

(** C10: 15 and 16 have their special forms; every other number from 0 on
    is rendered as the letters of its hundreds, tens and units, in that
    order, and a negative number as the empty string; 0 gives the empty
    string, and a component without a table entry, such as 500 or more
    hundreds, adds nothing. *)
Theorem C10_hebrew_number_digits (num : Z) :
  hebrew_number num
  = (if num =? 15 then u "טו"
     else if num =? 16 then u "טז"
     else if 0 <=? num then digit_letters num
     else [])
  /\ hebrew_number 0 = []
  /\ (500 <= num ->
      letter_of (100 * (num / 100)) = []
      /\ hebrew_number num
         = letter_of (10 * ((num / 10) mod 10)) ++ letter_of (num mod 10)).
Proof.
  assert (hebrew_number num
          = (if num =? 15 then u "טו"
             else if num =? 16 then u "טז"
             else if 0 <=? num then digit_letters num
             else [])) as Hmain.
  { destruct (Z.leb_spec 0 num) as [Hnum|Hneg].
    - rewrite hebrew_number_nonneg by done.
      by destruct (num =? 15), (num =? 16).
    - rewrite hebrew_number_negative by done.
      destruct (Z.eqb_spec num 15) as [?|_]; [lia|].
      by destruct (Z.eqb_spec num 16) as [?|_]; [lia|]. }
  split; [done|]. split; [done|].
  intros H500.
  assert (letter_of (100 * (num / 100)) = []) as Hh.
  { apply letter_of_large.
    pose proof (Z.div_le_mono 500 num 100 ltac:(lia) ltac:(lia)) as Hq.
    change (500 / 100) with 5 in Hq. lia. }
  split; [done|].
  rewrite Hmain.
  destruct (Z.eqb_spec num 15) as [?|_]; [lia|].
  destruct (Z.eqb_spec num 16) as [?|_]; [lia|].
  destruct (Z.leb_spec 0 num) as [_|?]; [|lia].
  unfold digit_letters. by rewrite Hh.
Qed.

Lemma C10_hebrew_number_digits_witness :
  500 <= 526
  /\ letter_of (100 * (526 / 100)) = []
  /\ hebrew_number 526
     = letter_of (10 * ((526 / 10) mod 10)) ++ letter_of (526 mod 10).
Proof.
  split; [lia|].
  apply (C10_hebrew_number_digits 526). lia.
Defined.

Example hebrew_number_examples :
  map hebrew_number [1; 15; 16; 115; 248; 999; 1234]
  = [u "א"; u "טו"; u "טז"; u "קיה"; u "רמח"; u "צט"; u "לד"].
Proof. vm_compute. reflexivity. Qed.

(** A negative number has no letters. *)

(** ** Cleaning *)

Lemma re_sub_from_drop (m : str -> option nat) (s : str) : forall k,
  re_sub_from m k s = re_sub_from m 0 (drop k s).
Proof.
  induction s as [|c t IH]; intros [|k]; try done.
  simpl. apply IH.
Qed.

Lemma re_sub_from_sublist (m : str -> option nat) (s : str) : forall k,
  re_sub_from m k s `sublist_of` s.
Proof.
  induction s as [|c t IH]; intros k; [done|].
  destruct k as [|k]; simpl.
  - destruct (m (c :: t)) as [[|j]|].
    + by apply sublist_skip.
    + by apply sublist_cons.
    + by apply sublist_skip.
  - by apply sublist_cons.
Qed.

(** A pattern that is a first character, a condition on what follows and
    a scan to a closing character. *)
Section Pattern.
Variables (stop bad first : char -> bool) (guard : str -> bool).
Variables (f m : str -> option nat).
Hypothesis f_nil : f [] = None.
Hypothesis f_cons : forall c t,
  f (c :: t) = if stop c then Some 1%nat else if bad c then None else S <$> f t.
Hypothesis m_nil : m [] = None.
Hypothesis m_cons : forall c t,
  m (c :: t) = if first c && guard t then S <$> f t else None.
Hypothesis first_scanned : forall c,
  first c = true -> stop c = false /\ bad c = false.
Hypothesis guard_sub : forall t,
  guard (re_sub_from m 0 t) = true -> guard t = true.
Hypothesis guard_app : forall c t q, guard ((c :: t) ++ q) = guard (c :: t).

Lemma m_Some c t :
  is_Some (m (c :: t)) <-> first c = true /\ guard t = true /\ is_Some (f t).
Proof.
  rewrite m_cons. destruct (first c), (guard t); simpl;
    rewrite ?fmap_is_Some; split; try tauto; try (by intros []);
    intros (? & ? & ?); done.
Qed.

Lemma m_Some_f c t : is_Some (m (c :: t)) -> is_Some (f (c :: t)).
Proof.
  intros (Hc & _ & Hf)%m_Some. rewrite f_cons.
  destruct (first_scanned c Hc) as [-> ->]. by rewrite fmap_is_Some.
Qed.

(** What the scan finds after the deletions was there before. *)
Lemma f_re_sub_from (s : str) : forall k,
  is_Some (f (re_sub_from m k s)) -> is_Some (f (drop k s)).
Proof.
  induction s as [|c t IH]; intros k.
  - by destruct k.
  - destruct k as [|k]; simpl; [|by apply IH].
    destruct (m (c :: t)) as [[|j]|] eqn:Hm.
    + rewrite !f_cons. destruct (stop c), (bad c); try done.
      rewrite !fmap_is_Some. apply (IH 0%nat).
    + intros _. apply m_Some_f. by rewrite Hm.
    + rewrite !f_cons. destruct (stop c), (bad c); try done.
      rewrite !fmap_is_Some. apply (IH 0%nat).
Qed.

Lemma m_not_0 s : m s <> Some 0%nat.
Proof.
  destruct s as [|c t]; [by rewrite m_nil|]. rewrite m_cons.
  destruct (first c && guard t); [|done]. by destruct (f t).
Qed.

(** No match is left after [re.sub]. *)
Lemma occurs_re_sub_from (s : str) : forall k,
  occurs m (re_sub_from m k s) = false.
Proof.
  induction s as [|c t IH]; intros k; [done|].
  destruct k as [|k]; simpl; [|by apply IH].
  destruct (m (c :: t)) as [[|j]|] eqn:Hm.
  - by apply m_not_0 in Hm.
  - apply IH.
  - simpl. rewrite IH, orb_false_r.
    apply bool_decide_eq_false. intros (Hc & Hg & Hf)%m_Some.
    assert (is_Some (m (c :: t))) as [? ?]; [|congruence].
    apply m_Some. split; [done|]. split; [by apply guard_sub|].
    by apply (f_re_sub_from t 0%nat).
Qed.

Lemma f_app s q n : f s = Some n -> f (s ++ q) = Some n.
Proof.
  revert n. induction s as [|c t IH]; intros n; [by rewrite f_nil|].
  simpl. rewrite !f_cons. destruct (stop c); [done|]. destruct (bad c); [done|].
  destruct (f t) as [j|]; [|done]. by rewrite (IH j).
Qed.

Lemma m_app s q : is_Some (m s) -> is_Some (m (s ++ q)).
Proof.
  destruct s as [|c t]; [by rewrite m_nil; intros []|].
  intros (Hc & Hg & [j Hf])%m_Some. simpl. apply m_Some.
  split; [done|].
  destruct t as [|d t]; [by rewrite f_nil in Hf|].
  split; [by rewrite guard_app|]. by rewrite (f_app _ _ j).
Qed.

(** A prefix has no match that the whole string does not have. *)
Lemma occurs_prefix (p q : str) : occurs m (p ++ q) = false -> occurs m p = false.
Proof.
  induction p as [|c p IH]; [done|]. simpl.
  intros [Hhd Htl]%orb_false_elim. rewrite (IH Htl), orb_false_r.
  apply bool_decide_eq_false. intros Hm. apply bool_decide_eq_false in Hhd.
  apply Hhd. by apply (m_app (c :: p) q).
Qed.
End Pattern.

Lemma occurs_lstrip (m : str -> option nat) (s : str) :
  occurs m s = false -> occurs m (lstrip s) = false.
Proof.
  induction s as [|c t IH]; [done|]. simpl lstrip.
  destruct (isspace c); [|done]. simpl. by intros [_ ?]%orb_false_elim; apply IH.
Qed.

Lemma lstrip_suffix (s : str) : exists p, s = p ++ lstrip s.
Proof.
  induction s as [|c t [p IH]]; [by exists []|]. simpl.
  destruct (isspace c); [|by exists []].
  exists (c :: p). simpl. by rewrite <- IH.
Qed.

Lemma rstrip_prefix (s : str) : exists q, s = rstrip s ++ q.
Proof.
  unfold rstrip. destruct (lstrip_suffix (reverse s)) as [p Hp].
  exists (reverse p). rewrite <- reverse_app, <- Hp. by rewrite reverse_involutive.
Qed.

Lemma lstrip_head (s : str) (c : char) : head (lstrip s) = Some c -> isspace c = false.
Proof.
  induction s as [|d t IH]; [done|]. simpl.
  destruct (isspace d) eqn:Hd; [done|]. simpl. by intros [= <-].
Qed.

(** The two patterns of the cleaning step are of this form. *)
Lemma match_tag_cons c t :
  match_tag (c :: t) = if (c =? 60) && true then S <$> match_lazy_gt t else None.
Proof. simpl. by destruct (c =? 60). Qed.

Lemma match_entity_cons c t :
  match_entity (c :: t)
  = if (c =? 38) && guard_entity t then S <$> match_run_semi t else None.
Proof.
  destruct t as [|d t]; simpl.
  - by destruct (c =? 38).
  - destruct (c =? 38), (d =? 59), (isspace d); simpl; try done.
    by destruct (match_run_semi t).
Qed.

Lemma first_scanned_tag c :
  (c =? 60) = true -> (c =? 62) = false /\ (c =? NL) = false.
Proof. intros ->%Z.eqb_eq. done. Qed.

Lemma first_scanned_entity c :
  (c =? 38) = true -> (c =? 59) = false /\ isspace c = false.
Proof. intros ->%Z.eqb_eq. done. Qed.

Lemma guard_entity_sub t :
  guard_entity (re_sub_from match_entity 0 t) = true -> guard_entity t = true.
Proof.
  destruct t as [|d t]; [done|].
  cbn [guard_entity]. destruct (Z.eqb_spec d 59) as [->|]; [|done].
  change (re_sub_from match_entity 0 (59 :: t))
    with (match match_entity (59 :: t) with
          | Some (S k) => re_sub_from match_entity k t
          | _ => 59 :: re_sub_from match_entity 0 t
          end).
  by rewrite match_entity_cons.
Qed.

Lemma no_tag_after_tag_pass (s : str) :
  occurs match_tag (re_sub_empty match_tag s) = false.
Proof.
  apply (occurs_re_sub_from (fun c => c =? 62) (fun c => c =? NL)
           (fun c => c =? 60) (fun _ => true) match_lazy_gt match_tag);
    try done.
  - apply match_tag_cons.
  - apply first_scanned_tag.
Qed.

Lemma no_entity_after_entity_pass (s : str) :
  occurs match_entity (re_sub_empty match_entity s) = false.
Proof.
  apply (occurs_re_sub_from (fun c => c =? 59) isspace
           (fun c => c =? 38) guard_entity match_run_semi match_entity);
    try done.
  - apply match_entity_cons.
  - apply first_scanned_entity.
  - apply guard_entity_sub.
Qed.

Lemma occurs_tag_prefix (p q : str) :
  occurs match_tag (p ++ q) = false -> occurs match_tag p = false.
Proof.
  apply (occurs_prefix (fun c => c =? 62) (fun c => c =? NL)
           (fun c => c =? 60) (fun _ => true) match_lazy_gt match_tag);
    try done.
  apply match_tag_cons.
Qed.

Lemma occurs_entity_prefix (p q : str) :
  occurs match_entity (p ++ q) = false -> occurs match_entity p = false.
Proof.
  apply (occurs_prefix (fun c => c =? 59) isspace
           (fun c => c =? 38) guard_entity match_run_semi match_entity);
    try done.
  apply match_entity_cons.
Qed.

(** An entity has no newline in it. *)
Lemma match_run_semi_no_newline (t : str) : forall k,
  match_run_semi t = Some k -> Forall (fun c => c <> NL) (take k t).
Proof.
  induction t as [|c t IH]; intros k; [done|]. simpl.
  destruct (Z.eqb_spec c 59) as [->|Hc].
  - intros [= <-]. simpl. by repeat constructor.
  - destruct (isspace c) eqn:Hsp; [done|].
    destruct (match_run_semi t) as [j|]; [|done]. intros [= <-]. simpl.
    constructor; [|by apply IH]. by intros ->.
Qed.

Lemma match_lazy_gt_cons_other c t :
  c <> NL -> is_Some (match_lazy_gt t) -> is_Some (match_lazy_gt (c :: t)).
Proof.
  intros Hc Ht. simpl. destruct (c =? 62); [done|].
  destruct (Z.eqb_spec c NL); [done|]. by rewrite fmap_is_Some.
Qed.

(** Deleting entities does not bring a [<] and a [>] onto one line. *)
Lemma lazy_gt_after_entity_pass (s : str) : forall k,
  Forall (fun c => c <> NL) (take k s) ->
  is_Some (match_lazy_gt (re_sub_from match_entity k s)) ->
  is_Some (match_lazy_gt s).
Proof.
  induction s as [|c t IH]; intros k Hnl; [by destruct k|].
  destruct k as [|k].
  - change (re_sub_from match_entity 0 (c :: t))
      with (match match_entity (c :: t) with
            | Some (S k) => re_sub_from match_entity k t
            | _ => c :: re_sub_from match_entity 0 t
            end).
    destruct (match_entity (c :: t)) as [[|j]|] eqn:Hm.
    + simpl. destruct (c =? 62); [done|]. destruct (c =? NL); [done|].
      rewrite !fmap_is_Some. by apply (IH 0%nat).
    + intros Hsub. rewrite match_entity_cons in Hm.
      destruct (Z.eqb_spec c 38) as [->|]; [|done].
      destruct (guard_entity t); [|done]. simpl in Hm.
      destruct (match_run_semi t) as [j'|] eqn:Hrun; [|done].
      injection Hm as ->.
      apply match_lazy_gt_cons_other; [done|].
      apply (IH j); [|done]. by apply match_run_semi_no_newline.
    + simpl. destruct (c =? 62); [done|]. destruct (c =? NL); [done|].
      rewrite !fmap_is_Some. by apply (IH 0%nat).
  - simpl in Hnl. apply Forall_cons in Hnl as [Hc Hnl]. simpl.
    intros Hsub. apply match_lazy_gt_cons_other; [done|]. by apply (IH k).
Qed.

Lemma no_tag_after_entity_pass (s : str) : forall k,
  occurs match_tag s = false ->
  occurs match_tag (re_sub_from match_entity k s) = false.
Proof.
  induction s as [|c t IH]; intros k Hocc; [by destruct k|].
  simpl in Hocc. apply orb_false_elim in Hocc as [Hhd Htl].
  destruct k as [|k]; [|by apply IH].
  change (re_sub_from match_entity 0 (c :: t))
    with (match match_entity (c :: t) with
          | Some (S k) => re_sub_from match_entity k t
          | _ => c :: re_sub_from match_entity 0 t
          end).
  assert (occurs match_tag (c :: re_sub_from match_entity 0 t) = false) as Hkeep.
  { simpl occurs. rewrite (IH 0%nat Htl), orb_false_r.
    apply bool_decide_eq_false. apply bool_decide_eq_false in Hhd.
    intros Hm. apply Hhd. revert Hm. simpl.
    destruct (c =? 60); [|done]. rewrite !fmap_is_Some.
    by apply (lazy_gt_after_entity_pass t 0%nat). }
  destruct (match_entity (c :: t)) as [[|j]|]; [done | by apply IH | done].
Qed.

Lemma from_option_head_lstrip (s : str) :
  from_option isspace false (head (lstrip s)) = false.
Proof.
  destruct (head (lstrip s)) as [c|] eqn:Hh; [|done].
  simpl. by apply (lstrip_head s).
Qed.

Lemma rstrip_head (s : str) :
  from_option isspace false (head s) = false ->
  from_option isspace false (head (rstrip s)) = false.
Proof.
  destruct (rstrip_prefix s) as [q Hq].
  destruct (rstrip s) as [|c r]; [done|].
  rewrite Hq. done.
Qed.

Lemma rstrip_last (s : str) :
  from_option isspace false (last (rstrip s)) = false.
Proof.
  unfold rstrip. rewrite last_reverse. apply from_option_head_lstrip.
Qed.

Lemma lstrip_id (s : str) :
  from_option isspace false (head s) = false -> lstrip s = s.
Proof. destruct s as [|c t]; [done|]. simpl. by intros ->. Qed.

Lemma rstrip_id (s : str) :
  from_option isspace false (last s) = false -> rstrip s = s.
Proof.
  intros Hl. unfold rstrip. rewrite lstrip_id.
  - apply reverse_involutive.
  - by rewrite head_reverse.
Qed.

Lemma strip_sublist (s : str) : strip s `sublist_of` s.
Proof.
  unfold strip. destruct (rstrip_prefix (lstrip s)) as [q Hq].
  destruct (lstrip_suffix s) as [p Hp].
  rewrite Hp at 2. rewrite Hq at 2.
  apply sublist_inserts_l, sublist_inserts_r. done.
Qed.

(** The cleaned text has no match of the pattern of line 27 left. *)
Lemma clean_no_tag_match (text : str) :
  occurs match_tag (remove_html_tags_and_entities text) = false.
Proof.
  unfold remove_html_tags_and_entities.
  set (t2 := re_sub_empty match_entity (re_sub_empty match_tag text)).
  assert (occurs match_tag t2 = false) as Htag
    by apply no_tag_after_entity_pass, no_tag_after_tag_pass.
  destruct (rstrip_prefix (lstrip t2)) as [q Hq]. fold (strip t2) in Hq.
  apply (occurs_tag_prefix _ q). rewrite <- Hq. by apply occurs_lstrip.
Qed.

(** The cleaned text is made of characters of the input, in their order. *)
Lemma clean_sublist (text : str) :
  remove_html_tags_and_entities text `sublist_of` text.
Proof.
  unfold remove_html_tags_and_entities.
  etrans; [apply strip_sublist|]. etrans; apply re_sub_from_sublist.
Qed.

Lemma Forall_sublist {A} (P : A -> Prop) (l k : list A) :
  l `sublist_of` k -> Forall P k -> Forall P l.
Proof.
  intros Hsub Hk. apply Forall_forall. intros x Hx.
  rewrite Forall_forall in Hk. apply Hk. by apply (elem_of_sublist l k).
Qed.

(** On one line the pattern of line 27 is the markup tag. *)
Lemma match_any_gt_one_line (s : str) :
  Forall (fun c => c <> NL) s -> match_any_gt s = match_lazy_gt s.
Proof.
  induction 1 as [|c s Hc _ IH]; [done|]. simpl.
  destruct (c =? 62); [done|].
  destruct (Z.eqb_spec c NL) as [?|_]; [done|]. by rewrite IH.
Qed.

Lemma occurs_markup_tag_one_line (s : str) :
  Forall (fun c => c <> NL) s ->
  occurs match_markup_tag s = occurs match_tag s.
Proof.
  induction 1 as [|c s Hc Hs IH]; [done|].
  cbn [occurs]. rewrite IH. f_equal.
  cbn [match_markup_tag match_tag]. by rewrite match_any_gt_one_line.
Qed.

(** C9: a tag with a line break in it is kept.  For the text
    ["<a" + line feed + "href='x'>text</a>"] the cleaning step returns
    ["<a" + line feed + "href='x'>text"], which still has the opening tag;
    the pattern of line 27 stops at a line feed.  The tags of a text
    without a line feed are all removed, and the example of the claim gives
    ["HelloWorld"]. *)
Theorem C9_clean_keeps_tag_with_line_break :
  remove_html_tags_and_entities (u "<a" ++ [NL] ++ u "href='x'>text</a>")
  = u "<a" ++ [NL] ++ u "href='x'>text"
  /\ occurs match_markup_tag
       (remove_html_tags_and_entities (u "<a" ++ [NL] ++ u "href='x'>text</a>"))
     = true
  /\ (forall text,
        Forall (fun c => c <> NL) text ->
        occurs match_markup_tag (remove_html_tags_and_entities text) = false)
  /\ remove_html_tags_and_entities (u "<b>Hello</b>&nbsp;World") = u "HelloWorld".
Proof.
  split_and!.
  - vm_compute. reflexivity.
  - vm_compute. reflexivity.
  - intros text Hline.
    rewrite occurs_markup_tag_one_line; [apply clean_no_tag_match|].
    apply (Forall_sublist _ _ text); [apply clean_sublist|done].
  - vm_compute. reflexivity.
Qed.

(** A [>] inside an attribute value ends the match of line 27 early: the
    rest of the tag stays in the text. *)
Example clean_quoted_gt :
  remove_html_tags_and_entities (u "<a title='x>y'>t</a>") = u "y'>t".
Proof. vm_compute. reflexivity. Qed.

(** ** The fetcher *)

Lemma io_bind_unfold {A B} (m : io A) (f : A -> io B) (c : nat) :
  (m ≫= f) c
  = let '(a, ev1, c1) := m c in
    let '(b, ev2, c2) := f a c1 in
    (b, ev1 ++ ev2, c2).
Proof. reflexivity. Qed.

Section FetcherProofs.
Variable net : nat -> str -> http_result.

Lemma failures_le url c n : (failures net url c n <= n)%nat.
Proof.
  revert c. induction n as [|n IH]; intros c; simpl; [done|].
  destruct (failed (net c url)); [|lia]. specialize (IH (S c)). lia.
Qed.

Lemma failures_failed url n : forall c k,
  (k < failures net url c n)%nat -> failed (net (c + k)%nat url) = true.
Proof.
  induction n as [|n IH]; intros c k; simpl; [lia|].
  destruct (failed (net c url)) eqn:Hc; [|lia].
  destruct k as [|k]; [by rewrite Nat.add_0_r|].
  intros Hk. replace (c + S k)%nat with (S c + k)%nat by lia.
  apply IH. lia.
Qed.

Lemma failures_succeeded url n : forall c,
  (failures net url c n < n)%nat ->
  failed (net (c + failures net url c n)%nat url) = false.
Proof.
  induction n as [|n IH]; intros c; simpl; [lia|].
  destruct (failed (net c url)) eqn:Hc; [|by rewrite Nat.add_0_r].
  intros Hk. replace (c + S (failures net url (S c) n))%nat
    with (S c + failures net url (S c) n)%nat by lia.
  apply IH. lia.
Qed.

Lemma backoff_S url from m :
  backoff url from (S m)
  = [EGet url; ESleep (2 ^ from)] ++ backoff url (from + 1) m.
Proof.
  unfold backoff. simpl. rewrite Z.add_0_r. do 2 f_equal.
  rewrite <- (fmap_S_seq 0 m).
  induction (seq 0 m) as [|k l IH]; [done|]. simpl.
  rewrite <- IH. do 4 f_equal. lia.
Qed.

(** The retry loop: the failed attempts with their waits, then either the
    successful request or nothing. *)
Lemma retry_loop_spec url (n : nat) : forall (from : Z) (c : nat),
  retry_loop net url (seqZ from (Z.of_nat n)) c
  = let m := failures net url c n in
    if decide (m < n)%nat
    then (Some match net (c + m)%nat url with
               | Response _ body => body
               | TransportError => None
               end,
          backoff url from m ++ [EGet url], S (c + m))
    else (None, backoff url from m, (c + m)%nat).
Proof.
  induction n as [|n IH]; intros from c.
  - rewrite seqZ_nil by lia. simpl. by rewrite Nat.add_0_r.
  - rewrite seqZ_cons by lia.
    replace (Z.pred (Z.of_nat (S n))) with (Z.of_nat n) by lia.
    cbn [retry_loop]. rewrite io_bind_unfold. unfold requests_get at 1.
    cbn [failures].
    destruct (net c url) as [status body|] eqn:Hnet; cbn [failed].
    + destruct (Z.eqb_spec status 200) as [->|Hne]; cbn [negb].
      * rewrite decide_True by lia. simpl. by rewrite Nat.add_0_r, Hnet.
      * rewrite io_bind_unfold. unfold emit at 1.
        rewrite (IH (Z.succ from) (S c)). cbn zeta.
        rewrite backoff_S. replace (from + 1) with (Z.succ from) by lia.
        destruct (decide (failures net url (S c) n < n)%nat).
        -- rewrite decide_True by lia.
           by replace (c + S (failures net url (S c) n))%nat
             with (S c + failures net url (S c) n)%nat by lia.
        -- rewrite decide_False by lia.
           by replace (c + S (failures net url (S c) n))%nat
             with (S c + failures net url (S c) n)%nat by lia.
    + rewrite io_bind_unfold. unfold emit at 1.
      rewrite (IH (Z.succ from) (S c)). cbn zeta.
      rewrite backoff_S. replace (from + 1) with (Z.succ from) by lia.
      destruct (decide (failures net url (S c) n < n)%nat).
      * rewrite decide_True by lia.
        by replace (c + S (failures net url (S c) n))%nat
          with (S c + failures net url (S c) n)%nat by lia.
      * rewrite decide_False by lia.
        by replace (c + S (failures net url (S c) n))%nat
          with (S c + failures net url (S c) n)%nat by lia.
Qed.

Lemma count_gets_app evs1 evs2 :
  count_gets (evs1 ++ evs2) = (count_gets evs1 + count_gets evs2)%nat.
Proof. unfold count_gets. by rewrite filter_app, length_app. Qed.

Lemma count_gets_backoff url from m : count_gets (backoff url from m) = m.
Proof.
  revert from. induction m as [|m IH]; intros from; [done|].
  rewrite backoff_S, count_gets_app, IH. done.
Qed.
End FetcherProofs.

Lemma seqZ_to_nat (from len : Z) : seqZ from len = seqZ from (Z.of_nat (Z.to_nat len)).
Proof. unfold seqZ. by rewrite Nat2Z.id. Qed.

Section FetcherClaims.
Variable net : nat -> str -> http_result.

Lemma fetch_one_unfold (retries : Z) (verse_entries : list entry) (r : str) :
  fetch_one net retries verse_entries r
  = (res ← retry_loop net (url_of r) (seqZ 0 retries);
     match res with
     | None => emit (EWarning (strip r) retries);; mret verse_entries
     | Some body =>
         let '(verse_entries, exn) := parse_payload body verse_entries in
         match exn with
         | Some e => emit (EError (strip r) e);; mret verse_entries
         | None => mret verse_entries
         end
     end).
Proof. unfold fetch_one, url_of. reflexivity. Qed.

(** One sub-reference: the failed attempts with their waits, then the
    warning of an exhausted loop, or the request that succeeded and the
    parsing of its body. *)
Lemma fetch_one_spec (retries : Z) (verse_entries : list entry) (r : str) (c : nat) :
  fetch_one net retries verse_entries r c
  = let n := Z.to_nat retries in
    let m := failures net (url_of r) c n in
    if decide (m < n)%nat
    then
      let body := match net (c + m)%nat (url_of r) with
                  | Response _ body => body
                  | TransportError => None
                  end in
      (fst (parse_payload body verse_entries),
       (backoff (url_of r) 0 m ++ [EGet (url_of r)])
       ++ match snd (parse_payload body verse_entries) with
          | Some e => [EError (strip r) e]
          | None => []
          end,
       S (c + m))
    else (verse_entries,
          backoff (url_of r) 0 m ++ [EWarning (strip r) retries],
          (c + m)%nat).
Proof.
  rewrite fetch_one_unfold, io_bind_unfold.
  rewrite (seqZ_to_nat 0 retries), retry_loop_spec. cbn zeta.
  destruct (decide (failures net (url_of r) c (Z.to_nat retries) < Z.to_nat retries)%nat).
  - destruct (parse_payload _ verse_entries) as [ve' [e|]]; simpl;
      by rewrite ?app_nil_r.
  - simpl. by rewrite ?app_nil_r.
Qed.

Lemma failures_all url n : forall c,
  (forall k, (k < n)%nat -> failed (net (c + k)%nat url) = true) ->
  failures net url c n = n.
Proof.
  induction n as [|n IH]; intros c Hall; [done|]. simpl.
  rewrite <- (Nat.add_0_r c) at 1. rewrite (Hall 0%nat) by lia.
  f_equal. apply IH. intros k Hk.
  replace (S c + k)%nat with (c + S k)%nat by lia. apply Hall. lia.
Qed.

Lemma fetch_all_cons retries verse_entries r rs c :
  fetch_all net retries verse_entries (r :: rs) c
  = let '(ve1, evs1, c1) := fetch_one net retries verse_entries r c in
    let '(ve2, evs2, c2) := fetch_all net retries ve1 rs c1 in
    (ve2, evs1 ++ evs2, c2).
Proof. reflexivity. Qed.

(** The fetch of a day's reference string never raises. *)
Lemma get_sefaria_verse_entries_Ok (s : str) (retries : Z) (c : nat) :
  exists verse_entries evs c',
    get_sefaria_verse_entries net (CStr s) retries c = (Ok verse_entries, evs, c').
Proof.
  unfold get_sefaria_verse_entries. rewrite io_bind_unfold.
  destruct (fetch_all net retries [] (split 44 s) c) as [[ve evs] c'].
  simpl. by eexists _, _, _.
Qed.

(** One sub-reference is requested at most [retries] times; the failed
    attempts come first, attempt [k] followed by a wait of [2 ^ k]; when
    every attempt fails the fetcher logs a warning, leaves the entries as
    they were and goes on with the sub-references that follow. *)
Lemma fetch_one_retry_backoff (retries : Z) (verse_entries : list entry)
    (r : str) (rs : list str) (c : nat) :
  let url := url_of r in
  let n := Z.to_nat retries in
  let m := failures net url c n in
  (count_gets (fetch_one net retries verse_entries r c).1.2 <= n)%nat
  /\ (m <= n)%nat
  /\ (forall k, (k < m)%nat -> failed (net (c + k)%nat url) = true)
  /\ (exists rest,
        (fetch_one net retries verse_entries r c).1.2 = backoff url 0 m ++ rest
        /\ (count_gets rest <= 1)%nat
        /\ Forall (fun e => forall secs, e <> ESleep secs) rest)
  /\ ((forall k, (k < n)%nat -> failed (net (c + k)%nat url) = true) ->
      fetch_one net retries verse_entries r c
      = (verse_entries, backoff url 0 n ++ [EWarning (strip r) retries],
         (c + n)%nat)
      /\ fetch_all net retries verse_entries (r :: rs) c
         = (let '(ve2, evs2, c2) :=
              fetch_all net retries verse_entries rs (c + n)%nat in
            (ve2, (backoff url 0 n ++ [EWarning (strip r) retries]) ++ evs2, c2))).
Proof.
  intros url n m.
  pose proof (failures_le net url c n) as Hle. fold m in Hle.
  pose proof (fetch_one_spec retries verse_entries r c) as Hspec.
  cbn zeta in Hspec. fold url n m in Hspec.
  split_and!.
  - rewrite Hspec. destruct (decide (m < n)%nat); cbn [fst snd].
    + rewrite !count_gets_app, count_gets_backoff.
      destruct (parse_payload _ _).2; simpl; unfold count_gets; simpl; lia.
    + rewrite count_gets_app, count_gets_backoff. unfold count_gets; simpl. lia.
  - done.
  - intros k Hk. by apply (failures_failed net url n).
  - rewrite Hspec. destruct (decide (m < n)%nat); cbn [fst snd].
    + rewrite <- app_assoc. eexists. split; [done|]. split.
      * rewrite count_gets_app.
        destruct (parse_payload _ _).2; unfold count_gets; simpl; lia.
      * apply Forall_app. split; [by repeat constructor|].
        destruct (parse_payload _ _).2; by repeat constructor.
    + eexists. split; [done|]. split; [unfold count_gets; simpl; lia|].
      by repeat constructor.
  - intros Hall.
    assert (m = n) as Hm by (by apply failures_all).
    assert (fetch_one net retries verse_entries r c
            = (verse_entries, backoff url 0 n ++ [EWarning (strip r) retries],
               (c + n)%nat)) as Hone.
    { rewrite Hspec. rewrite decide_False by lia. by rewrite Hm. }
    split; [done|]. rewrite fetch_all_cons, Hone. done.
Qed.
End FetcherClaims.

Example backoff_waits :
  backoff [] 0 5
  = [EGet []; ESleep 1; EGet []; ESleep 2; EGet []; ESleep 4;
     EGet []; ESleep 8; EGet []; ESleep 16].
Proof. reflexivity. Qed.

(** ** Parsing a payload *)

Lemma members_get_lookup d key (default : json) :
  members_get d key default = stdpp.option.default default (members_lookup d key).
Proof.
  induction d as [|[k v] d IH]; [done|]. simpl.
  by destruct (bool_decide (k = key)).
Qed.

(** The loop over a sequence [he] that ends without an exception has
    appended one entry per element. *)
Lemma enumerate_he_success (section : json) (he : list json) :
  forall (i : Z) (verse_entries verse_entries' : list entry),
  enumerate_he section i he verse_entries = (verse_entries', None) ->
  exists texts new,
    he = map JStr texts
    /\ verse_entries' = verse_entries ++ new
    /\ length new = length he
    /\ forall k t, texts !! k = Some t ->
         exists chap,
           subscript section 0 = Ok chap
           /\ new !! k
              = Some (chap, JInt (i + Z.of_nat k), remove_html_tags_and_entities t).
Proof.
  induction he as [|txt he IH]; intros i ve ve' Hrun; simpl in Hrun.
  - injection Hrun as <-. exists [], []. by rewrite app_nil_r.
  - destruct txt as [| | | |t| |]; simpl in Hrun; try done.
    destruct (subscript section 0) as [chap|] eqn:Hchap; simpl in Hrun; [|done].
    destruct (IH _ _ _ Hrun) as (texts & new & -> & -> & Hlen & Hnew).
    exists (t :: texts), ((chap, JInt i, remove_html_tags_and_entities t) :: new).
    split; [done|]. split; [by rewrite <- app_assoc|]. split; [simpl; lia|].
    intros [|k] t' Hk; simpl in Hk.
    + injection Hk as <-. exists chap. by rewrite Z.add_0_r.
    + destruct (Hnew k t' Hk) as (chap' & Hc' & Hk').
      exists chap'. split; [done|].
      etrans; [exact Hk'|]. replace (i + Z.of_nat (S k)) with (i + 1 + Z.of_nat k) by lia. done.
Qed.



Lemma gives_start_false (section : json) :
  gives_start section = false ->
  exists exn, (v ← subscript section 1; as_index v) = Raise exn.
Proof.
  destruct section as [| | | |s|l|]; simpl; try by eexists.
  - intros _. destruct s as [|a [|b s]]; by eexists.
  - destruct l as [|a [|b l]]; try by eexists.
    destruct b; try done; by eexists.
Qed.

Lemma gives_pair_false (section : json) (clean : str) :
  gives_pair section = false ->
  exists exn,
    (chap ← subscript section 0; num ← subscript section 1; Ok (chap, num, clean))
    = Raise exn.
Proof.
  destruct section as [| | | |s|l|]; simpl; try by eexists.
  - destruct s as [|a [|b s]]; try done; by eexists.
  - destruct l as [|a [|b l]]; try done; by eexists.
Qed.

(** A rejected payload leaves the entries as they were and ends in an
    exception. *)
Lemma parse_payload_rejected (body : option json) (verse_entries : list entry) :
  rejected body = true ->
  exists exn, parse_payload body verse_entries = (verse_entries, Some exn).
Proof.
  unfold rejected, parse_payload.
  destruct body as [data|]; [|by eexists].
  destruct data as [| | | | | |d]; try by eexists.
  unfold json_get. rewrite !bind_Ok.
  set (section := members_get d (u "sections") _).
  destruct (members_get d (u "he") _) as [| | | |t|he|]; try by eexists.
  - intros Hpair%negb_true_iff. simpl.
    destruct (gives_pair_false section (remove_html_tags_and_entities t) Hpair)
      as [exn ->].
    by eexists.
  - destruct (gives_start section) eqn:Hstart.
    + destruct he as [|txt he]; [done|]. simpl. intros Htxt%negb_true_iff.
      destruct (subscript section 1 ≫= as_index) as [start|exn]; [|by eexists].
      simpl. destruct txt; try done; by eexists.
    + intros _. destruct (gives_start_false section Hstart) as [exn ->].
      by eexists.
Qed.

Lemma sections_ne_he : u "sections" <> u "he".
Proof. intros H. apply (f_equal length) in H. by vm_compute in H. Qed.

Lemma members_get_cons_same k v d default :
  members_get ((k, v) :: d) k default = v.
Proof. simpl. by rewrite bool_decide_true. Qed.

Lemma members_get_cons_other k v d key default :
  k <> key -> members_get ((k, v) :: d) key default = members_get d key default.
Proof. intros Hne. simpl. by rewrite bool_decide_false. Qed.

Section ParseClaims.
Variable net : nat -> str -> http_result.

(** C6, as the code has it: a rejected payload is a failure of its
    sub-reference alone: the entries stay as they were, an error is logged
    and the remaining sub-references are fetched.  A payload without
    [sections] is parsed as with [sections = [1, 1]], one without [he] as
    with [he = []]. *)
Theorem C6_rejected_payload_is_skipped :
  (forall (retries : Z) (verse_entries : list entry) (r : str) (rs : list str)
          (c : nat) (body : option json) (evs : list event) (c1 : nat),
      retry_loop net (url_of r) (seqZ 0 retries) c = (Some body, evs, c1) ->
      rejected body = true ->
      exists exn,
        parse_payload body verse_entries = (verse_entries, Some exn)
        /\ fetch_one net retries verse_entries r c
           = (verse_entries, evs ++ [EError (strip r) exn], c1)
        /\ fetch_all net retries verse_entries (r :: rs) c
           = (let '(ve2, evs2, c2) := fetch_all net retries verse_entries rs c1 in
              (ve2, (evs ++ [EError (strip r) exn]) ++ evs2, c2)))
  /\ (forall d verse_entries,
        members_lookup d (u "sections") = None ->
        parse_payload (Some (JDict d)) verse_entries
        = parse_payload
            (Some (JDict ((u "sections", JList [JInt 1; JInt 1]) :: d)))
            verse_entries)
  /\ (forall d verse_entries,
        members_lookup d (u "he") = None ->
        parse_payload (Some (JDict d)) verse_entries
        = parse_payload (Some (JDict ((u "he", JList []) :: d))) verse_entries).
Proof.
  split_and!.
  - intros retries ve r rs c body evs c1 Hloop Hrej.
    destruct (parse_payload_rejected body ve Hrej) as [exn Hparse].
    exists exn. split; [done|].
    assert (fetch_one net retries ve r c = (ve, evs ++ [EError (strip r) exn], c1))
      as Hone.
    { rewrite fetch_one_unfold, io_bind_unfold, Hloop, Hparse.
      rewrite io_bind_unfold. simpl. by rewrite ?app_nil_r. }
    split; [done|]. by rewrite fetch_all_cons, Hone.
  - intros d ve Hnone. unfold parse_payload, json_get.
    rewrite members_get_cons_same, members_get_cons_other
      by apply sections_ne_he.
    by rewrite (members_get_lookup d (u "sections")), Hnone.
  - intros d ve Hnone. unfold parse_payload, json_get.
    rewrite members_get_cons_same, members_get_cons_other
      by (intros H; by apply sections_ne_he).
    by rewrite (members_get_lookup d (u "he")), Hnone.
Qed.
End ParseClaims.

Lemma C6_rejected_payload_is_skipped_witness :
  retry_loop (const_net (Some (JList []))) (url_of (u "Genesis 1:1")) (seqZ 0 5) 0%nat
  = (Some (Some (JList [])), [EGet (url_of (u "Genesis 1:1"))], 1%nat)
  /\ rejected (Some (JList [])) = true
  /\ exists exn,
       parse_payload (Some (JList [])) [] = ([], Some exn)
       /\ fetch_one (const_net (Some (JList []))) 5 [] (u "Genesis 1:1") 0%nat
          = ([], [EGet (url_of (u "Genesis 1:1"))]
                 ++ [EError (strip (u "Genesis 1:1")) exn], 1%nat)
       /\ fetch_all (const_net (Some (JList []))) 5 [] [u "Genesis 1:1"] 0%nat
          = (let '(ve2, evs2, c2) :=
               fetch_all (const_net (Some (JList []))) 5 [] [] 1%nat in
             (ve2, ([EGet (url_of (u "Genesis 1:1"))]
                    ++ [EError (strip (u "Genesis 1:1")) exn]) ++ evs2, c2)).
Proof.
  assert (retry_loop (const_net (Some (JList []))) (url_of (u "Genesis 1:1"))
            (seqZ 0 5) 0%nat
          = (Some (Some (JList [])), [EGet (url_of (u "Genesis 1:1"))], 1%nat))
    as Hloop by reflexivity.
  split; [exact Hloop|]. split; [reflexivity|].
  exact (proj1 (C6_rejected_payload_is_skipped (const_net (Some (JList []))))
           5 [] (u "Genesis 1:1") [] 0%nat (Some (JList [])) _ _ Hloop eq_refl).
Defined.

(** C6 as stated fails: a payload without [sections] is not in the
    documented shape, yet it is parsed without a failure and contributes an
    entry. *)
Lemma C6_counterexample :
  documented_shape (Some bare_payload) = false
  /\ parse_payload (Some bare_payload) [] = ([(JInt 1, JInt 1, u "x")], None)
  /\ ~ (forall body verse_entries,
          documented_shape body = false ->
          exists exn, parse_payload body verse_entries = (verse_entries, Some exn)).
Proof.
  assert (parse_payload (Some bare_payload) [] = ([(JInt 1, JInt 1, u "x")], None))
    as Hparse by (vm_compute; reflexivity).
  split; [by vm_compute|]. split; [done|].
  intros Hclaim.
  destruct (Hclaim (Some bare_payload) [] ltac:(by vm_compute)) as [exn Hexn].
  rewrite Hparse in Hexn. discriminate.
Qed.

(** A sequence [he] with an element that is not a string: the entries
    appended before it stay, and the failure is reported. *)
Example parse_payload_partial_sequence :
  parse_payload
    (Some (JDict [(u "sections", JList [JInt 1; JInt 1]);
                  (u "he", JList [JStr (u "a"); JInt 5; JStr (u "c")])])) []
  = ([(JInt 1, JInt 1, u "a")], Some TypeError).
Proof. vm_compute. reflexivity. Qed.

(** ** The document *)

(** C8 on the code: for 0 units and 5 days the allocation gives five empty
    portions and the schedule five rows with an empty [Bible] field; read
    back, the field is [nan], and the document run ends in
    [AttributeError] at the first row, before anything is written. *)
Theorem C8_empty_days_abort_the_document
    (net : nat -> str -> http_result) (date_of : Z -> str) (c : nat) :
  exists portions,
    allocate (@nil str) 5 = Ok portions
    /\ map snd portions = replicate 5 []
    /\ map (fun row : schedule_row => row.1.2) (schedule_of date_of portions)
       = replicate 5 []
    /\ map snd (read_csv (schedule_of date_of portions)) = replicate 5 CNaN
    /\ generate_latex_from_schedule net empty_disk
         (read_csv (schedule_of date_of portions)) c
       = (Raise AttributeError, [], c).
Proof.
  eexists. split; [by vm_compute|]. done.
Qed.

(** A day without units stops the run wherever it comes: the rows before
    it are checkpointed, the final document is never written. *)
Lemma process_rows_nan (net : nat -> str -> http_result) (last i : Z)
    (date : str) (rest : list (str * cell)) (tex : str) (c : nat) :
  last < i ->
  process_rows net last i ((date, CNaN) :: rest) tex c
  = (Raise AttributeError, [], c).
Proof.
  intros Hlt. cbn [process_rows].
  destruct (Z.leb_spec i last) as [?|_]; [lia|]. done.
Qed.

Example one_unit_two_days :
  exists portions rows,
    allocate [u "Genesis 1:1"] 2 = Ok portions
    /\ rows = read_csv (schedule_of (fun _ => u "2025-01-01") portions)
    /\ map snd rows = [CStr (u "Genesis 1:1"); CNaN]
    /\ (generate_latex_from_schedule (const_net (Some sample_payload))
          empty_disk rows 0%nat).1.1 = Raise AttributeError
    /\ tex_file (completed (const_net (Some sample_payload)) empty_disk rows 0%nat)
       = None
    /\ progress (completed (const_net (Some sample_payload)) empty_disk rows 0%nat)
       = Some 0.
Proof. eexists _, _. split; [by vm_compute|]. split; [done|]. by vm_compute. Qed.

(** C2 on the code: two days, a network that always answers; the run is
    interrupted after the checkpoint of the second day is written and before
    its progress marker is.  The disk then holds both days with the marker
    of the first; the restarted run formats the second day again, and the
    final document has it twice. *)
Theorem C2_resume_between_the_writes_repeats_a_day :
  exists day0 day1,
    day1 <> []
    /\ tex_file (completed (const_net (Some sample_payload)) empty_disk two_days 0%nat)
       = Some (preamble ++ day0 ++ day1 ++ closing)
    /\ interrupted (const_net (Some sample_payload)) 5 empty_disk two_days 0%nat
       = {| checkpoint := Some (preamble ++ day0 ++ day1);
            progress := Some 0;
            tex_file := None |}
    /\ tex_file
         (completed (const_net (Some sample_payload))
            (interrupted (const_net (Some sample_payload)) 5 empty_disk two_days 0%nat)
            two_days 2%nat)
       = Some (preamble ++ day0 ++ day1 ++ day1 ++ closing)
    /\ tex_file
         (completed (const_net (Some sample_payload))
            (interrupted (const_net (Some sample_payload)) 5 empty_disk two_days 0%nat)
            two_days 2%nat)
       <> tex_file
            (completed (const_net (Some sample_payload)) empty_disk two_days 0%nat).
Proof.
  exists (day_block (const_net (Some sample_payload))
            (u "2025-01-01", CStr (u "Genesis 1:7")) 0%nat),
         (day_block (const_net (Some sample_payload))
            (u "2025-01-02", CStr (u "Genesis 1:9")) 0%nat).
  split_and!.
  - intros H. apply (f_equal length) in H. by vm_compute in H.
  - vm_compute. reflexivity.
  - vm_compute. reflexivity.
  - vm_compute. reflexivity.
  - intros H. apply (f_equal (fmap (M:=option) length)) in H. by vm_compute in H.
Qed.

(** The same interruption one step later, after the progress marker is
    written, is harmless: the restarted run produces the document of the
    uninterrupted run. *)
Example resume_after_the_marker_is_identical :
  progress (interrupted (const_net (Some sample_payload)) 6 empty_disk two_days 0%nat)
  = Some 1
  /\ checkpoint (interrupted (const_net (Some sample_payload)) 6 empty_disk two_days 0%nat)
     = checkpoint (interrupted (const_net (Some sample_payload)) 5 empty_disk two_days 0%nat)
  /\ tex_file
       (completed (const_net (Some sample_payload))
          (interrupted (const_net (Some sample_payload)) 6 empty_disk two_days 0%nat)
          two_days 2%nat)
     = tex_file
         (completed (const_net (Some sample_payload)) empty_disk two_days 0%nat).
Proof. split_and!; vm_compute; reflexivity. Qed.

(** C3 on the code: the same run, interrupted in the cleanup, after the
    checkpoint is removed (line 229) and before the progress marker is (line
    230).  The marker claims both days while no checkpoint is stored; the
    restarted run skips both days and overwrites the final document with an
    empty one. *)
Theorem C3_cleanup_leaves_marker_without_checkpoint :
  exists day0 day1,
    day0 <> [] /\ day1 <> []
    /\ interrupted (const_net (Some sample_payload)) 8 empty_disk two_days 0%nat
       = {| checkpoint := None;
            progress := Some 1;
            tex_file := Some (preamble ++ day0 ++ day1 ++ closing) |}
    /\ completed (const_net (Some sample_payload))
         (interrupted (const_net (Some sample_payload)) 8 empty_disk two_days 0%nat)
         two_days 2%nat
       = {| checkpoint := None;
            progress := None;
            tex_file := Some (preamble ++ closing) |}.
Proof.
  exists (day_block (const_net (Some sample_payload))
            (u "2025-01-01", CStr (u "Genesis 1:7")) 0%nat),
         (day_block (const_net (Some sample_payload))
            (u "2025-01-02", CStr (u "Genesis 1:9")) 0%nat).
  split_and!.
  - intros H. apply (f_equal length) in H. by vm_compute in H.
  - intros H. apply (f_equal length) in H. by vm_compute in H.
  - vm_compute. reflexivity.
  - vm_compute. reflexivity.
Qed.

(** ** The order of the writes and the resumption, in general *)

Lemma replay_app d evs1 evs2 : replay (replay d evs1) evs2 = replay d (evs1 ++ evs2).
Proof. unfold replay. by rewrite foldl_app. Qed.

Lemma replay_filter evs : forall d,
  replay d (filter is_disk_event evs) = replay d evs.
Proof.
  induction evs as [|e evs IH]; intros d; [done|].
  rewrite filter_cons. destruct (decide (is_disk_event e)) as [He|He].
  - simpl. apply IH.
  - rewrite IH. simpl. f_equal. destruct e; try done; by destruct He.
Qed.

Lemma filter_take_prefix {A} (P : A -> bool) (l : list A) : forall k,
  exists k', filter P (take k l) = take k' (filter P l).
Proof.
  induction l as [|x l IH]; intros k.
  - exists 0%nat. by destruct k.
  - destruct k as [|k]; [by exists 0%nat|].
    destruct (IH k) as [k' Hk']. simpl take. rewrite !filter_cons.
    destruct (decide (P x)).
    + exists (S k'). simpl. by rewrite Hk'.
    + by exists k'.
Qed.

Section Run.
Variable net : nat -> str -> http_result.

Lemma quiet_filter evs : quiet evs -> filter is_disk_event evs = [].
Proof.
  induction 1 as [|e evs He _ IH]; [done|].
  rewrite filter_cons, decide_False, IH; [done|]. rewrite He. intros [].
Qed.

Lemma quiet_backoff url from m : quiet (backoff url from m).
Proof.
  revert from. induction m as [|m IH]; intros from; [constructor|].
  rewrite backoff_S. apply Forall_app. split; [by repeat constructor|apply IH].
Qed.

Lemma quiet_fetch_one retries ve r c : quiet (fetch_one net retries ve r c).1.2.
Proof.
  rewrite fetch_one_spec. cbn zeta.
  destruct (decide _); cbn [fst snd].
  - repeat (apply Forall_app; split); try apply quiet_backoff.
    + by repeat constructor.
    + destruct (parse_payload _ _).2; by repeat constructor.
  - apply Forall_app. split; [apply quiet_backoff|by repeat constructor].
Qed.

Lemma quiet_fetch_all retries rs : forall ve c,
  quiet (fetch_all net retries ve rs c).1.2.
Proof.
  induction rs as [|r rs IH]; intros ve c; [constructor|].
  rewrite fetch_all_cons.
  pose proof (quiet_fetch_one retries ve r c) as H1.
  destruct (fetch_one net retries ve r c) as [[ve1 evs1] c1].
  pose proof (IH ve1 c1) as H2.
  destruct (fetch_all net retries ve1 rs c1) as [[ve2 evs2] c2].
  apply Forall_app. by split.
Qed.

Lemma format_day_unfold tex date ref c :
  format_day net tex (date, ref) c
  = let '(verses, evs, c1) := get_sefaria_verse_entries net ref 5 c in
    (verses ← verses; for_each verse_line (tex ++ heading date ref) verses,
     evs ++ [], c1).
Proof. unfold format_day. by rewrite io_bind_unfold. Qed.

Lemma get_sefaria_unfold s retries c :
  get_sefaria_verse_entries net (CStr s) retries c
  = let '(ves, evs, c1) := fetch_all net retries [] (split 44 s) c in
    (Ok ves, evs ++ [], c1).
Proof. unfold get_sefaria_verse_entries. by rewrite io_bind_unfold. Qed.

Lemma quiet_format_day tex row c : quiet (format_day net tex row c).1.2.
Proof.
  destruct row as [date ref]. rewrite format_day_unfold.
  destruct ref as [s|].
  - rewrite get_sefaria_unfold.
    pose proof (quiet_fetch_all 5 (split 44 s) [] c) as Hq.
    destruct (fetch_all net 5 [] (split 44 s) c) as [[ves evs] c1].
    cbn [fst snd]. by rewrite !app_nil_r.
  - constructor.
Qed.

(** A line of a unit extends the document. *)
Lemma verse_line_prefix tex e tex' :
  verse_line tex e = Ok tex' -> tex `prefix_of` tex'.
Proof.
  destruct e as [[chap num] text]. unfold verse_line.
  destruct (hebrew_number_of num) as [h|]; [|done].
  rewrite bind_Ok. intros [= <-]. by apply prefix_app_r.
Qed.

Lemma for_each_verse_line_prefix verses : forall tex tex',
  for_each verse_line tex verses = Ok tex' -> tex `prefix_of` tex'.
Proof.
  induction verses as [|e verses IH]; intros tex tex'.
  - by intros [= <-].
  - rewrite for_each_cons.
    destruct (verse_line tex e) as [tex1|] eqn:Hline; [|done].
    rewrite bind_Ok. intros Hrest%IH.
    etrans; [|exact Hrest]. by apply (verse_line_prefix tex e).
Qed.

(** Formatting a day only appends to the document, and appends at least
    its heading. *)
Lemma format_day_extends tex row c tex' :
  (format_day net tex row c).1.1 = Ok tex' ->
  tex ++ heading row.1 row.2 `prefix_of` tex'.
Proof.
  destruct row as [date ref]. rewrite format_day_unfold.
  destruct (get_sefaria_verse_entries net ref 5 c) as [[[verses|] evs] c1];
    cbn [fst snd]; [|done].
  rewrite bind_Ok. apply for_each_verse_line_prefix.
Qed.

Lemma process_rows_cons last i row rest tex c :
  process_rows net last i (row :: rest) tex c
  = if i <=? last then process_rows net last (i + 1) rest tex c
    else
      let '(r, evs, c1) := format_day net tex row c in
      match r with
      | Raise exn => (Raise exn, evs ++ [], c1)
      | Ok tex' =>
          if encodable tex' then
            let '(r2, evs2, c2) := process_rows net last (i + 1) rest tex' c1 in
            (r2, evs ++ [EWriteCheckpoint tex'] ++ [EWriteProgress i] ++ evs2, c2)
          else (Raise UnicodeEncodeError, evs ++ [ETruncateCheckpoint], c1)
      end.
Proof.
  cbn [process_rows]. destruct (i <=? last); [done|].
  unfold mbind, io_bind, emit.
  destruct (format_day net tex row c) as [[[tex'|exn] evs] c1]; [|done].
  destruct (encodable tex'); [|done].
  by destruct (process_rows net last (i + 1) rest tex' c1) as [[r2 evs2] c2].
Qed.

(** The disk sees the run as the checkpoint pairs of its documents, and
    after them the emptied checkpoint of a write that raised. *)
Lemma disk_events_process_rows rows : forall last i tex c,
  filter is_disk_event (process_rows net last i rows tex c).1.2
  = flat_map checkpoint_pair (documents net last i rows tex c)
    ++ (if write_fails net last i rows tex c then [ETruncateCheckpoint] else []).
Proof.
  induction rows as [|row rows IH]; intros last i tex c; [done|].
  rewrite process_rows_cons. cbn [documents write_fails].
  destruct (i <=? last); [apply IH|].
  pose proof (quiet_format_day tex row c) as Hq.
  destruct (format_day net tex row c) as [[[tex'|exn] evs] c1]; cbn [fst snd] in *.
  - destruct (encodable tex').
    + specialize (IH last (i + 1) tex' c1).
      destruct (process_rows net last (i + 1) rows tex' c1) as [[r2 evs2] c2].
      cbn [fst snd] in *. rewrite !filter_app, (quiet_filter evs Hq), IH. done.
    + cbn [fst snd]. by rewrite filter_app, (quiet_filter evs Hq).
  - by rewrite app_nil_r, (quiet_filter evs Hq).
Qed.

(** The documents of a run are those of consecutive rows, and each extends
    the one before it by the heading of its row and what follows. *)
Lemma documents_consecutive rows : forall last i tex c m doc,
  documents net last i rows tex c !! m = Some doc ->
  doc.1 = Z.max i (last + 1) + Z.of_nat m
  /\ (match m with
      | O => tex
      | S m' => (documents net last i rows tex c !!! m').2
      end) `prefix_of` doc.2
  /\ doc.2 <> match m with
             | O => tex
             | S m' => (documents net last i rows tex c !!! m').2
             end.
Proof.
  induction rows as [|row rows IH]; intros last i tex c m doc; [done|].
  cbn [documents]. destruct (Z.leb_spec i last) as [Hle|Hgt].
  - intros Hm. destruct (IH _ _ _ _ _ _ Hm) as (Hidx & Hpre & Hne).
    split; [lia|]. done.
  - pose proof (format_day_extends tex row c) as Hext.
    destruct (format_day net tex row c) as [[[tex'|exn] evs] c1];
      cbn [fst snd] in *; [|done].
    specialize (Hext tex' eq_refl).
    destruct (encodable tex'); [|done].
    destruct m as [|m].
    + intros [= <-]. cbn [fst snd]. split; [lia|]. split.
      * etrans; [|exact Hext]. by apply prefix_app_r.
      * intros ->. destruct Hext as [k Hk].
        apply (f_equal length) in Hk. rewrite !length_app in Hk.
        unfold heading in Hk. rewrite !length_app in Hk. simpl in Hk. lia.
    + intros Hm. change (documents net last (i + 1) rows tex' c1 !! m = Some doc) in Hm.
      destruct (IH _ _ _ _ _ _ Hm) as (Hidx & Hpre & Hne).
      split; [lia|].
      destruct m as [|m]; [done|].
      by rewrite lookup_total_cons_ne_0 by done.
Qed.

(** The disk after any prefix of the checkpoint pairs, followed or not by
    the emptied checkpoint of a write that raised: the marker is that of
    the last complete pair, and the stored document is the one of that
    pair, the one of the next pair, or empty after the write that raised. *)
Lemma replay_checkpoint_pairs (docs : list (Z * str)) (failed : bool) :
  forall d k,
  exists m,
    (m <= length docs)%nat
    /\ tex_file (replay d (take k (flat_map checkpoint_pair docs
                                     ++ if failed then [ETruncateCheckpoint] else [])))
       = tex_file d
    /\ progress (replay d (take k (flat_map checkpoint_pair docs
                                     ++ if failed then [ETruncateCheckpoint] else [])))
       = match m with
         | O => progress d
         | S m' => Some (docs !!! m').1
         end
    /\ (checkpoint (replay d (take k (flat_map checkpoint_pair docs
                                        ++ if failed then [ETruncateCheckpoint] else [])))
        = match m with
          | O => checkpoint d
          | S m' => Some (docs !!! m').2
          end
        \/ ((m < length docs)%nat
            /\ checkpoint (replay d (take k (flat_map checkpoint_pair docs
                                               ++ if failed then [ETruncateCheckpoint] else [])))
               = Some (docs !!! m).2)
        \/ (failed = true /\ m = length docs
            /\ checkpoint (replay d (take k (flat_map checkpoint_pair docs
                                               ++ if failed then [ETruncateCheckpoint] else [])))
               = Some [])).
Proof.
  induction docs as [|[j t] docs IH]; intros d k.
  - exists 0%nat. simpl flat_map. simpl app.
    destruct failed.
    + destruct k as [|k]; simpl; [split_and!; [lia|done|done|by left]|].
      rewrite take_nil. simpl.
      split_and!; [lia|done|done|by right; right].
    + rewrite take_nil. simpl. split_and!; [lia|done|done|by left].
  - destruct k as [|[|k]].
    + exists 0%nat. simpl. split_and!; [lia|done|done|by left].
    + exists 0%nat. simpl. split_and!; [lia|done|done|right; left; split; [lia|done]].
    + destruct (IH (apply_event (apply_event d (EWriteCheckpoint t)) (EWriteProgress j)) k)
        as (m & Hm & Htex & Hprog & Hck).
      exists (S m). simpl flat_map. simpl app. simpl take. simpl replay.
      change (foldl apply_event ?d ?l) with (replay d l).
      simpl in Htex, Hprog, Hck.
      split_and!; [simpl; lia| done | |].
      * rewrite Hprog. by destruct m.
      * destruct Hck as [Hck|[[Hlt Hck]|(Hf & Hlen & Hck)]].
        -- left. rewrite Hck. by destruct m.
        -- right; left. split; [simpl; lia|]. by rewrite Hck.
        -- right; right. split_and!; [done|simpl; lia|done].
Qed.

(** While the rows are processed, whenever the run is interrupted, the
    progress marker is that of the last row whose two writes are complete
    (or the one found at the start), and the stored checkpoint is the
    document through that row or through the next one, or it is empty after
    a write that raised: the marker is never ahead of the stored document
    and at most one row behind it. *)
Theorem write_order_while_processing (last i : Z) (rows : list (str * cell))
    (tex : str) (c : nat) (d : disk) (k : nat) :
  exists m,
    (m <= length (documents net last i rows tex c))%nat
    /\ tex_file (replay d (take k (process_rows net last i rows tex c).1.2))
       = tex_file d
    /\ progress (replay d (take k (process_rows net last i rows tex c).1.2))
       = match m with
         | O => progress d
         | S m' => Some (documents net last i rows tex c !!! m').1
         end
    /\ (checkpoint (replay d (take k (process_rows net last i rows tex c).1.2))
        = match m with
          | O => checkpoint d
          | S m' => Some (documents net last i rows tex c !!! m').2
          end
        \/ ((m < length (documents net last i rows tex c))%nat
            /\ checkpoint (replay d (take k (process_rows net last i rows tex c).1.2))
               = Some (documents net last i rows tex c !!! m).2)
        \/ (write_fails net last i rows tex c = true
            /\ m = length (documents net last i rows tex c)
            /\ checkpoint (replay d (take k (process_rows net last i rows tex c).1.2))
               = Some [])).
Proof.
  rewrite <- replay_filter.
  destruct (filter_take_prefix is_disk_event
              (process_rows net last i rows tex c).1.2 k) as [k' ->].
  rewrite disk_events_process_rows. apply replay_checkpoint_pairs.
Qed.
End Run.

Section Resume.
Variable net : nat -> str -> http_result.
Hypothesis net_stationary : stationary net.

Lemma failures_stationary url n : forall c c',
  failures net url c n = failures net url c' n.
Proof using net_stationary.
  induction n as [|n IH]; intros c c'; [done|]. simpl.
  rewrite (net_stationary c c'). by rewrite (IH (S c) (S c')).
Qed.

Lemma fetch_one_stationary retries ve r c c' :
  (fetch_one net retries ve r c).1 = (fetch_one net retries ve r c').1.
Proof using net_stationary.
  rewrite !fetch_one_spec. cbn zeta.
  rewrite (failures_stationary _ _ c c').
  rewrite (net_stationary (c + _)%nat (c' + failures net (url_of r) c' (Z.to_nat retries))%nat).
  by destruct (decide _).
Qed.

Lemma fetch_all_stationary retries rs : forall ve c c',
  (fetch_all net retries ve rs c).1 = (fetch_all net retries ve rs c').1.
Proof using net_stationary.
  induction rs as [|r rs IH]; intros ve c c'; [done|].
  rewrite !fetch_all_cons.
  pose proof (fetch_one_stationary retries ve r c c') as H1.
  destruct (fetch_one net retries ve r c) as [[ve1 evs1] c1].
  destruct (fetch_one net retries ve r c') as [[ve1' evs1'] c1'].
  cbn [fst] in H1. injection H1 as <- <-.
  pose proof (IH ve1 c1 c1') as H2.
  destruct (fetch_all net retries ve1 rs c1) as [[ve2 evs2] c2].
  destruct (fetch_all net retries ve1 rs c1') as [[ve2' evs2'] c2'].
  cbn [fst] in *. by injection H2 as <- <-.
Qed.

Lemma format_day_stationary tex row c c' :
  (format_day net tex row c).1 = (format_day net tex row c').1.
Proof using net_stationary.
  destruct row as [date [s|]]; [|done].
  rewrite !format_day_unfold, !get_sefaria_unfold.
  pose proof (fetch_all_stationary 5 (split 44 s) [] c c') as H.
  destruct (fetch_all net 5 [] (split 44 s) c) as [[ves evs] c1].
  destruct (fetch_all net 5 [] (split 44 s) c') as [[ves' evs'] c1'].
  cbn [fst] in *. by injection H as <- <-.
Qed.

(** On a stationary network a run does and yields the same whatever the
    number of requests sent before it. *)
Lemma process_rows_stationary rows : forall last i tex c c',
  (process_rows net last i rows tex c).1 = (process_rows net last i rows tex c').1.
Proof using net_stationary.
  induction rows as [|row rows IH]; intros last i tex c c'; [done|].
  rewrite !process_rows_cons. destruct (i <=? last); [apply IH|].
  pose proof (format_day_stationary tex row c c') as H.
  destruct (format_day net tex row c) as [[r evs] c1].
  destruct (format_day net tex row c') as [[r' evs'] c1'].
  cbn [fst] in H. injection H as <- <-.
  destruct r as [tex'|exn]; [|done].
  destruct (encodable tex'); [|done].
  pose proof (IH last (i + 1) tex' c1 c1') as H2.
  destruct (process_rows net last (i + 1) rows tex' c1) as [[r2 evs2] c2].
  destruct (process_rows net last (i + 1) rows tex' c1') as [[r2' evs2'] c2'].
  cbn [fst] in *. by injection H2 as <- <-.
Qed.
End Resume.

Section Rows.
Variable net : nat -> str -> http_result.

(** The rows up to the marker are passed over. *)
Lemma process_rows_skip rows : forall last i tex c,
  i + Z.of_nat (length rows) <= last + 1 ->
  process_rows net last i rows tex c = (Ok tex, [], c).
Proof.
  induction rows as [|row rows IH]; intros last i tex c Hle; [done|].
  rewrite process_rows_cons. simpl in Hle.
  destruct (Z.leb_spec i last); [|lia]. apply IH. lia.
Qed.

(** The marker matters only for the rows it covers. *)
Lemma process_rows_last rows : forall last last' i tex c,
  last < i -> last' < i ->
  process_rows net last i rows tex c = process_rows net last' i rows tex c.
Proof.
  induction rows as [|row rows IH]; intros last last' i tex c Hl Hl'; [done|].
  rewrite !process_rows_cons.
  destruct (Z.leb_spec i last); [lia|]. destruct (Z.leb_spec i last'); [lia|].
  destruct (format_day net tex row c) as [[[tex'|exn] evs] c1]; [|done].
  destruct (encodable tex'); [|done].
  by rewrite (IH last last' (i + 1)) by lia.
Qed.

Lemma process_rows_app rows1 rows2 : forall last i tex c,
  process_rows net last i (rows1 ++ rows2) tex c
  = let '(r, evs1, c1) := process_rows net last i rows1 tex c in
    match r with
    | Raise exn => (Raise exn, evs1, c1)
    | Ok tex1 =>
        let '(r2, evs2, c2) :=
          process_rows net last (i + Z.of_nat (length rows1)) rows2 tex1 c1 in
        (r2, evs1 ++ evs2, c2)
    end.
Proof.
  induction rows1 as [|row rows1 IH]; intros last i tex c.
  - simpl. rewrite Z.add_0_r.
    by destruct (process_rows net last i rows2 tex c) as [[r2 evs2] c2].
  - simpl app. rewrite !process_rows_cons. destruct (i <=? last).
    + rewrite IH.
      destruct (process_rows net last (i + 1) rows1 tex c) as [[[tex1|exn] evs1] c1];
        [|done].
      by replace (i + 1 + Z.of_nat (length rows1))
        with (i + Z.of_nat (length (row :: rows1))) by (simpl; lia).
    + destruct (format_day net tex row c) as [[[tex'|exn] evs] c0];
        [|by rewrite app_nil_r].
      destruct (encodable tex'); [|done].
      rewrite IH.
      destruct (process_rows net last (i + 1) rows1 tex' c0) as [[[tex1|exn] evs1] c1];
        [|done].
      replace (i + 1 + Z.of_nat (length rows1))
        with (i + Z.of_nat (length (row :: rows1))) by (simpl; lia).
      destruct (process_rows net last _ rows2 tex1 c1) as [[r2 evs2] c2].
      by rewrite <- !app_assoc.
Qed.

Lemma replay_cons d e evs : replay d (e :: evs) = replay (apply_event d e) evs.
Proof. reflexivity. Qed.

Lemma replay_quiet evs d : quiet evs -> replay d evs = d.
Proof. intros Hq. by rewrite <- replay_filter, (quiet_filter evs Hq). Qed.

(** After the rows are processed the disk holds their document and the
    marker of the last of them. *)
Lemma process_rows_final_disk rows : forall last i tex c d tex' evs c',
  last < i -> rows <> [] ->
  process_rows net last i rows tex c = (Ok tex', evs, c') ->
  replay d evs
  = {| checkpoint := Some tex';
       progress := Some (i + Z.of_nat (length rows) - 1);
       tex_file := tex_file d |}.
Proof.
  induction rows as [|row rows IH]; intros last i tex c d tex' evs c' Hl Hne;
    [done|].
  rewrite process_rows_cons. destruct (Z.leb_spec i last); [lia|].
  pose proof (quiet_format_day net tex row c) as Hq.
  destruct (format_day net tex row c) as [[[tex1|exn] evs1] c1]; [|done].
  cbn [fst snd] in Hq.
  destruct (encodable tex1); [|done].
  destruct (process_rows net last (i + 1) rows tex1 c1) as [[r2 evs2] c2] eqn:Hrest.
  intros [= -> <- <-].
  rewrite <- replay_app, (replay_quiet evs1 d Hq).
  cbn [app]. rewrite !replay_cons.
  destruct rows as [|row' rows].
  - simpl in Hrest. injection Hrest as <- <- <-. simpl. do 2 f_equal. lia.
  - rewrite (IH last (i + 1) tex1 c1 _ tex' evs2 c2); [|lia|done|done].
    simpl. do 2 f_equal. lia.
Qed.

Lemma tex_file_process_rows last i rows tex c d :
  tex_file (replay d (process_rows net last i rows tex c).1.2) = tex_file d.
Proof.
  destruct (write_order_while_processing net last i rows tex c d
              (length (process_rows net last i rows tex c).1.2))
    as (m & _ & Htex & _).
  by rewrite take_ge in Htex by lia.
Qed.

(** The final document of a run, by what [process_rows] yields: written
    when no row raises, and left empty when it cannot be encoded. *)
Lemma tex_file_completed d rows c :
  tex_file (completed net d rows c)
  = match (process_rows net (marker_of d) 0 rows (document_of d) c).1.1 with
    | Ok tex => if encodable (tex ++ closing) then Some (tex ++ closing)
                else Some []
    | Raise _ => tex_file d
    end.
Proof.
  unfold completed, run_events, generate_latex_from_schedule.
  unfold mbind, io_bind, emit, mret, io_ret, marker_of.
  fold (document_of d).
  destruct (progress d) as [l|].
  - pose proof (tex_file_process_rows l 0 rows (document_of d) c d) as Htex.
    destruct (process_rows net l 0 rows _ c) as [[[tex0|exn] evs] c1];
      cbn [fst snd] in *.
    + destruct (encodable (tex0 ++ closing)); cbn [fst snd app];
        rewrite replay_cons; cbn [apply_event]; by rewrite <- replay_app.
    + cbn [app]. rewrite replay_cons. cbn [apply_event].
      by rewrite app_nil_r.
  - pose proof (tex_file_process_rows (-1) 0 rows (document_of d) c d) as Htex.
    destruct (process_rows net (-1) 0 rows _ c) as [[[tex0|exn] evs] c1];
      cbn [fst snd] in *.
    + destruct (encodable (tex0 ++ closing)); cbn [fst snd app];
        by rewrite <- replay_app.
    + cbn [app]. by rewrite app_nil_r.
Qed.

(** Text without a carriage return is read back as it was written. *)
Lemma read_text_id (s : str) : Forall (fun ch => ch <> 13) s -> read_text s = s.
Proof.
  induction 1 as [|ch s Hch _ IH]; [done|]. cbn [read_text].
  destruct (Z.eqb_spec ch 13) as [?|_]; [done|]. by rewrite IH.
Qed.

Lemma encodable_app (s t : str) :
  encodable (s ++ t) = encodable s && encodable t.
Proof. unfold encodable. apply forallb_app. Qed.

(** A document that [process_rows] yields after a write is one that could
    be written. *)
Lemma process_rows_encodable rows : forall last i tex c tex',
  (process_rows net last i rows tex c).1.1 = Ok tex' ->
  encodable tex = true -> encodable tex' = true.
Proof.
  induction rows as [|row rows IH]; intros last i tex c tex'.
  - by intros [= <-].
  - rewrite process_rows_cons. destruct (i <=? last); [apply IH|].
    destruct (format_day net tex row c) as [[[tex1|exn] evs] c1]; [|done].
    destruct (encodable tex1) eqn:Henc; [|done].
    pose proof (IH last (i + 1) tex1 c1 tex') as Hrest.
    destruct (process_rows net last (i + 1) rows tex1 c1) as [[r2 evs2] c2].
    cbn [fst snd] in *. intros Hr _. by apply Hrest.
Qed.

(** X1: a run that is interrupted right after the progress marker of a row
    is written, on a network that answers the same way again, is resumed
    to the document of the uninterrupted run, provided the stored document
    has no carriage return, which reading it back would turn into a line
    feed: [done_] are the rows processed before the interruption, [tex]
    their document, [evs] the events up to the marker. *)
Theorem resume_after_marker_identical (done_ rest : list (str * cell))
    (tex : str) (evs : list event) (c c1 c' : nat) :
  stationary net ->
  done_ <> [] ->
  process_rows net (-1) 0 done_ preamble c = (Ok tex, evs, c1) ->
  Forall (fun ch => ch <> 13) tex ->
  interrupted net (length evs) empty_disk (done_ ++ rest) c
  = {| checkpoint := Some tex;
       progress := Some (Z.of_nat (length done_) - 1);
       tex_file := None |}
  /\ tex_file
       (completed net (interrupted net (length evs) empty_disk (done_ ++ rest) c)
          (done_ ++ rest) c')
     = tex_file (completed net empty_disk (done_ ++ rest) c).
Proof.
  intros Hstat Hne Hdone Hcr.
  assert (interrupted net (length evs) empty_disk (done_ ++ rest) c
          = {| checkpoint := Some tex;
               progress := Some (Z.of_nat (length done_) - 1);
               tex_file := None |}) as Hdisk.
  { unfold interrupted, run_events, generate_latex_from_schedule.
    unfold mbind, io_bind, emit, mret, io_ret. cbn [progress checkpoint empty_disk].
    rewrite process_rows_app, Hdone.
    destruct (process_rows net (-1) _ rest tex c1) as [[r2 evs2] c2].
    assert (forall tail : list event, take (length evs) ([] ++ (evs ++ evs2) ++ tail) = evs)
      as Htake.
    { intros tail. simpl. rewrite <- app_assoc. by rewrite take_app_length. }
    destruct r2 as [tex2|exn]; [destruct (encodable (tex2 ++ closing))|];
      cbn [fst snd]; rewrite Htake;
      by rewrite (process_rows_final_disk done_ (-1) 0 preamble c empty_disk tex evs c1). }
  split; [done|].
  rewrite Hdisk, !tex_file_completed.
  unfold marker_of, document_of. cbn [progress checkpoint tex_file empty_disk].
  rewrite (read_text_id tex Hcr).
  rewrite !process_rows_app, Hdone.
  rewrite (process_rows_skip done_) by lia.
  rewrite (process_rows_last rest (Z.of_nat (length done_) - 1) (-1)) by lia.
  pose proof (process_rows_stationary net Hstat rest (-1)
                (0 + Z.of_nat (length done_)) tex c' c1) as Hsame.
  destruct (process_rows net (-1) _ rest tex c') as [[r2 evs2] c2].
  destruct (process_rows net (-1) _ rest tex c1) as [[r2' evs2'] c2'].
  cbn [fst snd] in *. injection Hsame as -> _. done.
Qed.
End Rows.

Lemma stationary_const_net body : stationary (const_net body).
Proof. by intros n m url. Qed.

Lemma resume_after_marker_identical_witness :
  stationary (const_net (Some sample_payload))
  /\ tex_file
       (completed (const_net (Some sample_payload))
          (interrupted (const_net (Some sample_payload)) 3 empty_disk two_days 0%nat)
          two_days 7%nat)
     = tex_file (completed (const_net (Some sample_payload)) empty_disk two_days 0%nat).
Proof.
  split; [apply stationary_const_net|].
  refine (proj2 (resume_after_marker_identical (const_net (Some sample_payload))
                   [(u "2025-01-01", CStr (u "Genesis 1:7"))]
                   [(u "2025-01-02", CStr (u "Genesis 1:9"))]
                   _ (_ :: _ :: [_]) 0%nat _ 7%nat
                   (stationary_const_net _) _ _ _)); [done| |].
  - vm_compute. reflexivity.
  - repeat (apply Forall_cons_2; [discriminate|]). apply Forall_nil_2.
Defined.

Section Repeat.
Variable net : nat -> str -> http_result.

Lemma let_fst_fst {A B C B'} (p : A * B * C) (g : B -> B') :
  (let '(a, b, c) := p in (a, g b, c)).1.1 = p.1.1.
Proof. by destruct p as [[??]?]. Qed.

Lemma verse_line_shift pre tex e :
  verse_line (pre ++ tex) e = result_map (app pre) (verse_line tex e).
Proof.
  destruct e as [[chap num] text]. unfold verse_line.
  destruct (hebrew_number_of num) as [h|]; [|done].
  rewrite !bind_Ok. simpl. by rewrite <- !app_assoc.
Qed.

Lemma for_each_verse_line_shift pre verses : forall tex,
  for_each verse_line (pre ++ tex) verses
  = result_map (app pre) (for_each verse_line tex verses).
Proof.
  induction verses as [|e verses IH]; intros tex; [done|].
  rewrite !for_each_cons, verse_line_shift.
  destruct (verse_line tex e) as [tex1|]; [|done].
  simpl result_map. rewrite !bind_Ok. apply IH.
Qed.

(** What a day appends does not depend on the document it is appended
    to. *)
Lemma format_day_shift pre tex row c :
  format_day net (pre ++ tex) row c
  = let '(r, evs, c1) := format_day net tex row c in
    (result_map (app pre) r, evs, c1).
Proof.
  destruct row as [date ref]. rewrite !format_day_unfold.
  destruct (get_sefaria_verse_entries net ref 5 c) as [[[verses|exn] evs] c1];
    [|done].
  rewrite !bind_Ok, <- app_assoc. by rewrite for_each_verse_line_shift.
Qed.

(** Nor do the rows, as long as that document can be written. *)
Lemma process_rows_shift pre rows :
  encodable pre = true ->
  forall last i tex c,
    (process_rows net last i rows (pre ++ tex) c).1.1
    = result_map (app pre) (process_rows net last i rows tex c).1.1.
Proof.
  intros Hpre. induction rows as [|row rows IH]; intros last i tex c; [done|].
  rewrite !process_rows_cons. destruct (i <=? last); [apply IH|].
  rewrite format_day_shift.
  destruct (format_day net tex row c) as [[[tex1|exn] evs] c1]; [|done].
  simpl result_map. cbv beta iota. rewrite encodable_app, Hpre. cbn [andb].
  destruct (encodable tex1); [|done].
  specialize (IH last (i + 1) tex1 c1).
  destruct (process_rows net last (i + 1) rows (pre ++ tex1) c1) as [[r2 evs2] c2].
  destruct (process_rows net last (i + 1) rows tex1 c1) as [[r2' evs2'] c2'].
  cbn [fst snd] in *. done.
Qed.

(** X2: a run that is interrupted between the two writes of a row, after
    the checkpoint and before the marker, is resumed to a document that has
    the row twice, the stored document having no carriage return for the
    reading to change: [done_] are the rows before it, [tex] their
    document, [block] what the row appends and [suffix] what the rows
    after it append. *)
Theorem resume_between_writes_repeats_row (done_ rest : list (str * cell))
    (row : str * cell) (tex tex' final : str) (evs evs_day : list event)
    (c c1 c2 c' : nat) :
  stationary net ->
  process_rows net (-1) 0 done_ preamble c = (Ok tex, evs, c1) ->
  format_day net tex row c1 = (Ok tex', evs_day, c2) ->
  (process_rows net (-1) 0 (done_ ++ row :: rest) preamble c).1.1 = Ok final ->
  Forall (fun ch => ch <> 13) tex' ->
  exists block suffix,
    block <> []
    /\ tex' = tex ++ block
    /\ final = tex ++ block ++ suffix
    /\ checkpoint
         (interrupted net (length evs + length evs_day + 1) empty_disk
            (done_ ++ row :: rest) c)
       = Some (tex ++ block)
    /\ marker_of
         (interrupted net (length evs + length evs_day + 1) empty_disk
            (done_ ++ row :: rest) c)
       = Z.of_nat (length done_) - 1
    /\ tex_file
         (completed net
            (interrupted net (length evs + length evs_day + 1) empty_disk
               (done_ ++ row :: rest) c)
            (done_ ++ row :: rest) c')
       = Some (tex ++ block ++ block ++ suffix ++ closing)
    /\ tex_file (completed net empty_disk (done_ ++ row :: rest) c)
       = Some (tex ++ block ++ suffix ++ closing).
Proof.
  intros Hstat Hdone Hday Hfinal Hcr.
  (* what the row and the rows after it append *)
  pose proof (format_day_shift tex [] row c1) as Hshift.
  rewrite app_nil_r, Hday in Hshift.
  destruct (format_day net [] row c1) as [[[block|exn] evs0] c0] eqn:Hblock;
    [|done].
  simpl in Hshift. injection Hshift as -> <- <-.
  assert (block <> []) as Hne.
  { pose proof (format_day_extends net [] row c1 block) as Hext.
    rewrite Hblock in Hext. specialize (Hext eq_refl).
    intros ->. destruct Hext as [k Hk]. apply (f_equal length) in Hk.
    unfold heading in Hk. rewrite !length_app in Hk. simpl in Hk. lia. }
  rewrite process_rows_app, Hdone, process_rows_cons in Hfinal.
  simpl Z.leb in Hfinal.
  destruct (Z.leb_spec (0 + Z.of_nat (length done_)) (-1)) as [?|_]; [lia|].
  rewrite Hday in Hfinal.
  destruct (encodable (tex ++ block)) eqn:Henc; [|done].
  pose proof (process_rows_shift (tex ++ block) rest Henc (-1)
                (0 + Z.of_nat (length done_) + 1) [] c2) as Hrest.
  rewrite app_nil_r in Hrest.
  destruct (process_rows net (-1) _ rest (tex ++ block) c2)
    as [[r2 evs2] c3] eqn:Hrun.
  cbn [fst snd] in Hfinal, Hrest. subst r2.
  destruct (process_rows net (-1) _ rest [] c2) as [[[suffix|exn] evs3] c4] eqn:Hsuf;
    [|done].
  cbn [fst snd result_map] in Hrest. injection Hrest as ->.
  assert (encodable suffix = true) as Hsuffix.
  { apply (process_rows_encodable net rest (-1)
             (0 + Z.of_nat (length done_) + 1) [] c2); [by rewrite Hsuf|done]. }
  assert (encodable closing = true) as Hclosing by (vm_compute; reflexivity).
  pose proof Henc as Hparts. rewrite encodable_app in Hparts.
  apply andb_prop in Hparts as [Htex_enc Hblock_enc].
  exists block, suffix.
  (* the disk at the interruption *)
  assert (replay empty_disk (take (length evs + length evs_day + 1)
            (run_events net empty_disk (done_ ++ row :: rest) c))
          = apply_event (replay empty_disk evs) (EWriteCheckpoint (tex ++ block)))
    as Hdisk.
  { unfold run_events, generate_latex_from_schedule.
    unfold mbind, io_bind, emit, mret, io_ret. cbn [progress checkpoint empty_disk].
    rewrite process_rows_app, Hdone, process_rows_cons.
    destruct (Z.leb_spec (0 + Z.of_nat (length done_)) (-1)) as [?|_]; [lia|].
    rewrite Hday, Henc, Hrun.
    rewrite !encodable_app, Htex_enc, Hblock_enc, Hsuffix, Hclosing.
    cbn [andb fst snd app].
    pose proof (quiet_format_day net tex row c1) as Hq. rewrite Hday in Hq.
    cbn [fst snd] in Hq.
    set (pre := evs ++ evs_day ++ [EWriteCheckpoint (tex ++ block)]).
    replace (length evs + length evs_day + 1)%nat with (length pre)
      by (unfold pre; rewrite !length_app; simpl; lia).
    match goal with
    | |- context [take _ ?l] =>
        assert (exists tl, l = pre ++ tl) as [tl ->]
          by (eexists; unfold pre; rewrite <- !app_assoc; simpl; reflexivity)
    end.
    rewrite take_app_length. unfold pre.
    rewrite <- !replay_app. rewrite (replay_quiet evs_day _ Hq). done. }
  assert (checkpoint (interrupted net (length evs + length evs_day + 1) empty_disk
                        (done_ ++ row :: rest) c) = Some (tex ++ block)
          /\ marker_of (interrupted net (length evs + length evs_day + 1) empty_disk
                          (done_ ++ row :: rest) c) = Z.of_nat (length done_) - 1
          /\ tex_file (interrupted net (length evs + length evs_day + 1) empty_disk
                         (done_ ++ row :: rest) c) = None)
    as (Hck & Hmark & Htex).
  { unfold interrupted. rewrite Hdisk.
    destruct done_ as [|row0 done_].
    - simpl in Hdone. injection Hdone as <- <- <-. done.
    - rewrite (process_rows_final_disk net (row0 :: done_) (-1) 0 preamble c
                 empty_disk tex evs c1) by (done || lia).
      unfold marker_of. simpl. split_and!; [done| |done]. lia. }
  split_and!; [done | done | by rewrite <- app_assoc | done | done | |].
  - rewrite tex_file_completed, Hmark, Htex. unfold document_of. rewrite Hck.
    rewrite (read_text_id _ Hcr).
    rewrite process_rows_app, (process_rows_skip net done_) by lia.
    rewrite (process_rows_last net (row :: rest) _ (-1)) by lia.
    pose proof (process_rows_stationary net Hstat (row :: rest) (-1)
                  (0 + Z.of_nat (length done_)) (tex ++ block) c' c1) as Hsame.
    destruct (process_rows net (-1) _ (row :: rest) (tex ++ block) c')
      as [[r evs4] c5].
    cbn [fst snd] in *.
    assert (r = Ok (tex ++ block ++ block ++ suffix)) as ->.
    { apply (f_equal fst) in Hsame. cbn [fst] in Hsame. rewrite Hsame.
      rewrite process_rows_cons.
      destruct (Z.leb_spec (0 + Z.of_nat (length done_)) (-1)) as [?|_]; [lia|].
      pose proof (format_day_shift (tex ++ block) [] row c1) as Hs.
      rewrite app_nil_r, Hblock in Hs. rewrite Hs. simpl result_map.
      assert (encodable ((tex ++ block) ++ block) = true) as Henc2
        by (by rewrite encodable_app, Henc, Hblock_enc).
      pose proof (process_rows_shift ((tex ++ block) ++ block) rest Henc2 (-1)
                    (0 + Z.of_nat (length done_) + 1) [] c2) as Hr.
      rewrite app_nil_r, Hsuf in Hr. cbn [fst snd result_map] in Hr.
      cbv beta iota. rewrite Henc2, let_fst_fst, Hr. by rewrite <- !app_assoc. }
    rewrite !encodable_app, Htex_enc, Hblock_enc, Hsuffix, Hclosing.
    cbn [andb]. by rewrite <- !app_assoc.
  - rewrite tex_file_completed. unfold marker_of, document_of.
    cbn [progress checkpoint tex_file empty_disk].
    rewrite process_rows_app, Hdone, process_rows_cons.
    destruct (Z.leb_spec (0 + Z.of_nat (length done_)) (-1)) as [?|_]; [lia|].
    rewrite Hday, Henc, Hrun. cbn [fst snd].
    rewrite !encodable_app, Htex_enc, Hblock_enc, Hsuffix, Hclosing.
    cbn [andb]. by rewrite <- !app_assoc.
Qed.
End Repeat.

Section Cleanup.
Variable net : nat -> str -> http_result.

(** X3: a run that is interrupted in the cleanup, between the removal of the
    checkpoint and the removal of the progress marker, leaves the marker of
    the last row and no checkpoint; the run started again from that disk
    passes over every row and overwrites the final document with the
    preamble and the closing alone. *)
Theorem cleanup_interrupted_loses_document (rows : list (str * cell))
    (tex : str) (evs : list event) (c c1 c' : nat) :
  rows <> [] ->
  process_rows net (-1) 0 rows preamble c = (Ok tex, evs, c1) ->
  interrupted net (length evs + 2) empty_disk rows c
  = {| checkpoint := None;
       progress := Some (Z.of_nat (length rows) - 1);
       tex_file := Some (tex ++ closing) |}
  /\ completed net (interrupted net (length evs + 2) empty_disk rows c) rows c'
     = {| checkpoint := None;
          progress := None;
          tex_file := Some (preamble ++ closing) |}.
Proof.
  intros Hne Hrun.
  assert (encodable (tex ++ closing) = true) as Henc.
  { rewrite encodable_app.
    rewrite (process_rows_encodable net rows (-1) 0 preamble c tex);
      [by vm_compute | by rewrite Hrun | by vm_compute]. }
  assert (encodable (preamble ++ closing) = true) as Henc0
    by (vm_compute; reflexivity).
  assert (interrupted net (length evs + 2) empty_disk rows c
          = {| checkpoint := None;
               progress := Some (Z.of_nat (length rows) - 1);
               tex_file := Some (tex ++ closing) |}) as Hdisk.
  { unfold interrupted, run_events, generate_latex_from_schedule.
    unfold mbind, io_bind, emit, mret, io_ret. cbn [progress checkpoint empty_disk].
    rewrite Hrun, Henc. cbn [fst snd app].
    set (pre := evs ++ [EWriteTex (tex ++ closing); ERemoveCheckpoint]).
    replace (length evs + 2)%nat with (length pre)
      by (unfold pre; rewrite length_app; simpl; lia).
    match goal with
    | |- context [take _ ?l] =>
        assert (exists tl, l = pre ++ tl) as [tl ->]
          by (eexists; unfold pre; rewrite <- !app_assoc; simpl; reflexivity)
    end.
    rewrite take_app_length. unfold pre. rewrite <- replay_app.
    rewrite (process_rows_final_disk net rows (-1) 0 preamble c empty_disk tex evs c1)
      by (done || lia).
    simpl. do 2 f_equal. }
  split; [done|]. rewrite Hdisk.
  unfold completed, run_events, generate_latex_from_schedule.
  unfold mbind, io_bind, emit, mret, io_ret. cbn [progress checkpoint].
  rewrite (process_rows_skip net rows) by lia. by rewrite Henc0.
Qed.
End Cleanup.

(** * Further properties *)

(** ** Hebrew numerals read back *)

Lemma forallb_lookup {A} (f : A -> bool) (l : list A) (i : nat) (x : A) :
  forallb f l = true -> l !! i = Some x -> f x = true.
Proof.
  revert i. induction l as [|y l IH]; intros i Hall Hi; [done|].
  simpl in Hall. apply andb_prop in Hall as [Hy Hl].
  destruct i as [|i]; simpl in Hi; [by injection Hi as <-|].
  by apply (IH i).
Qed.

Lemma gematria_hebrew_number (num : Z) :
  0 <= num < 500 -> gematria (hebrew_number num) = num.
Proof.
  intros Hnum.
  assert (forallb (fun n => gematria (hebrew_number n) =? n) (seqZ 0 500) = true)
    as Hall by (vm_compute; reflexivity).
  apply Z.eqb_eq.
  apply (forallb_lookup _ _ (Z.to_nat num) num Hall).
  rewrite lookup_seqZ_lt by lia. f_equal. lia.
Qed.

(** X4: up to 499 a numeral stands for its number: the values of the
    letters of [hebrew_number num], by the table, add up to [num]; so two
    different numbers below 500 never get the same numeral. *)
Theorem hebrew_number_reads_back (num num' : Z) :
  0 <= num < 500 -> 0 <= num' < 500 ->
  gematria (hebrew_number num) = num
  /\ (hebrew_number num = hebrew_number num' -> num = num').
Proof.
  intros Hn Hn'. split; [by apply gematria_hebrew_number|].
  intros Heq. rewrite <- (gematria_hebrew_number num Hn).
  rewrite <- (gematria_hebrew_number num' Hn'). by rewrite Heq.
Qed.

Lemma hebrew_number_reads_back_witness :
  (0 <= 176 < 500) /\ (0 <= 15 < 500)
  /\ gematria (hebrew_number 176) = 176
  /\ (hebrew_number 176 = hebrew_number 15 -> 176 = 15).
Proof.
  split; [lia|]. split; [lia|].
  apply (hebrew_number_reads_back 176 15); lia.
Defined.

(** X5: from 500 on the hundreds are lost, so the numeral of [num + 100]
    is the numeral of [num]: the numerals repeat with period 100. *)
Theorem hebrew_number_repeats_from_500 (num : Z) :
  500 <= num -> hebrew_number (num + 100) = hebrew_number num.
Proof.
  intros Hnum.
  assert (forall n, 500 <= n ->
            hebrew_number n
            = letter_of (10 * ((n / 10) mod 10)) ++ letter_of (n mod 10)) as Hform.
  { intros n Hn. rewrite hebrew_number_nonneg by lia.
    destruct (Z.eqb_spec n 15) as [?|_]; [lia|].
    destruct (Z.eqb_spec n 16) as [?|_]; [lia|].
    unfold digit_letters. rewrite letter_of_large; [done|].
    pose proof (Z.div_le_mono 500 n 100 ltac:(lia) ltac:(lia)) as Hq.
    change (500 / 100) with 5 in Hq. lia. }
  rewrite !Hform by lia.
  replace ((num + 100) / 10) with (num / 10 + 1 * 10)
    by (rewrite <- Z.div_add by lia; f_equal; lia).
  replace ((num + 100) mod 10) with (num mod 10)
    by (rewrite <- (Z.mod_add num 10 10) by lia; f_equal; lia).
  by rewrite Z.mod_add by lia.
Qed.

Lemma hebrew_number_repeats_from_500_witness :
  500 <= 526 /\ hebrew_number (526 + 100) = hebrew_number 526.
Proof.
  split; [lia|]. apply (hebrew_number_repeats_from_500 526). lia.
Defined.

(** X6: the special forms are those of 15 and 16 alone: a number with
    hundreds that ends in 15 or 16 is written with the letters of ten and
    five, or ten and six, after the letter of its hundreds. *)
Theorem hebrew_number_special_forms_without_hundreds (q : Z) :
  1 <= q ->
  hebrew_number (100 * q + 15) = letter_of (100 * q) ++ u "יה"
  /\ hebrew_number (100 * q + 16) = letter_of (100 * q) ++ u "יו"
  /\ u "יה" <> hebrew_number 15
  /\ u "יו" <> hebrew_number 16.
Proof.
  intros Hq.
  assert (forall r, 0 <= r < 100 ->
            hebrew_number (100 * q + r)
            = letter_of (100 * q) ++ letter_of (10 * (r / 10)) ++ letter_of (r mod 10))
    as Hform.
  { intros r Hr. rewrite hebrew_number_nonneg by lia.
    destruct (Z.eqb_spec (100 * q + r) 15) as [?|_]; [lia|].
    destruct (Z.eqb_spec (100 * q + r) 16) as [?|_]; [lia|].
    unfold digit_letters.
    replace (100 * q + r) with (r + q * 100) by lia.
    rewrite Z.div_add by lia. rewrite (Z.div_small r 100) by lia.
    replace (r + q * 100) with (r + (q * 10) * 10) by lia.
    rewrite Z.div_add, Z.mod_add by lia.
    rewrite (Z.mod_small (r / 10) 10)
      by (split; [apply Z.div_pos; lia | apply Z.div_lt_upper_bound; lia]).
    rewrite (Z.mod_add r (q * 10) 10) by lia.
    by rewrite Z.add_0_l. }
  split_and!.
  - rewrite (Hform 15) by lia. f_equal.
  - rewrite (Hform 16) by lia. f_equal.
  - by vm_compute.
  - by vm_compute.
Qed.

Lemma hebrew_number_special_forms_without_hundreds_witness :
  1 <= 1 /\ hebrew_number (100 * 1 + 15) = letter_of (100 * 1) ++ u "יה".
Proof.
  split; [lia|].
  apply (hebrew_number_special_forms_without_hundreds 1). lia.
Defined.

(** ** Escaping for LaTeX *)

Lemma replace_char_app (c : char) (by_ : str) (l1 l2 : str) :
  replace_char c by_ (l1 ++ l2) = replace_char c by_ l1 ++ replace_char c by_ l2.
Proof. unfold replace_char. by rewrite map_app, concat_app. Qed.

Lemma replace_char_concat (c : char) (by_ : str) (ls : list str) :
  replace_char c by_ (concat ls) = concat (map (replace_char c by_) ls).
Proof.
  induction ls as [|l ls IH]; [done|].
  simpl. by rewrite replace_char_app, IH.
Qed.

(** The two replacements act character by character. *)
Lemma escape_latex_by_char (text : str) :
  escape_latex_special_chars text = concat (map escape_char text).
Proof.
  unfold escape_latex_special_chars.
  unfold replace_char at 2. rewrite replace_char_concat, map_map.
  f_equal. apply map_ext. intros c. unfold escape_char.
  destruct (Z.eqb_spec c 92) as [->|H92]; [by vm_compute|].
  unfold replace_char. simpl. rewrite app_nil_r.
  by destruct (c =? 95).
Qed.

Lemma escape_char_cases (c : char) :
  (c = 92 /\ escape_char c = 92 :: 116 :: u "extbackslash{}")
  \/ (c = 95 /\ escape_char c = [92; 95])
  \/ (c <> 92 /\ c <> 95 /\ escape_char c = [c]).
Proof.
  unfold escape_char.
  destruct (Z.eqb_spec c 92) as [->|H92]; [left; split; [done|by vm_compute]|].
  destruct (Z.eqb_spec c 95) as [->|H95]; [right; left; split; [done|by vm_compute]|].
  by right; right.
Qed.

Lemma escape_char_app_inj (a b : char) (s t : str) :
  escape_char a ++ s = escape_char b ++ t -> a = b /\ s = t.
Proof.
  destruct (escape_char_cases a) as [[-> ->]|[[-> ->]|(Ha1 & Ha2 & ->)]];
  destruct (escape_char_cases b) as [[-> ->]|[[-> ->]|(Hb1 & Hb2 & ->)]];
    intros Heq.
  - split; [done|]. by apply app_inv_head in Heq.
  - by vm_compute in Heq.
  - vm_compute in Heq. injection Heq as ? _. congruence.
  - by vm_compute in Heq.
  - split; [done|]. by apply app_inv_head in Heq.
  - simpl in Heq. injection Heq as ? _. congruence.
  - vm_compute in Heq. injection Heq as ? _. congruence.
  - simpl in Heq. injection Heq as ? _. congruence.
  - simpl in Heq. by injection Heq as -> ->.
Qed.

(** X7: escaping loses nothing: two texts with the same escaped form are
    the same text. *)
Theorem escape_latex_injective (text text' : str) :
  escape_latex_special_chars text = escape_latex_special_chars text' ->
  text = text'.
Proof.
  rewrite !escape_latex_by_char. revert text'.
  induction text as [|a s IH]; intros [|b t] Heq; [done| | |].
  - simpl in Heq. destruct (escape_char_cases b) as [[_ E]|[[_ E]|(_ & _ & E)]];
      rewrite E in Heq; by vm_compute in Heq.
  - simpl in Heq. destruct (escape_char_cases a) as [[_ E]|[[_ E]|(_ & _ & E)]];
      rewrite E in Heq; by vm_compute in Heq.
  - simpl in Heq. apply escape_char_app_inj in Heq as [-> Hrest].
    f_equal. by apply IH.
Qed.

Lemma escape_latex_injective_witness :
  escape_latex_special_chars (u "a_b") = escape_latex_special_chars (u "a_b")
  /\ u "a_b" = u "a_b".
Proof.
  split; [reflexivity|]. by apply escape_latex_injective.
Defined.

(** X8: in the escaped text every underscore follows a backslash, and a text
    with neither a backslash nor an underscore is left as it is; the other
    characters LaTeX treats as special are not touched. *)
Theorem escape_latex_underscores (text : str) :
  (forall pre post,
      escape_latex_special_chars text = pre ++ 95 :: post ->
      exists pre', pre = pre' ++ [92])
  /\ (Forall (fun c => c <> 92 /\ c <> 95) text ->
      escape_latex_special_chars text = text).
Proof.
  rewrite escape_latex_by_char. split.
  - induction text as [|c text IH]; intros pre post Heq.
    + by destruct pre.
    + simpl in Heq. apply app_eq_inv in Heq as [(k & Hc & Hk)|(k & Hpre & Hrest)].
      * destruct k as [|x k].
        -- simpl in Hk. destruct (IH [] post) as [pre' Hpre']; [by rewrite <- Hk|].
           by destruct pre'.
        -- simpl in Hk. injection Hk as <- _.
           destruct (escape_char_cases c) as [[_ E]|[[_ E]|(_ & H95 & E)]];
             rewrite E in Hc.
           ++ exfalso.
              assert (Forall (fun c => c <> 95) (92 :: 116 :: u "extbackslash{}")) as Hno
                by (vm_compute; repeat constructor; done).
              rewrite Hc in Hno. apply Forall_app in Hno as [_ Hno].
              by apply Forall_cons in Hno as [? _].
           ++ destruct pre as [|p [|p' pre]].
              ** by vm_compute in Hc.
              ** simpl in Hc. injection Hc as <- _. by exists [].
              ** simpl in Hc. injection Hc as _ _ Hc. by destruct pre.
           ++ destruct pre as [|p pre]; simpl in Hc.
              ** injection Hc as ->. done.
              ** injection Hc as _ Hc. by destruct pre.
      * destruct (IH k post Hrest) as [pre' ->].
        exists (escape_char c ++ pre'). by rewrite Hpre, app_assoc.
  - induction 1 as [|c text [H92 H95] _ IH]; [done|]. simpl. rewrite IH.
    unfold escape_char.
    destruct (Z.eqb_spec c 92); [done|]. by destruct (Z.eqb_spec c 95).
Qed.

Lemma escape_latex_underscores_witness :
  Forall (fun c => c <> 92 /\ c <> 95) (u "50% & {x} #1 $")
  /\ escape_latex_special_chars (u "50% & {x} #1 $") = u "50% & {x} #1 $".
Proof.
  assert (Forall (fun c => c <> 92 /\ c <> 95) (u "50% & {x} #1 $")) as H
    by (vm_compute; repeat constructor; done).
  split; [exact H|].
  exact (proj2 (escape_latex_underscores (u "50% & {x} #1 $")) H).
Defined.

(** ** Cleaning, again *)

Lemma re_sub_no_match (m : str -> option nat) (s : str) :
  occurs m s = false -> re_sub_empty m s = s.
Proof.
  unfold re_sub_empty. induction s as [|c t IH]; [done|].
  simpl occurs. intros [Hhd Htl]%orb_false_elim.
  apply bool_decide_eq_false in Hhd.
  change (re_sub_from m 0 (c :: t))
    with (match m (c :: t) with
          | Some (S k) => re_sub_from m k t
          | _ => c :: re_sub_from m 0 t
          end).
  destruct (m (c :: t)) as [[|k]|]; [by rewrite IH | | by rewrite IH].
  exfalso. by apply Hhd.
Qed.

(** What the cleaning step returns is clean. *)
Lemma remove_html_is_clean (text : str) :
  is_clean (remove_html_tags_and_entities text).
Proof.
  unfold remove_html_tags_and_entities, is_clean.
  set (t2 := re_sub_empty match_entity (re_sub_empty match_tag text)).
  assert (occurs match_tag t2 = false) as Htag
    by apply no_tag_after_entity_pass, no_tag_after_tag_pass.
  assert (occurs match_entity t2 = false) as Hent
    by apply no_entity_after_entity_pass.
  destruct (rstrip_prefix (lstrip t2)) as [q Hq]. fold (strip t2) in Hq.
  split_and!.
  - apply (occurs_tag_prefix _ q). rewrite <- Hq. by apply occurs_lstrip.
  - apply (occurs_entity_prefix _ q). rewrite <- Hq. by apply occurs_lstrip.
  - unfold strip at 1. rewrite (lstrip_id (strip t2)).
    + apply rstrip_id, rstrip_last.
    + apply rstrip_head, from_option_head_lstrip.
Qed.

(** X9: a text without a tag, without a character reference and without
    whitespace at its ends is returned as it is, and cleaning a cleaned text
    changes nothing. *)
Theorem remove_html_fixed_points (text : str) :
  (is_clean text -> remove_html_tags_and_entities text = text)
  /\ remove_html_tags_and_entities (remove_html_tags_and_entities text)
     = remove_html_tags_and_entities text.
Proof.
  assert (forall t, is_clean t -> remove_html_tags_and_entities t = t) as Hfix.
  { intros t (Htag & Hent & Hstrip). unfold remove_html_tags_and_entities.
    by rewrite (re_sub_no_match match_tag t Htag), (re_sub_no_match match_entity t Hent). }
  split; [apply Hfix|]. apply Hfix, remove_html_is_clean.
Qed.

Lemma remove_html_fixed_points_witness :
  is_clean (u "R&D > 5 & 3 < 4")
  /\ remove_html_tags_and_entities (u "R&D > 5 & 3 < 4") = u "R&D > 5 & 3 < 4".
Proof.
  assert (is_clean (u "R&D > 5 & 3 < 4")) as H by (by vm_compute).
  split; [exact H|].
  exact (proj1 (remove_html_fixed_points (u "R&D > 5 & 3 < 4")) H).
Defined.

(** ** The units of the curriculum *)

Lemma str_of_uint_digits (d : Decimal.uint) :
  Forall (fun c => 48 <= c <= 57) (str_of_uint d).
Proof. induction d; simpl; constructor; (lia || done). Qed.

Lemma str_of_uint_inj (d d' : Decimal.uint) :
  str_of_uint d = str_of_uint d' -> d = d'.
Proof.
  revert d'. induction d; intros d'; destruct d'; simpl; intros H;
    try done; injection H as H; f_equal; by apply IHd.
Qed.

Lemma str_of_uint_nonnil (d : Decimal.uint) : d <> Decimal.Nil -> str_of_uint d <> [].
Proof. by destruct d. Qed.

(** [str] of different integers are different texts. *)
Lemma str_of_int_inj (n n' : Z) : str_of_int n = str_of_int n' -> n = n'.
Proof.
  unfold str_of_int. intros H. apply DecimalZ.to_int_inj.
  destruct (Z.to_int n) as [d|d], (Z.to_int n') as [d'|d'].
  - f_equal. by apply str_of_uint_inj.
  - exfalso. pose proof (str_of_uint_digits d) as Hd. rewrite H in Hd.
    apply Forall_cons in Hd as [? _]. lia.
  - exfalso. pose proof (str_of_uint_digits d') as Hd. rewrite <- H in Hd.
    apply Forall_cons in Hd as [? _]. lia.
  - injection H as H. f_equal. by apply str_of_uint_inj.
Qed.

Lemma str_of_int_chars (n : Z) :
  Forall (fun c => 48 <= c <= 57 \/ c = 45) (str_of_int n).
Proof.
  unfold str_of_int. destruct (Z.to_int n) as [d|d].
  - eapply Forall_impl; [apply str_of_uint_digits|]. intros c ?. by left.
  - constructor; [by right|].
    eapply Forall_impl; [apply str_of_uint_digits|]. intros c ?. by left.
Qed.

Lemma str_of_int_last_digit (n : Z) :
  exists c, last (str_of_int n) = Some c /\ 48 <= c <= 57.
Proof.
  assert (forall d, d <> Decimal.Nil ->
            exists c, last (str_of_uint d) = Some c /\ 48 <= c <= 57) as Hu.
  { intros d Hd. pose proof (str_of_uint_digits d) as Hdig.
    pose proof (str_of_uint_nonnil d Hd) as Hne.
    destruct (last (str_of_uint d)) as [c|] eqn:Hlast.
    - exists c. split; [done|].
      apply last_Some in Hlast as [l' Hl']. rewrite Hl' in Hdig.
      apply Forall_app in Hdig as [_ Hc]. by apply Forall_cons in Hc as [? _].
    - by apply last_None in Hlast. }
  assert (Z.to_int n = Decimal.Pos (Decimal.D0 Decimal.Nil)
          \/ exists p, Z.to_int n = Decimal.Pos (Pos.to_uint p)
                       \/ Z.to_int n = Decimal.Neg (Pos.to_uint p)) as Hcases.
  { destruct n as [|p|p]; [by left|right; exists p; by left|right; exists p; by right]. }
  unfold str_of_int.
  destruct Hcases as [->|[p [-> | ->]]].
  - exists 48. split; [done|lia].
  - apply Hu, DecimalPos.Unsigned.to_uint_nonnil.
  - destruct (Hu (Pos.to_uint p) (DecimalPos.Unsigned.to_uint_nonnil p))
      as (c & Hc & Hdig).
    exists c. split; [|done].
    destruct (str_of_uint (Pos.to_uint p)) as [|x l] eqn:E; [done|].
    by rewrite last_cons, Hc.
Qed.

Lemma isspace_digit (c : char) : 48 <= c <= 57 -> isspace c = false.
Proof.
  intros Hc. unfold isspace.
  repeat match goal with
         | |- context [?a <=? ?b] => destruct (Z.leb_spec a b); try lia
         | |- context [?a =? ?b] => destruct (Z.eqb_spec a b); try lia
         end; done.
Qed.

Lemma length_verses_of_row (row : table_row) :
  length (verses_of_row row) = Z.to_nat (number_of_verses row).
Proof. unfold verses_of_row. by rewrite length_map, length_seqZ. Qed.

Lemma lookup_verses_of_row (row : table_row) (i : nat) :
  Z.of_nat i < number_of_verses row ->
  verses_of_row row !! i
  = Some (book row ++ u " " ++ str_of_int (chapter row) ++ u ":"
          ++ str_of_int (1 + Z.of_nat i)).
Proof.
  intros Hi. unfold verses_of_row.
  by rewrite list_lookup_fmap, lookup_seqZ_lt by done.
Qed.

(** X10: a row gives one unit per verse from 1 to its count, in ascending
    order and pairwise distinct, and none when the count is zero or
    negative; when the book name has no comma and does not start with
    whitespace, every unit has a colon, no comma, and no whitespace at
    either end. *)
Theorem verses_of_row_units (row : table_row) :
  length (verses_of_row row) = Z.to_nat (number_of_verses row)
  /\ (forall i, Z.of_nat i < number_of_verses row ->
        verses_of_row row !! i
        = Some (book row ++ u " " ++ str_of_int (chapter row) ++ u ":"
                ++ str_of_int (1 + Z.of_nat i)))
  /\ NoDup (verses_of_row row)
  /\ (Forall (fun c => c <> 44) (book row) ->
      from_option isspace true (head (book row)) = false ->
      Forall (fun unit => 58 ∈ unit
                          /\ Forall (fun c => c <> 44) unit
                          /\ strip unit = unit)
             (verses_of_row row)).
Proof.
  split_and!.
  - apply length_verses_of_row.
  - apply lookup_verses_of_row.
  - unfold verses_of_row. apply NoDup_fmap_2; [|apply NoDup_seqZ].
    intros v v' Heq. rewrite !app_assoc in Heq.
    apply app_inv_head in Heq. by apply str_of_int_inj.
  - intros Hcomma Hhead. unfold verses_of_row.
    apply Forall_fmap, Forall_forall. intros v _. simpl.
    destruct (book row) as [|b bk] eqn:Hbook; [done|]. simpl in Hhead.
    split_and!.
    + apply elem_of_app; right. apply elem_of_cons; right.
      apply elem_of_app; right. apply elem_of_cons. by left.
    + rewrite <- Hbook.
      assert (forall n, Forall (fun c => c <> 44) (str_of_int n)) as Hint.
      { intros n. eapply Forall_impl; [apply str_of_int_chars|].
        intros c [?|?]; lia. }
      apply Forall_app; split; [by rewrite Hbook|].
      apply Forall_cons; split; [done|].
      apply Forall_app; split; [done|].
      apply Forall_cons; split; done.
    + unfold strip. rewrite lstrip_id by (simpl; done).
      apply rstrip_id.
      destruct (str_of_int_last_digit v) as (c & Hlast & Hdig).
      rewrite last_app, last_cons, last_app, last_cons, Hlast. simpl.
      by apply isspace_digit.
Qed.

Lemma verses_of_row_units_witness :
  Forall (fun c => c <> 44) (u "Genesis")
  /\ from_option isspace true (head (u "Genesis")) = false
  /\ Forall (fun unit => 58 ∈ unit /\ Forall (fun c => c <> 44) unit
                         /\ strip unit = unit)
            (verses_of_row (TableRow (u "Bible") (u "Genesis") 1 31)).
Proof.
  assert (Forall (fun c => c <> 44) (u "Genesis")) as H1
    by (vm_compute; repeat constructor; done).
  assert (from_option isspace true (head (u "Genesis")) = false) as H2 by done.
  split; [exact H1|]. split; [exact H2|].
  apply (verses_of_row_units (TableRow (u "Bible") (u "Genesis") 1 31)); done.
Defined.

Example verses_of_row_example :
  verses_of_row (TableRow (u "Bible") (u "Genesis") 50 3)
  = [u "Genesis 50:1"; u "Genesis 50:2"; u "Genesis 50:3"].
Proof. vm_compute. reflexivity. Qed.

(** X11: the curriculum has as many units as the [Bible] rows have verses,
    and rows of another data type add nothing. *)
Theorem all_verses_count (df : list table_row) :
  Z.of_nat (length (all_verses_of df))
  = sumZ (map (fun row =>
                 if bool_decide (data_type row = u "Bible")
                 then Z.max 0 (number_of_verses row) else 0) df)
  /\ (forall df1 row df2,
        data_type row <> u "Bible" ->
        all_verses_of (df1 ++ row :: df2) = all_verses_of (df1 ++ df2))
  /\ (forall df1 df2,
        all_verses_of (df1 ++ df2) = all_verses_of df1 ++ all_verses_of df2).
Proof.
  assert (forall df1 df2,
            all_verses_of (df1 ++ df2) = all_verses_of df1 ++ all_verses_of df2)
    as Happ.
  { intros df1 df2. unfold all_verses_of, bible_df.
    by rewrite filter_app, map_app, concat_app. }
  split_and!; [| |done].
  - induction df as [|row df IH]; [done|].
    change (row :: df) with ([row] ++ df). rewrite Happ, length_app.
    rewrite Nat2Z.inj_add, IH. simpl map. simpl sumZ. f_equal.
    unfold all_verses_of, bible_df. rewrite filter_cons, filter_nil.
    destruct (decide (data_type row = u "Bible")) as [Hb|Hb].
    + rewrite bool_decide_true by done. simpl. rewrite app_nil_r.
      rewrite length_verses_of_row. lia.
    + by rewrite bool_decide_false by done.
  - intros df1 row df2 Hne.
    change (row :: df2) with ([row] ++ df2). rewrite !Happ. f_equal.
    unfold all_verses_of at 1, bible_df.
    by rewrite filter_cons, decide_False by done.
Qed.

(** ** From the schedule to the sub-references of a day *)

Lemma join_cons2 (sep x y : str) (rest : list str) :
  join sep (x :: y :: rest) = x ++ sep ++ join sep (y :: rest).
Proof. reflexivity. Qed.

Lemma split_no_sep (sep : char) (x : str) :
  Forall (fun c => c <> sep) x -> split sep x = [x].
Proof.
  induction x as [|c x IH]; intros Hx; [done|].
  apply Forall_cons in Hx as [Hc Hx]. simpl.
  destruct (Z.eqb_spec c sep) as [?|_]; [done|]. by rewrite IH.
Qed.

Lemma split_app_sep (sep : char) (x t : str) :
  Forall (fun c => c <> sep) x -> split sep (x ++ sep :: t) = x :: split sep t.
Proof.
  induction x as [|c x IH]; intros Hx.
  - simpl. by rewrite Z.eqb_refl.
  - apply Forall_cons in Hx as [Hc Hx]. simpl.
    destruct (Z.eqb_spec c sep) as [?|_]; [done|]. by rewrite IH.
Qed.

Lemma length_split (sep : Z) (s : list Z) :
  length (split sep s) = S (length (filter (fun c => c = sep) s)).
Proof.
  induction s as [|c s IH]; [done|].
  rewrite filter_cons. cbn [split].
  destruct (Z.eqb_spec c sep) as [Heq|Hne].
  - rewrite decide_True by done. cbn [length]. by rewrite IH.
  - rewrite decide_False by done.
    destruct (split sep s) as [|h r]; [done|]. exact IH.
Qed.

Lemma strip_leading_space (x : str) : strip (32 :: x) = strip x.
Proof. reflexivity. Qed.

Lemma split_join_from (verses : list str) : forall (p x : str),
  Forall (fun c => c <> 44) p ->
  Forall (fun unit : str => Forall (fun c => c <> 44) unit) (x :: verses) ->
  split 44 (p ++ join [44; 32] (x :: verses)) = (p ++ x) :: map (cons 32) verses.
Proof.
  induction verses as [|y verses IH]; intros p x Hp Hall.
  - apply Forall_cons in Hall as [Hx _].
    change (join [44; 32] [x]) with x.
    apply split_no_sep. by apply Forall_app.
  - apply Forall_cons in Hall as [Hx Hall].
    rewrite join_cons2.
    change (p ++ x ++ [44; 32] ++ join [44; 32] (y :: verses))
      with (p ++ x ++ 44 :: [32] ++ join [44; 32] (y :: verses)).
    rewrite app_assoc.
    rewrite split_app_sep by (by apply Forall_app).
    f_equal. apply (IH [32] y); [by repeat constructor | done].
Qed.

Lemma split_join (x : str) (verses : list str) :
  Forall (fun unit : str => Forall (fun c => c <> 44) unit) (x :: verses) ->
  split 44 (join [44; 32] (x :: verses)) = x :: map (cons 32) verses.
Proof. intros Hall. by apply (split_join_from verses [] x). Qed.

Lemma map_strip_after_space (verses : list str) :
  Forall (fun unit : str => strip unit = unit) verses ->
  map strip (map (cons 32) verses) = verses.
Proof.
  induction verses as [|y verses IH]; intros Hall; [done|].
  apply Forall_cons in Hall as [Hy Hall].
  simpl map. by rewrite strip_leading_space, Hy, IH.
Qed.

Lemma join_nonempty (sep x : str) (verses : list str) :
  x <> [] -> join sep (x :: verses) <> [].
Proof.
  intros Hx. destruct verses as [|y verses]; [done|].
  rewrite join_cons2. by destruct x.
Qed.

Lemma day_units_round_trip_aux (verses : list str) :
  verses <> [] ->
  Forall (fun unit : str => 58 ∈ unit
                            /\ Forall (fun c => c <> 44) unit
                            /\ strip unit = unit) verses ->
  read_csv_cell (join (u ", ") verses) = CStr (join (u ", ") verses)
  /\ map strip (split 44 (join (u ", ") verses)) = verses.
Proof.
  intros Hne Hall. destruct verses as [|x verses]; [done|].
  change (u ", ") with [44; 32].
  assert (x <> []) as Hx.
  { apply Forall_cons in Hall as [(Hcolon & _) _]. intros ->.
    by apply elem_of_nil in Hcolon. }
  assert (Forall (fun unit : str => Forall (fun c => c <> 44) unit) (x :: verses))
    as Hcomma.
  { eapply Forall_impl; [exact Hall|]. by intros unit (_ & ? & _). }
  rewrite split_join by done.
  split.
  - pose proof (join_nonempty [44; 32] x verses Hx) as Hj.
    by destruct (join [44; 32] (x :: verses)).
  - simpl map. apply Forall_cons in Hall as [(_ & _ & Hsx) Hall].
    rewrite Hsx. f_equal. apply map_strip_after_space.
    eapply Forall_impl; [exact Hall|]. by intros unit (_ & _ & ?).
Qed.


(** Units given in full are units: each has a colon, no comma, and no
    whitespace at either end. *)
Ltac unit_ok :=
  cbv beta; split_and!;
  [ apply list_elem_of_In; vm_compute; tauto
  | vm_compute; repeat (apply Forall_cons_2; [discriminate|]); apply Forall_nil_2
  | vm_compute; reflexivity ].
Ltac units_ok := repeat (apply Forall_cons_2; [unit_ok|]); apply Forall_nil_2.


Lemma Forall_chunks {A} (P : A -> Prop) (counts : list Z) :
  forall (l : list A) (i : nat) (portion : list A),
    Forall P l -> chunks counts l !! i = Some portion -> Forall P portion.
Proof.
  induction counts as [|c counts IH]; intros l i portion Hl Hi; [done|].
  destruct i as [|i]; simpl in Hi.
  - injection Hi as <-. by apply Forall_take.
  - eapply IH; [|exact Hi]. by apply Forall_drop.
Qed.

Lemma lookup_read_csv_schedule (date_of : Z -> str)
    (portions : list (Z * list str)) (i : nat) (j : Z) (portion : list str) :
  portions !! i = Some (j, portion) ->
  read_csv (schedule_of date_of portions) !! i
  = Some (date_of j, read_csv_cell (join (u ", ") portion)).
Proof.
  intros Hi. unfold read_csv, schedule_of.
  by rewrite !list_lookup_fmap, Hi.
Qed.



(** ** The document run as a whole *)

Section Documents.
Variable net : nat -> str -> http_result.

(** The outcome of a run, by what [process_rows] yields. *)
Lemma generate_result (d : disk) (rows : list (str * cell)) (c : nat) :
  (generate_latex_from_schedule net d rows c).1.1
  = match (process_rows net (marker_of d) 0 rows (document_of d) c).1.1 with
    | Ok tex => if encodable (tex ++ closing) then Ok tt
                else Raise UnicodeEncodeError
    | Raise exn => Raise exn
    end.
Proof.
  unfold generate_latex_from_schedule.
  unfold mbind, io_bind, emit, mret, io_ret, marker_of.
  fold (document_of d).
  destruct (progress d) as [l|].
  - destruct (process_rows net l 0 rows _ c) as [[[tex0|exn] evs] c1]; [|done].
    cbn [fst snd]. by destruct (encodable (tex0 ++ closing)).
  - destruct (process_rows net (-1) 0 rows _ c) as [[[tex0|exn] evs] c1]; [|done].
    cbn [fst snd]. by destruct (encodable (tex0 ++ closing)).
Qed.

Lemma replay_cleanup (d : disk) (tex : str) :
  replay d [EWriteTex tex; ERemoveCheckpoint; ERemoveProgress]
  = {| checkpoint := None; progress := None; tex_file := Some tex |}.
Proof. reflexivity. Qed.

(** The disk a run leaves when no row and no write raises. *)
Lemma completed_Ok (d : disk) (rows : list (str * cell)) (c : nat) (tex : str) :
  (process_rows net (marker_of d) 0 rows (document_of d) c).1.1 = Ok tex ->
  encodable (tex ++ closing) = true ->
  completed net d rows c
  = {| checkpoint := None; progress := None; tex_file := Some (tex ++ closing) |}.
Proof.
  unfold completed, run_events, generate_latex_from_schedule.
  unfold mbind, io_bind, emit, mret, io_ret, marker_of.
  fold (document_of d).
  destruct (progress d) as [l|].
  - destruct (process_rows net l 0 rows _ c) as [[[tex0|exn] evs] c1];
      cbn [fst snd]; [|done].
    intros [= ->] ->. cbn [fst snd app].
    change (EInfo l :: evs ++ ?tl) with ((EInfo l :: evs) ++ tl).
    by rewrite <- replay_app, replay_cleanup.
  - destruct (process_rows net (-1) 0 rows _ c) as [[[tex0|exn] evs] c1];
      cbn [fst snd]; [|done].
    intros [= ->] ->. cbn [fst snd app].
    by rewrite <- replay_app, replay_cleanup.
Qed.

Lemma format_day_missing (tex date : str) (c : nat) :
  format_day net tex (date, CNaN) c = (Raise AttributeError, [], c).
Proof. reflexivity. Qed.

(** A row without a reference that is not passed over ends the loop. *)
Lemma process_rows_missing (rows : list (str * cell)) :
  forall (last i : Z) (tex : str) (c : nat) (k : nat) (date : str),
    rows !! k = Some (date, CNaN) -> last < i + Z.of_nat k ->
    exists exn, (process_rows net last i rows tex c).1.1 = Raise exn.
Proof.
  induction rows as [|row rows IH]; intros last i tex c k date Hk Hlast; [done|].
  rewrite process_rows_cons.
  destruct (Z.leb_spec i last) as [Hskip|Hrun].
  - destruct k as [|k]; [lia|]. simpl in Hk.
    apply (IH last (i + 1) tex c k date Hk). lia.
  - destruct k as [|k]; simpl in Hk.
    + injection Hk as ->. rewrite format_day_missing. by exists AttributeError.
    + destruct (format_day net tex row c) as [[[tex1|exn] evs] c1].
      * destruct (encodable tex1); [|by eexists].
        destruct (IH last (i + 1) tex1 c1 k date Hk ltac:(lia)) as [exn Hexn].
        exists exn.
        destruct (process_rows net last (i + 1) rows tex1 c1) as [[r2 evs2] c2].
        exact Hexn.
      * by exists exn.
Qed.

Lemma missing_reference_stops (d : disk) (rows : list (str * cell))
    (i : nat) (date : str) (c : nat) :
  rows !! i = Some (date, CNaN) ->
  marker_of d < Z.of_nat i ->
  (exists exn, (generate_latex_from_schedule net d rows c).1.1 = Raise exn)
  /\ tex_file (completed net d rows c) = tex_file d.
Proof.
  intros Hi Hmark.
  destruct (process_rows_missing rows (marker_of d) 0 (document_of d) c i date
              Hi ltac:(lia)) as [exn Hexn].
  split.
  - exists exn. by rewrite generate_result, Hexn.
  - by rewrite tex_file_completed, Hexn.
Qed.

(** X14: a day without a reference stops the document.  When a row that the
    run has yet to process was read back as a missing value, the run ends
    in an exception and the final document is not written: the file is as
    it was before the run.  When that row is the first one to process, the
    exception is [AttributeError], no request is sent, and the run leaves
    every file as it found it. *)
Theorem missing_reference_aborts (d : disk) (rows : list (str * cell))
    (i : nat) (date : str) (c : nat) :
  rows !! i = Some (date, CNaN) ->
  marker_of d < Z.of_nat i ->
  (exists exn, (generate_latex_from_schedule net d rows c).1.1 = Raise exn)
  /\ tex_file (completed net d rows c) = tex_file d
  /\ (Z.of_nat i = marker_of d + 1 ->
      (generate_latex_from_schedule net d rows c).1.1 = Raise AttributeError
      /\ count_gets (run_events net d rows c) = 0%nat
      /\ (generate_latex_from_schedule net d rows c).2 = c
      /\ completed net d rows c = d).
Proof.
  intros Hi Hmark.
  destruct (missing_reference_stops d rows i date c Hi Hmark) as [Hexn Htex].
  split_and!; [done|done|].
  intros Hfirst.
  assert (process_rows net (marker_of d) 0 rows (document_of d) c
          = (Raise AttributeError, [], c)) as Hrun.
  { rewrite <- (take_drop_middle rows i (date, CNaN) Hi).
    rewrite process_rows_app.
    rewrite process_rows_skip
      by (rewrite length_take_le by (apply lookup_lt_Some in Hi; lia); lia).
    rewrite process_rows_cons.
    destruct (Z.leb_spec (0 + Z.of_nat (length (take i rows))) (marker_of d))
      as [Hle|_].
    { rewrite length_take_le in Hle by (apply lookup_lt_Some in Hi; lia). lia. }
    by rewrite format_day_missing. }
  unfold completed, run_events, generate_latex_from_schedule.
  unfold mbind, io_bind, emit, mret, io_ret.
  unfold marker_of, document_of in Hrun.
  destruct d as [ck [l|] tx]; cbn [progress checkpoint] in *;
    rewrite Hrun; done.
Qed.
End Documents.

Lemma missing_reference_aborts_witness :
  completed (const_net (Some sample_payload)) empty_disk
    [(u "2025-01-01", CNaN); (u "2025-01-02", CStr (u "Genesis 1:9"))] 0%nat
  = empty_disk.
Proof.
  refine (proj2 (proj2 (proj2 (proj2 (proj2
            (missing_reference_aborts (const_net (Some sample_payload)) empty_disk
               [(u "2025-01-01", CNaN); (u "2025-01-02", CStr (u "Genesis 1:9"))]
               0%nat (u "2025-01-01") 0%nat _ _)) _)))).
  - reflexivity.
  - reflexivity.
  - reflexivity.
Defined.

(** X15: a curriculum with fewer units than days never becomes a document.
    The allocation succeeds, the day after the last unit is written to the
    schedule with an empty reference, and the document run over that
    schedule, from an empty disk and whatever the network answers, ends in
    an exception without writing the final document. *)
Theorem short_curriculum_yields_no_document (net : nat -> str -> http_result)
    (date_of : Z -> str) (all_verses : list str) (total_days : Z) (c : nat) :
  Z.of_nat (length all_verses) < total_days ->
  exists portions,
    allocate all_verses total_days = Ok portions
    /\ read_csv (schedule_of date_of portions) !! length all_verses
       = Some (date_of (Z.of_nat (length all_verses)), CNaN)
    /\ (exists exn,
          (generate_latex_from_schedule net empty_disk
             (read_csv (schedule_of date_of portions)) c).1.1 = Raise exn)
    /\ tex_file (completed net empty_disk
                   (read_csv (schedule_of date_of portions)) c) = None.
Proof.
  intros Hlt.
  destruct (allocate_fewer_units_than_days all_verses total_days Hlt)
    as (portions & Halloc & _ & Hempty).
  exists portions. split; [done|].
  assert (read_csv (schedule_of date_of portions) !! length all_verses
          = Some (date_of (Z.of_nat (length all_verses)), CNaN)) as Hrow.
  { specialize (Hempty (Z.of_nat (length all_verses)) ltac:(lia)).
    rewrite Nat2Z.id in Hempty.
    by rewrite (lookup_read_csv_schedule date_of _ _ _ _ Hempty). }
  split; [done|].
  destruct (missing_reference_stops net empty_disk _ _ _ c Hrow)
    as (Hexn & Htex); [unfold marker_of; simpl; lia|].
  by split.
Qed.

Lemma short_curriculum_yields_no_document_witness :
  exists portions,
    allocate [u "Genesis 1:1"; u "Genesis 1:2"] 3 = Ok portions
    /\ read_csv (schedule_of (fun _ => u "2025-01-01") portions) !! 2%nat
       = Some (u "2025-01-01", CNaN)
    /\ (exists exn,
          (generate_latex_from_schedule dead_net empty_disk
             (read_csv (schedule_of (fun _ => u "2025-01-01") portions)) 0%nat).1.1
          = Raise exn)
    /\ tex_file (completed dead_net empty_disk
                   (read_csv (schedule_of (fun _ => u "2025-01-01") portions))
                   0%nat) = None.
Proof.
  apply (short_curriculum_yields_no_document dead_net (fun _ => u "2025-01-01")
           [u "Genesis 1:1"; u "Genesis 1:2"] 3 0%nat).
  reflexivity.
Defined.

(** ** The document of a run that ends well *)

Section Structure.
Variable net : nat -> str -> http_result.

(** What the rows append, block by block: the rows up to the marker append
    nothing, every other row a block that starts with its heading. *)
Lemma process_rows_blocks (rows : list (str * cell)) :
  forall (last i : Z) (tex : str) (c : nat) (tex' : str),
    (process_rows net last i rows tex c).1.1 = Ok tex' ->
    exists blocks,
      Forall2 (fun row block => heading row.1 row.2 `prefix_of` block)
              (drop (Z.to_nat (last + 1 - i)) rows) blocks
      /\ tex' = tex ++ concat blocks.
Proof.
  induction rows as [|row rows IH]; intros last i tex c tex'.
  - intros [= <-]. exists []. rewrite drop_nil, app_nil_r. by split.
  - rewrite process_rows_cons.
    destruct (Z.leb_spec i last) as [Hskip|Hrun].
    + intros Hrest. destruct (IH last (i + 1) tex c tex' Hrest) as (blocks & Hb & ->).
      exists blocks. split; [|done].
      replace (Z.to_nat (last + 1 - i)) with (S (Z.to_nat (last + 1 - (i + 1))))
        by lia.
      done.
    + pose proof (format_day_extends net tex row c) as Hext.
      destruct (format_day net tex row c) as [[[tex1|exn] evs] c1];
        cbn [fst snd] in *; [|done].
      destruct (Hext tex1 eq_refl) as [k Hk].
      destruct (encodable tex1); [|done].
      pose proof (IH last (i + 1) tex1 c1 tex') as Hrest.
      destruct (process_rows net last (i + 1) rows tex1 c1) as [[r2 evs2] c2].
      cbn [fst snd] in *. intros ->.
      destruct (Hrest eq_refl) as (blocks & Hb & ->).
      exists ((heading row.1 row.2 ++ k) :: blocks).
      replace (Z.to_nat (last + 1 - i)) with 0%nat by lia.
      replace (Z.to_nat (last + 1 - (i + 1))) with 0%nat in Hb by lia.
      rewrite drop_0 in *. split.
      * constructor; [by exists k|exact Hb].
      * rewrite Hk, concat_cons. by rewrite <- !app_assoc.
Qed.


End Structure.



(** ** The fetcher over a whole reference string *)

(** A sequence [he] with an element that is not a string: the entries of
    the strings before it are appended, then the loop ends in
    [TypeError]. *)
Lemma enumerate_he_partial (section chap : json) (texts : list str)
    (bad : json) (rest : list json) :
  subscript section 0 = Ok chap ->
  is_str bad = false ->
  forall (i : Z) (ve : list entry),
    enumerate_he section i (map JStr texts ++ bad :: rest) ve
    = (ve ++ imap (fun k t => (chap, JInt (i + Z.of_nat k),
                               remove_html_tags_and_entities t)) texts,
       Some TypeError).
Proof.
  intros Hchap Hbad. induction texts as [|t texts IH]; intros i ve.
  - simpl. rewrite app_nil_r. by destruct bad.
  - simpl map. cbn [app enumerate_he clean_text]. rewrite bind_Ok, Hchap, bind_Ok.
    rewrite IH, imap_cons, <- app_assoc. simpl app. rewrite Z.add_0_r.
    do 3 f_equal. apply imap_ext. intros k t' _. simpl. do 3 f_equal. lia.
Qed.

(** X18: a payload that fails half way is kept half way.  When [he] is a
    sequence whose first element that is not a string comes after [texts],
    the entries of [texts] are appended as for a good payload, and the
    exception is reported for the sub-reference: the entries appended
    before the exception are not withdrawn. *)
Theorem partial_payload_keeps_entries (data section chap : json) (start : Z)
    (texts : list str) (bad : json) (rest : list json) (ve : list entry) :
  json_get data (u "sections") (JList [JInt 1; JInt 1]) = Ok section ->
  json_get data (u "he") (JList []) = Ok (JList (map JStr texts ++ bad :: rest)) ->
  is_str bad = false ->
  subscript section 0 = Ok chap ->
  (v ← subscript section 1; as_index v) = Ok start ->
  parse_payload (Some data) ve
  = (ve ++ imap (fun k t => (chap, JInt (start + Z.of_nat k),
                             remove_html_tags_and_entities t)) texts,
     Some TypeError)
  /\ length (parse_payload (Some data) ve).1 = (length ve + length texts)%nat.
Proof.
  intros Hsec Hhe Hbad Hchap Hstart.
  assert (parse_payload (Some data) ve
          = (ve ++ imap (fun k t => (chap, JInt (start + Z.of_nat k),
                                     remove_html_tags_and_entities t)) texts,
             Some TypeError)) as Hparse.
  { unfold parse_payload. rewrite Hsec, bind_Ok, Hhe, bind_Ok.
    rewrite Hstart. by apply enumerate_he_partial. }
  split; [done|].
  rewrite Hparse. cbn [fst]. by rewrite length_app, length_imap.
Qed.

Lemma partial_payload_keeps_entries_witness :
  parse_payload
    (Some (JDict [(u "sections", JList [JInt 3; JInt 7]);
                  (u "he", JList [JStr (u "<i>a</i>"); JNull; JStr (u "b")])]))
    []
  = ([(JInt 3, JInt 7, u "a")], Some TypeError).
Proof.
  refine (proj1 (partial_payload_keeps_entries
                   (JDict [(u "sections", JList [JInt 3; JInt 7]);
                           (u "he", JList [JStr (u "<i>a</i>"); JNull;
                                           JStr (u "b")])])
                   (JList [JInt 3; JInt 7]) (JInt 3) 7
                   [u "<i>a</i>"] JNull [JStr (u "b")] [] _ _ _ _ _));
    reflexivity.
Defined.

(** What is appended never depends on what was gathered before. *)
Lemma enumerate_he_acc (section : json) (he : list json) :
  forall (i : Z) (ve : list entry),
    enumerate_he section i he ve
    = (ve ++ (enumerate_he section i he []).1, (enumerate_he section i he []).2).
Proof.
  induction he as [|txt he IH]; intros i ve.
  - simpl. by rewrite app_nil_r.
  - cbn [enumerate_he].
    destruct (clean_text txt) as [clean|]; [|by rewrite app_nil_r].
    rewrite bind_Ok.
    destruct (subscript section 0) as [chap|]; [|by rewrite app_nil_r].
    rewrite bind_Ok.
    rewrite (IH (i + 1) (ve ++ _)), (IH (i + 1) ([] ++ _)).
    cbn [fst snd]. by rewrite <- !app_assoc.
Qed.

Lemma parse_payload_acc (body : option json) (ve : list entry) :
  parse_payload body ve
  = (ve ++ (parse_payload body []).1, (parse_payload body []).2).
Proof.
  unfold parse_payload.
  destruct body as [data|]; [|by rewrite app_nil_r].
  destruct (json_get data (u "sections") _ ≫= _) as [[section he]|];
    [|by rewrite app_nil_r].
  destruct he as [| | | |s|he|d];
    try (destruct (clean_text _ ≫= _) as [e|]; cbn [fst snd];
         by rewrite ?app_nil_r).
  destruct (subscript section 1 ≫= as_index) as [start|];
    [|by rewrite app_nil_r].
  apply enumerate_he_acc.
Qed.

(** What is appended is cleaned text, under the numbers of the payload. *)
Lemma enumerate_he_invariant (P : entry -> Prop) (section : json)
    (he : list json) :
  (forall chap num t, P (chap, num, remove_html_tags_and_entities t)) ->
  forall (i : Z) (ve : list entry),
    Forall P ve -> Forall P (enumerate_he section i he ve).1.
Proof.
  intros HP. induction he as [|txt he IH]; intros i ve Hve; [done|].
  cbn [enumerate_he].
  destruct txt as [| | | |t| |]; try done. cbn [clean_text]. rewrite bind_Ok.
  destruct (subscript section 0) as [chap|]; [|done]. rewrite bind_Ok.
  apply IH. apply Forall_app. split; [done|]. by apply Forall_singleton.
Qed.

Lemma parse_payload_invariant (P : entry -> Prop) (body : option json)
    (ve : list entry) :
  (forall chap num t, P (chap, num, remove_html_tags_and_entities t)) ->
  Forall P ve -> Forall P (parse_payload body ve).1.
Proof.
  intros HP Hve. unfold parse_payload.
  destruct body as [data|]; [|done].
  destruct (json_get data (u "sections") _ ≫= _) as [[section he]|]; [|done].
  destruct he as [| | | |s|he|d]; try done.
  - cbn [clean_text]. rewrite bind_Ok.
    destruct (subscript section 0) as [chap|]; [|done]. rewrite bind_Ok.
    destruct (subscript section 1) as [num|]; [|done]. rewrite bind_Ok.
    cbn [fst]. apply Forall_app. split; [done|]. by apply Forall_singleton.
  - destruct (subscript section 1 ≫= as_index) as [start|]; [|done].
    by apply enumerate_he_invariant.
Qed.

Lemma slept_app (evs1 evs2 : list event) :
  slept (evs1 ++ evs2) = slept evs1 + slept evs2.
Proof. unfold slept. by rewrite map_app, sumZ_app. Qed.

Lemma slept_backoff (url : str) (m : nat) : forall from : Z,
  0 <= from ->
  slept (backoff url from m) = 2 ^ from * (2 ^ Z.of_nat m - 1).
Proof.
  induction m as [|m IH]; intros from Hfrom.
  - change (backoff url from 0) with (@nil event).
    change (slept []) with 0. change (Z.of_nat 0) with 0.
    rewrite Z.pow_0_r. lia.
  - rewrite backoff_S, slept_app, IH by lia.
    change (slept [EGet url; ESleep (2 ^ from)]) with (0 + (2 ^ from + 0)).
    rewrite Nat2Z.inj_succ, Z.pow_succ_r, Z.pow_add_r by lia.
    lia.
Qed.

Section WholeReference.
Variable net : nat -> str -> http_result.

Lemma fetch_one_acc (retries : Z) (ve : list entry) (r : str) (c : nat) :
  fetch_one net retries ve r c
  = let '(new, evs, c1) := fetch_one net retries [] r c in (ve ++ new, evs, c1).
Proof.
  rewrite !fetch_one_spec. cbn zeta.
  destruct (decide _); [|by rewrite app_nil_r].
  by rewrite (parse_payload_acc _ ve).
Qed.

Lemma fetch_all_acc (retries : Z) (rs : list str) : forall (ve : list entry) (c : nat),
  fetch_all net retries ve rs c
  = let '(new, evs, c1) := fetch_all net retries [] rs c in (ve ++ new, evs, c1).
Proof.
  induction rs as [|r rs IH]; intros ve c.
  - simpl. by rewrite app_nil_r.
  - rewrite !fetch_all_cons, (fetch_one_acc retries ve).
    destruct (fetch_one net retries [] r c) as [[new1 evs1] c1].
    rewrite (IH (ve ++ new1)), (IH new1).
    destruct (fetch_all net retries [] rs c1) as [[new2 evs2] c2].
    by rewrite app_assoc.
Qed.

(** X19: the entries of a day are those of its sub-references, one after the
    other.  What a sub-reference contributes does not depend on the entries
    gathered before it, and a later sub-reference, whether it succeeds,
    fails to parse or exhausts its attempts, neither drops nor changes
    them; the requests are counted on from one sub-reference to the
    next. *)
Theorem fetch_all_app (retries : Z) (ve : list entry) (rs1 rs2 : list str)
    (c : nat) :
  fetch_all net retries ve (rs1 ++ rs2) c
  = let '(new1, evs1, c1) := fetch_all net retries [] rs1 c in
    let '(new2, evs2, c2) := fetch_all net retries [] rs2 c1 in
    (ve ++ new1 ++ new2, evs1 ++ evs2, c2).
Proof.
  revert ve c. induction rs1 as [|r rs1 IH]; intros ve c.
  - simpl app. rewrite fetch_all_acc. cbn [fetch_all mret io_ret].
    by destruct (fetch_all net retries [] rs2 c) as [[new2 evs2] c2].
  - simpl app. rewrite !fetch_all_cons, (fetch_one_acc retries ve).
    destruct (fetch_one net retries [] r c) as [[new evs] c0].
    rewrite IH, (fetch_all_acc retries rs1 new).
    destruct (fetch_all net retries [] rs1 c0) as [[new1 evs1] c1].
    destruct (fetch_all net retries [] rs2 c1) as [[new2 evs2] c2].
    by rewrite <- !app_assoc.
Qed.

Lemma fetch_one_invariant (P : entry -> Prop) (retries : Z) (r : str) :
  (forall chap num t, P (chap, num, remove_html_tags_and_entities t)) ->
  forall (ve : list entry) (c : nat),
    Forall P ve -> Forall P (fetch_one net retries ve r c).1.1.
Proof.
  intros HP ve c Hve. rewrite fetch_one_spec. cbn zeta.
  destruct (decide _); cbn [fst snd]; [|done].
  by apply parse_payload_invariant.
Qed.

Lemma fetch_all_invariant (P : entry -> Prop) (retries : Z) (rs : list str) :
  (forall chap num t, P (chap, num, remove_html_tags_and_entities t)) ->
  forall (ve : list entry) (c : nat),
    Forall P ve -> Forall P (fetch_all net retries ve rs c).1.1.
Proof.
  intros HP. induction rs as [|r rs IH]; intros ve c Hve; [done|].
  rewrite fetch_all_cons.
  pose proof (fetch_one_invariant P retries r HP ve c Hve) as H1.
  destruct (fetch_one net retries ve r c) as [[ve1 evs1] c1].
  pose proof (IH ve1 c1 H1) as H2.
  by destruct (fetch_all net retries ve1 rs c1) as [[ve2 evs2] c2].
Qed.

(** Without an attempt nothing is fetched. *)
Lemma fetch_all_invariant_empty (retries : Z) (rs : list str) (c : nat) :
  retries <= 0 -> (fetch_all net retries [] rs c).1.1 = [].
Proof.
  intros Hr. revert c. induction rs as [|r rs IH]; intros c; [done|].
  rewrite fetch_all_cons, fetch_one_spec. cbn zeta.
  replace (Z.to_nat retries) with 0%nat by lia.
  cbn [failures]. destruct (decide (0 < 0)%nat) as [?|_]; [lia|].
  specialize (IH (c + 0)%nat).
  by destruct (fetch_all net retries [] rs (c + 0)%nat) as [[ve2 evs2] c2].
Qed.

Lemma fetch_one_budget (retries : Z) (ve : list entry) (r : str) (c : nat) :
  (count_gets (fetch_one net retries ve r c).1.2 <= Z.to_nat retries)%nat
  /\ (1 <= retries -> (1 <= count_gets (fetch_one net retries ve r c).1.2)%nat)
  /\ 0 <= slept (fetch_one net retries ve r c).1.2 <= 2 ^ Z.max 0 retries - 1
  /\ (fetch_one net retries ve r c).2
     = (c + count_gets (fetch_one net retries ve r c).1.2)%nat.
Proof.
  rewrite fetch_one_spec. cbn zeta.
  pose proof (failures_le net (url_of r) c (Z.to_nat retries)) as Hle.
  set (m := failures net (url_of r) c (Z.to_nat retries)) in *.
  assert (slept (backoff (url_of r) 0 m) = 2 ^ Z.of_nat m - 1) as Hslept
    by (rewrite slept_backoff by lia; lia).
  assert (0 <= 2 ^ Z.of_nat m - 1 <= 2 ^ Z.max 0 retries - 1) as Hpow.
  { pose proof (Z.pow_pos_nonneg 2 (Z.of_nat m) ltac:(lia) ltac:(lia)).
    pose proof (Z.pow_le_mono_r 2 (Z.of_nat m) (Z.max 0 retries)
                  ltac:(lia) ltac:(lia)).
    lia. }
  destruct (decide (m < Z.to_nat retries)%nat) as [Hm|Hm]; cbn [fst snd].
  - rewrite !count_gets_app, !slept_app, count_gets_backoff, Hslept.
    assert (count_gets
              match (parse_payload
                       match net (c + m)%nat (url_of r) with
                       | Response _ body => body
                       | TransportError => None
                       end ve).2 with
              | Some e => [EError (strip r) e]
              | None => []
              end = 0%nat
            /\ slept
                 match (parse_payload
                          match net (c + m)%nat (url_of r) with
                          | Response _ body => body
                          | TransportError => None
                          end ve).2 with
                 | Some e => [EError (strip r) e]
                 | None => []
                 end = 0) as [-> ->]
      by (by destruct (parse_payload _ ve).2).
    change (count_gets [EGet (url_of r)]) with 1%nat.
    change (slept [EGet (url_of r)]) with 0.
    split_and!; lia.
  - rewrite !count_gets_app, !slept_app, count_gets_backoff, Hslept.
    change (count_gets [EWarning (strip r) retries]) with 0%nat.
    change (slept [EWarning (strip r) retries]) with 0.
    split_and!; lia.
Qed.

Lemma fetch_all_budget (retries : Z) (rs : list str) :
  forall (ve : list entry) (c : nat),
    (count_gets (fetch_all net retries ve rs c).1.2
     <= Z.to_nat retries * length rs)%nat
    /\ (1 <= retries ->
        (length rs <= count_gets (fetch_all net retries ve rs c).1.2)%nat)
    /\ 0 <= slept (fetch_all net retries ve rs c).1.2
       <= Z.of_nat (length rs) * (2 ^ Z.max 0 retries - 1)
    /\ (fetch_all net retries ve rs c).2
       = (c + count_gets (fetch_all net retries ve rs c).1.2)%nat.
Proof.
  induction rs as [|r rs IH]; intros ve c.
  - simpl. unfold count_gets, slept. simpl. split_and!; lia.
  - rewrite fetch_all_cons.
    pose proof (fetch_one_budget retries ve r c) as (H1 & H2 & H3 & H4).
    destruct (fetch_one net retries ve r c) as [[ve1 evs1] c1].
    pose proof (IH ve1 c1) as (I1 & I2 & I3 & I4).
    destruct (fetch_all net retries ve1 rs c1) as [[ve2 evs2] c2].
    cbn [fst snd length] in *.
    rewrite count_gets_app, slept_app.
    split_and!; [nia | intros Hr; specialize (H2 Hr); specialize (I2 Hr); lia
                | nia | nia | lia].
Qed.

(** X20: the cost of a day.  A reference string has one sub-reference more
    than it has commas, whatever is between them; the fetch of the day
    sends at most [retries] requests for each, and at least one when
    [retries] is positive, sleeps at most [2 ^ retries - 1] seconds for
    each, and sends nothing at all when [retries] is zero or negative. *)
Theorem fetch_budget (s : str) (retries : Z) (c : nat) :
  let subrefs := S (length (filter (fun ch => ch = 44) s)) in
  let evs := (get_sefaria_verse_entries net (CStr s) retries c).1.2 in
  length (split 44 s) = subrefs
  /\ (count_gets evs <= Z.to_nat retries * subrefs)%nat
  /\ (1 <= retries -> (subrefs <= count_gets evs)%nat)
  /\ 0 <= slept evs <= Z.of_nat subrefs * (2 ^ Z.max 0 retries - 1)
  /\ (get_sefaria_verse_entries net (CStr s) retries c).2
     = (c + count_gets evs)%nat
  /\ (retries <= 0 ->
      (get_sefaria_verse_entries net (CStr s) retries c).1.1 = Ok []
      /\ count_gets evs = 0%nat).
Proof.
  cbn zeta. rewrite get_sefaria_unfold.
  pose proof (fetch_all_budget retries (split 44 s) [] c) as (H1 & H2 & H3 & H4).
  pose proof (fetch_all_invariant_empty retries (split 44 s) c) as Hempty.
  destruct (fetch_all net retries [] (split 44 s) c) as [[ves evs] c1].
  cbn [fst snd] in *. rewrite app_nil_r, <- length_split.
  split_and!; try done; try lia.
  intros Hr. split; [by rewrite (Hempty Hr)|].
  replace (Z.to_nat retries) with 0%nat in H1 by lia. lia.
Qed.

End WholeReference.

(** ** The sub-references of a day, one by one *)

Section SubReference.
Variable net : nat -> str -> http_result.

(** The fetch of the sub-references around one of them. *)
Lemma fetch_all_middle (retries : Z) (rs1 : list str) (r : str) (rs2 : list str) :
  forall c : nat,
    fetch_all net retries [] (rs1 ++ r :: rs2) c
    = (let before := fetch_all net retries [] rs1 c in
       let one := fetch_one net retries [] r before.2 in
       let after := fetch_all net retries [] rs2 one.2 in
       (before.1.1 ++ one.1.1 ++ after.1.1,
        before.1.2 ++ one.1.2 ++ after.1.2, after.2)).
Proof.
  induction rs1 as [|r1 rs1 IH]; intros c.
  - cbn [app]. rewrite fetch_all_cons.
    change (fetch_all net retries [] [] c) with (@nil entry, @nil event, c).
    cbn [fst snd app].
    destruct (fetch_one net retries [] r c) as [[new evs] c1].
    rewrite fetch_all_acc. cbn [fst snd].
    by destruct (fetch_all net retries [] rs2 c1) as [[new2 evs2] c2].
  - simpl app. rewrite !fetch_all_cons.
    destruct (fetch_one net retries [] r1 c) as [[new1 evs1] c1].
    rewrite (fetch_all_acc net retries (rs1 ++ r :: rs2) new1), IH.
    rewrite (fetch_all_acc net retries rs1 new1).
    destruct (fetch_all net retries [] rs1 c1) as [[newb evsb] cb].
    cbn [fst snd].
    destruct (fetch_one net retries [] r cb) as [[newr evsr] cr].
    cbn [fst snd].
    destruct (fetch_all net retries [] rs2 cr) as [[new2 evs2] c2].
    cbn [fst snd]. by rewrite <- !app_assoc.
Qed.

(** The fetch of a day around its [k]-th sub-reference. *)
Lemma fetch_day_pieces (s : str) (retries : Z) (c : nat) (k : nat) (r : str) :
  split 44 s !! k = Some r ->
  get_sefaria_verse_entries net (CStr s) retries c
  = (let before := fetch_all net retries [] (take k (split 44 s)) c in
     let one := fetch_one net retries [] r before.2 in
     let after := fetch_all net retries [] (drop (S k) (split 44 s)) one.2 in
     (Ok (before.1.1 ++ one.1.1 ++ after.1.1),
      before.1.2 ++ one.1.2 ++ after.1.2, after.2)).
Proof.
  intros Hk. rewrite get_sefaria_unfold.
  pose proof (fetch_all_middle retries (take k (split 44 s)) r
                (drop (S k) (split 44 s)) c) as Hmid.
  rewrite (take_drop_middle (split 44 s) k r Hk) in Hmid.
  rewrite Hmid. cbn zeta. cbn [fst snd]. by rewrite app_nil_r.
Qed.

Lemma url_of_unfold (r : str) : url_of r = sefaria_url (strip r).
Proof. unfold url_of. reflexivity. Qed.

(** C4: every sub-reference of a day's string is attempted at most
    [retries] times, with a wait of [2 ^ k] after failed attempt [k], and
    skipped with a warning when every attempt fails.  [r] is the [k]-th
    piece of the string between its commas; [before], [one] and [after] are
    the fetches of the pieces before it, of [r] and of the pieces after it.
    The fetch of the day is these three one after the other and returns
    their entries without raising; [r] is requested at most [retries] times
    at the URL of [r] stripped; its failed attempts come first, each
    followed by its wait; and when every attempt fails, [r] adds a warning
    and no entry, and the pieces after it are fetched all the same. *)
Theorem C4_retry_backoff_skip (s : str) (retries : Z) (c : nat) (k : nat)
    (r : str) :
  split 44 s !! k = Some r ->
  let before := fetch_all net retries [] (take k (split 44 s)) c in
  let one := fetch_one net retries [] r before.2 in
  let after := fetch_all net retries [] (drop (S k) (split 44 s)) one.2 in
  let url := sefaria_url (strip r) in
  let n := Z.to_nat retries in
  let m := failures net url before.2 n in
  get_sefaria_verse_entries net (CStr s) retries c
  = (Ok (before.1.1 ++ one.1.1 ++ after.1.1),
     before.1.2 ++ one.1.2 ++ after.1.2, after.2)
  /\ (count_gets one.1.2 <= n)%nat
  /\ (m <= n)%nat
  /\ (forall j, (j < m)%nat -> failed (net (before.2 + j)%nat url) = true)
  /\ (exists rest,
        one.1.2 = backoff url 0 m ++ rest
        /\ (count_gets rest <= 1)%nat
        /\ Forall (fun e => forall secs, e <> ESleep secs) rest)
  /\ ((forall j, (j < n)%nat -> failed (net (before.2 + j)%nat url) = true) ->
      let after' :=
        fetch_all net retries [] (drop (S k) (split 44 s)) (before.2 + n)%nat in
      one = ([], backoff url 0 n ++ [EWarning (strip r) retries],
             (before.2 + n)%nat)
      /\ get_sefaria_verse_entries net (CStr s) retries c
         = (Ok (before.1.1 ++ after'.1.1),
            before.1.2 ++ (backoff url 0 n ++ [EWarning (strip r) retries])
            ++ after'.1.2,
            after'.2)).
Proof.
  intros Hk. cbv zeta.
  pose proof (fetch_day_pieces s retries c k r Hk) as Hday. cbv zeta in Hday.
  pose proof (fetch_one_retry_backoff net retries [] r
                (drop (S k) (split 44 s))
                (fetch_all net retries [] (take k (split 44 s)) c).2)
    as (Hcount & Hle & Hfailed & Hrest & Hskip).
  rewrite url_of_unfold in Hle, Hfailed, Hrest, Hskip.
  split_and!; [exact Hday | exact Hcount | exact Hle | exact Hfailed
              | exact Hrest |].
  intros Hall. destruct (Hskip Hall) as [Hone _].
  split; [exact Hone|].
  rewrite Hday, Hone. reflexivity.
Qed.
End SubReference.


Lemma C4_retry_backoff_skip_witness :
  split 44 (u "Genesis 1:1, Genesis 1:2") !! 1%nat = Some (u " Genesis 1:2")
  /\ let before :=
       fetch_all dead_net 5 [] (take 1 (split 44 (u "Genesis 1:1, Genesis 1:2")))
         0%nat in
     let one := fetch_one dead_net 5 [] (u " Genesis 1:2") before.2 in
     let after :=
       fetch_all dead_net 5 []
         (drop 2 (split 44 (u "Genesis 1:1, Genesis 1:2"))) one.2 in
     get_sefaria_verse_entries dead_net (CStr (u "Genesis 1:1, Genesis 1:2")) 5 0%nat
     = (Ok (before.1.1 ++ one.1.1 ++ after.1.1),
        before.1.2 ++ one.1.2 ++ after.1.2, after.2).
Proof.
  split; [vm_compute; reflexivity|].
  refine (proj1 (C4_retry_backoff_skip dead_net (u "Genesis 1:1, Genesis 1:2")
                   5 0%nat 1%nat (u " Genesis 1:2") _)).
  vm_compute. reflexivity.
Defined.

(** On a network on which every request fails, a day of two sub-references
    sends five requests for each, waits after every one, warns twice and
    returns no entry. *)
Example dead_day :
  get_sefaria_verse_entries dead_net (CStr (u "Genesis 1:1, Genesis 1:2")) 5 0%nat
  = (Ok [],
     (backoff (sefaria_url (u "Genesis 1:1")) 0 5
      ++ [EWarning (u "Genesis 1:1") 5])
     ++ (backoff (sefaria_url (u "Genesis 1:2")) 0 5
         ++ [EWarning (u "Genesis 1:2") 5]),
     10%nat).
Proof. vm_compute. reflexivity. Qed.

(** ** When a run cannot fail *)

Lemma encodable_sublist (s t : str) :
  s `sublist_of` t -> encodable t = true -> encodable s = true.
Proof.
  induction 1 as [|c s t _ IH|c s t _ IH]; [done| |]; simpl.
  - intros [Hc Ht]%andb_prop. by rewrite Hc, IH.
  - intros [_ Ht]%andb_prop. by apply IH.
Qed.

Lemma encodable_clean (t : str) :
  encodable t = true -> encodable (remove_html_tags_and_entities t) = true.
Proof. apply encodable_sublist, clean_sublist. Qed.

Lemma encodable_letter_of (k : Z) : encodable (letter_of k) = true.
Proof.
  unfold letter_of, hebrew_letters, dict_get.
  repeat match goal with
         | |- context [?a =? k] => destruct (a =? k); [vm_compute; reflexivity|]
         end.
  reflexivity.
Qed.

Lemma encodable_hebrew_number (num : Z) : encodable (hebrew_number num) = true.
Proof.
  destruct (Z.lt_ge_cases num 0) as [Hneg|Hpos].
  - by rewrite hebrew_number_negative.
  - rewrite hebrew_number_nonneg by done.
    destruct (num =? 15); [vm_compute; reflexivity|].
    destruct (num =? 16); [vm_compute; reflexivity|].
    unfold digit_letters. by rewrite !encodable_app, !encodable_letter_of.
Qed.

Lemma encodable_concat (ls : list str) :
  Forall (fun l => encodable l = true) ls -> encodable (concat ls) = true.
Proof.
  induction 1 as [|l ls Hl _ IH]; [done|].
  simpl. by rewrite encodable_app, Hl, IH.
Qed.

Lemma encodable_escape (text : str) :
  encodable text = true -> encodable (escape_latex_special_chars text) = true.
Proof.
  intros Htext. rewrite escape_latex_by_char. apply encodable_concat.
  apply Forall_fmap. unfold encodable in Htext.
  rewrite forallb_forall in Htext. apply Forall_forall. intros c Hc.
  apply list_elem_of_In, Htext in Hc. simpl.
  destruct (escape_char_cases c) as [[_ E]|[[_ E]|(_ & _ & E)]]; rewrite E;
    [vm_compute; reflexivity | vm_compute; reflexivity |].
  simpl. by rewrite Hc.
Qed.

Lemma encodable_heading (date : str) (ref : cell) :
  encodable date = true -> encodable (format_cell ref) = true ->
  encodable (heading date ref) = true.
Proof.
  intros Hdate Href. unfold heading.
  rewrite !encodable_app, Hdate, Href.
  vm_compute. reflexivity.
Qed.

Section Completes.
Variable net : nat -> str -> http_result.

Hypothesis net_texts :
  forall n url body,
    net n url = Response 200 body ->
    string_he body = false
    /\ Forall (fun t => encodable t = true) (he_texts body).

Lemma enumerate_he_good (section : json) (he : list json) :
  Forall (fun t => encodable t = true)
         (omap (fun v => match v with JStr t => Some t | _ => None end) he) ->
  forall (i : Z) (ve : list entry),
    Forall printable ve -> Forall printable (enumerate_he section i he ve).1.
Proof.
  induction he as [|txt he IH]; intros Hhe i ve Hve; [done|].
  cbn [enumerate_he].
  destruct txt as [| | | |t| |]; try done.
  cbn [omap] in Hhe. apply Forall_cons in Hhe as [Ht Hhe].
  cbn [clean_text]. rewrite bind_Ok.
  destruct (subscript section 0) as [chap|]; [|done]. rewrite bind_Ok.
  apply IH; [done|]. apply Forall_app. split; [done|].
  apply Forall_singleton. split; [by exists i|]. by apply encodable_clean.
Qed.

Lemma parse_payload_good (body : option json) (ve : list entry) :
  string_he body = false ->
  Forall (fun t => encodable t = true) (he_texts body) ->
  Forall printable ve -> Forall printable (parse_payload body ve).1.
Proof.
  intros Hstr Hhe Hve. destruct body as [data|]; [|done].
  destruct data as [| | | | |l|d]; try done.
  unfold parse_payload, json_get. rewrite !bind_Ok.
  cbn [string_he he_texts] in Hstr, Hhe.
  destruct (members_get d (u "he") (JList [])) as [| | | |s|he|d']; try done.
  destruct (subscript _ 1 ≫= as_index) as [start|]; [|done].
  by apply enumerate_he_good.
Qed.

Lemma fetch_one_good (retries : Z) (ve : list entry) (r : str) (c : nat) :
  Forall printable ve -> Forall printable (fetch_one net retries ve r c).1.1.
Proof using net_texts.
  intros Hve. rewrite fetch_one_spec. cbn zeta.
  destruct (decide _) as [Hm|Hm]; cbn [fst snd]; [|done].
  pose proof (failures_succeeded net (url_of r) (Z.to_nat retries) c Hm) as Hok.
  destruct (net _ (url_of r)) as [status body|] eqn:Hnet; [|done].
  simpl in Hok. apply negb_false_iff, Z.eqb_eq in Hok as ->.
  destruct (net_texts _ _ _ Hnet) as [Hstr Hhe].
  by apply parse_payload_good.
Qed.

Lemma fetch_all_good (retries : Z) (rs : list str) :
  forall (ve : list entry) (c : nat),
    Forall printable ve -> Forall printable (fetch_all net retries ve rs c).1.1.
Proof using net_texts.
  induction rs as [|r rs IH]; intros ve c Hve; [done|].
  rewrite fetch_all_cons.
  pose proof (fetch_one_good retries ve r c Hve) as H1.
  destruct (fetch_one net retries ve r c) as [[ve1 evs1] c1].
  pose proof (IH ve1 c1 H1) as H2.
  by destruct (fetch_all net retries ve1 rs c1) as [[ve2 evs2] c2].
Qed.

Lemma verse_lines_good (verses : list entry) :
  Forall printable verses ->
  forall tex, encodable tex = true ->
    exists tex', for_each verse_line tex verses = Ok tex'
                 /\ encodable tex' = true.
Proof.
  induction 1 as [|e verses [[n Hn] Htext] _ IH]; intros tex Htex; [by eexists|].
  rewrite for_each_cons. destruct e as [[chap num] text].
  cbn [fst snd] in Hn, Htext. subst num.
  unfold verse_line. cbn [hebrew_number_of]. rewrite !bind_Ok. apply IH.
  rewrite !encodable_app, Htex, encodable_hebrew_number, encodable_escape by done.
  vm_compute. reflexivity.
Qed.

Lemma format_day_good (tex date s : str) (c : nat) :
  encodable tex = true -> encodable date = true -> encodable s = true ->
  exists tex', (format_day net tex (date, CStr s) c).1.1 = Ok tex'
               /\ encodable tex' = true.
Proof using net_texts.
  intros Htex Hdate Hs.
  rewrite format_day_unfold, get_sefaria_unfold.
  pose proof (fetch_all_good 5 (split 44 s) [] c (Forall_nil_2 _)) as Hgood.
  destruct (fetch_all net 5 [] (split 44 s) c) as [[ves evs] c1].
  cbn [fst snd] in *. rewrite bind_Ok. apply verse_lines_good; [done|].
  by rewrite encodable_app, Htex, encodable_heading.
Qed.

Lemma process_rows_good (rows : list (str * cell)) :
  Forall (fun row => row.2 <> CNaN
                     /\ encodable row.1 = true
                     /\ encodable (format_cell row.2) = true) rows ->
  forall (last i : Z) (tex : str) (c : nat),
    encodable tex = true ->
    exists tex', (process_rows net last i rows tex c).1.1 = Ok tex'
                 /\ encodable tex' = true.
Proof using net_texts.
  induction 1 as [|[date ref] rows (Href & Hdate & Hcell) _ IH];
    intros last i tex c Htex; [by eexists|].
  rewrite process_rows_cons. destruct (i <=? last); [by apply IH|].
  destruct ref as [s|]; [|done]. cbn [fst snd format_cell] in Hdate, Hcell.
  destruct (format_day_good tex date s c Htex Hdate Hcell) as (tex1 & Hday & Henc).
  destruct (format_day net tex (date, CStr s) c) as [[r evs] c1].
  cbn [fst snd] in Hday. subst r. rewrite Henc.
  destruct (IH last (i + 1) tex1 c1 Henc) as (tex' & Hrest & Henc').
  destruct (process_rows net last (i + 1) rows tex1 c1) as [[r2 evs2] c2].
  by exists tex'.
Qed.

End Completes.


(** A text with a lone surrogate stops the run at the write of its row:
    the checkpoint is left empty and nothing else is written. *)
Example surrogate_stops_the_run :
  generate_latex_from_schedule
    (const_net (Some (JDict [(u "he", JList [JStr [55296]])])))
    empty_disk two_days 0%nat
  = (Raise UnicodeEncodeError,
     [EGet (sefaria_url (u "Genesis 1:7")); ETruncateCheckpoint], 1%nat)
  /\ completed (const_net (Some (JDict [(u "he", JList [JStr [55296]])])))
       empty_disk two_days 0%nat
     = {| checkpoint := Some []; progress := None; tex_file := None |}.
Proof. split; vm_compute; reflexivity. Qed.

(** ** The names of the files *)

Lemma startswith_spec (p s : str) :
  startswith p s = true <-> exists t, s = p ++ t.
Proof.
  revert s. induction p as [|a p IH]; intros s.
  - split; [by exists s|by destruct s].
  - destruct s as [|b s]; simpl.
    + split; [done|by intros [t Ht]].
    + rewrite andb_true_iff, Z.eqb_eq, IH. split.
      * intros [-> [t ->]]. by exists t.
      * intros [t [= -> ->]]. split; [done|by exists t].
Qed.

Lemma contains_app (old x y : str) : contains old (x ++ old ++ y) = true.
Proof.
  assert (startswith old (old ++ y) = true) as Hhere
    by (apply startswith_spec; by exists y).
  induction x as [|c x IH].
  - simpl app. destruct (old ++ y) as [|c t] eqn:E; simpl.
    + by destruct old.
    + by rewrite Hhere.
  - simpl. rewrite IH. apply orb_true_r.
Qed.

(** Without an occurrence the text is returned as it is. *)
Lemma py_replace_absent (old new s : str) :
  contains old s = false -> py_replace old new s = s.
Proof.
  unfold py_replace. induction s as [|c t IH]; [done|].
  cbn [contains]. intros [Hhd Htl]%orb_false_elim.
  cbn [py_replace_from]. rewrite Hhd. by rewrite IH.
Qed.

(** Two replacements that differ in their second character give different
    texts as soon as there is an occurrence. *)
Lemma py_replace_differ (old new1 new2 s : str) (a1 a2 b1 b2 : char)
    (t1 t2 : str) :
  old <> [] ->
  new1 = a1 :: b1 :: t1 -> new2 = a2 :: b2 :: t2 -> b1 <> b2 ->
  contains old s = true ->
  py_replace old new1 s <> py_replace old new2 s.
Proof.
  intros Hold -> -> Hb. unfold py_replace. induction s as [|c t IH].
  - by destruct old.
  - cbn [contains]. cbn [py_replace_from].
    destruct (startswith old (c :: t)) eqn:Hhd.
    + intros _. simpl. intros [= _ Heq _]. congruence.
    + simpl. intros Htl [= Heq]. by apply IH.
Qed.

(** A replacement that differs from the pattern in its second character
    changes the text as soon as there is an occurrence. *)
Lemma py_replace_changes (old new s : str) (a b b' : char) (t t' : str) :
  old = a :: b :: t -> new = a :: b' :: t' -> b <> b' ->
  contains old s = true -> py_replace old new s <> s.
Proof.
  intros -> -> Hb. unfold py_replace. induction s as [|c s IH]; [done|].
  cbn [contains]. cbn [py_replace_from].
  destruct (startswith (a :: b :: t) (c :: s)) eqn:Hhd.
  - intros _. apply startswith_spec in Hhd as [r [= -> ->]].
    simpl. intros [= Heq _]. congruence.
  - simpl. intros Htl [= Heq]. by apply IH.
Qed.

Lemma startswith_length (p s : str) :
  startswith p s = true -> (length p <= length s)%nat.
Proof.
  intros [t ->]%startswith_spec. rewrite length_app. lia.
Qed.

(** A replacement as long as the pattern keeps the length. *)
Lemma length_py_replace_from (old new : str) :
  old <> [] -> length new = length old ->
  forall (s : str) (skip : nat),
    (skip <= length s)%nat ->
    length (py_replace_from old new skip s) = (length s - skip)%nat.
Proof.
  intros Hold Hlen. induction s as [|c t IH]; intros skip Hskip.
  - simpl in *. lia.
  - cbn [py_replace_from]. destruct skip as [|k].
    + destruct (startswith old (c :: t)) eqn:Hhd.
      * apply startswith_length in Hhd. simpl in Hhd.
        assert (length old <> 0%nat) by (by destruct old).
        rewrite length_app, IH by lia. simpl. lia.
      * simpl. rewrite IH by lia. lia.
    + simpl in *. rewrite IH by lia. lia.
Qed.

Lemma length_py_replace (old new s : str) :
  old <> [] -> length new = length old ->
  length (py_replace old new s) = length s.
Proof.
  intros Hold Hlen. unfold py_replace.
  rewrite (length_py_replace_from old new Hold Hlen) by lia. lia.
Qed.

(** X22: the document never lands on the schedule it is made from, unless
    the path of the schedule has no [.csv] in it: the path of the document
    is the path of the schedule exactly when [.csv] does not occur in it,
    and it always has the length of the path of the schedule. *)
Theorem tex_path_is_csv_path_iff (csv_path : str) :
  (tex_path_of csv_path = csv_path <-> contains (u ".csv") csv_path = false)
  /\ length (tex_path_of csv_path) = length csv_path.
Proof.
  unfold tex_path_of. split; [split|].
  - intros Heq. destruct (contains (u ".csv") csv_path) eqn:Hc; [|done].
    exfalso. revert Heq.
    by apply (py_replace_changes (u ".csv") (u ".tex") csv_path
                46 99 116 [115; 118] [101; 120]).
  - apply py_replace_absent.
  - by apply length_py_replace.
Qed.

(** X23: the five files of a child are five different files.  For every name
    and every birth date, the schedule, the calendar, the document, the
    checkpoint and the progress marker have pairwise different paths; so
    no write of a run lands on another file of the run, and the removals at
    the end take away neither the schedule nor the document. *)
Theorem files_are_distinct (name dob : str) :
  NoDup [csv_path_of name dob;
         ics_path_of (csv_path_of name dob);
         tex_path_of (csv_path_of name dob);
         checkpoint_path_of (csv_path_of name dob);
         progress_path_of (csv_path_of name dob)].
Proof.
  set (csv := csv_path_of name dob).
  assert (contains (u ".csv") csv = true) as Hc.
  { unfold csv, csv_path_of. rewrite !app_assoc.
    rewrite <- (app_nil_r (u ".csv")) at 2. apply contains_app. }
  assert (length (ics_path_of csv) = length csv) as Hics
    by (by apply length_py_replace).
  assert (length (tex_path_of csv) = length csv) as Htex
    by (by apply length_py_replace).
  assert (length (checkpoint_path_of csv) = (length csv + 11)%nat) as Hck
    by (unfold checkpoint_path_of; by rewrite length_app, Htex).
  assert (length (progress_path_of csv) = (length csv + 9)%nat) as Hpr
    by (unfold progress_path_of; by rewrite length_app, Htex).
  assert (ics_path_of csv <> csv) as H1
    by (by apply (py_replace_changes (u ".csv") (u ".ics") csv
                    46 99 105 [115; 118] [99; 115])).
  assert (tex_path_of csv <> csv) as H2
    by (by apply (py_replace_changes (u ".csv") (u ".tex") csv
                    46 99 116 [115; 118] [101; 120])).
  assert (ics_path_of csv <> tex_path_of csv) as H3
    by (by apply (py_replace_differ (u ".csv") (u ".ics") (u ".tex") csv
                    46 46 105 116 [99; 115] [101; 120] ltac:(done))).
  assert (forall p q : str, length p <> length q -> p <> q) as Hlen
    by (by intros p q Hpq ->).
  repeat (apply NoDup_cons_2; [rewrite ?not_elem_of_cons; split_and?;
                               try apply not_elem_of_nil|]);
    try apply NoDup_nil_2;
    try done; try (by apply not_eq_sym);
    try (apply Hlen; lia).
Qed.

(** ** A number the numerals cannot take *)

Section BadNumber.
Variable net : nat -> str -> http_result.

Lemma hebrew_number_of_raises (num : json) (exn : string) :
  hebrew_number_of num = Raise exn -> exn = TypeError.
Proof. destruct num; simpl; congruence. Qed.

Lemma verse_line_cases (tex : str) (e : entry) :
  match hebrew_number_of e.1.2 with
  | Ok _ => exists tex', verse_line tex e = Ok tex'
  | Raise _ => verse_line tex e = Raise TypeError
  end.
Proof.
  destruct e as [[chap num] text]. unfold verse_line. cbn [fst snd].
  destruct (hebrew_number_of num) as [h|exn] eqn:Hnum.
  - rewrite bind_Ok. by eexists.
  - by rewrite (hebrew_number_of_raises num exn Hnum).
Qed.

Lemma verse_lines_raise (verses : list entry) : forall tex : str,
  Exists (fun e : entry => hebrew_number_of e.1.2 = Raise TypeError) verses ->
  for_each verse_line tex verses = Raise TypeError.
Proof.
  induction verses as [|e verses IH]; intros tex Hbad.
  - by apply Exists_nil in Hbad.
  - rewrite for_each_cons. pose proof (verse_line_cases tex e) as Hline.
    destruct (hebrew_number_of e.1.2) as [h|exn] eqn:Hnum.
    + destruct Hline as [tex' ->]. rewrite bind_Ok. apply IH.
      apply Exists_cons in Hbad as [Hhere|Hlater]; [|done].
      simpl in Hhere. congruence.
    + by rewrite Hline.
Qed.

(** An entry with a number that [hebrew_number] refuses, in the first row
    to process, ends the run before anything is written. *)
Lemma refused_number_stops_run (d : disk) (rows : list (str * cell))
    (i : nat) (date : str) (ref : cell) (verses : list entry) (c : nat) :
  rows !! i = Some (date, ref) ->
  Z.of_nat i = marker_of d + 1 ->
  (get_sefaria_verse_entries net ref 5 c).1.1 = Ok verses ->
  Exists (fun e : entry => hebrew_number_of e.1.2 = Raise TypeError) verses ->
  (generate_latex_from_schedule net d rows c).1.1 = Raise TypeError
  /\ count_gets (run_events net d rows c)
     = count_gets (get_sefaria_verse_entries net ref 5 c).1.2
  /\ completed net d rows c = d.
Proof.
  intros Hi Hfirst Hfetch Hbad.
  assert (exists evs,
            process_rows net (marker_of d) 0 rows (document_of d) c
            = (Raise TypeError, evs,
               (get_sefaria_verse_entries net ref 5 c).2)
            /\ evs = (get_sefaria_verse_entries net ref 5 c).1.2
            /\ quiet evs) as (evs & Hrun & Hevs & Hquiet).
  { rewrite <- (take_drop_middle rows i (date, ref) Hi).
    rewrite process_rows_app.
    rewrite process_rows_skip
      by (rewrite length_take_le by (apply lookup_lt_Some in Hi; lia); lia).
    rewrite process_rows_cons.
    destruct (Z.leb_spec (0 + Z.of_nat (length (take i rows))) (marker_of d))
      as [Hle|_].
    { rewrite length_take_le in Hle by (apply lookup_lt_Some in Hi; lia). lia. }
    pose proof (quiet_format_day net (document_of d) (date, ref) c) as Hq.
    rewrite format_day_unfold in *.
    destruct (get_sefaria_verse_entries net ref 5 c) as [[r evs] c1].
    cbn [fst snd] in *. subst r. rewrite bind_Ok.
    rewrite (verse_lines_raise verses _ Hbad) in *. cbn [fst snd] in *.
    rewrite !app_nil_r in *. by exists evs. }
  unfold completed, run_events, generate_latex_from_schedule.
  unfold mbind, io_bind, emit, mret, io_ret.
  unfold marker_of, document_of in Hrun.
  destruct d as [ck [l|] tx]; cbn [progress checkpoint] in *;
    rewrite Hrun; cbn [fst snd]; rewrite <- Hevs.
  - rewrite !app_nil_r. split_and!; [done|by rewrite count_gets_app|].
    by rewrite <- replay_app, (replay_quiet evs _ Hquiet).
  - rewrite !app_nil_r. split_and!; [done|done|].
    by rewrite (replay_quiet evs _ Hquiet).
Qed.

Lemma unnumbered_raises (num : json) :
  unnumbered num = true -> hebrew_number_of num = Raise TypeError.
Proof. by destruct num. Qed.

(** X24: what the fetcher lets through can still stop the document.  A
    successful response whose [he] is a string is parsed without an error
    whatever [sections] holds in its two places; when the number it holds
    is null, a string, a sequence or an object, the entry is returned with
    that number.  When this is the answer to the first request of the
    first row to process, the run ends in [TypeError] at the line of that
    entry, after the requests of the day and before anything is written,
    and leaves every file as it found it. *)
Theorem unnumbered_entry_aborts (d : disk) (rows : list (str * cell))
    (i : nat) (date s r : str) (rs : list str) (c : nat)
    (data section chap num : json) (t : str) :
  rows !! i = Some (date, CStr s) ->
  Z.of_nat i = marker_of d + 1 ->
  split 44 s = r :: rs ->
  net c (sefaria_url (strip r)) = Response 200 (Some data) ->
  json_get data (u "he") (JList []) = Ok (JStr t) ->
  json_get data (u "sections") (JList [JInt 1; JInt 1]) = Ok section ->
  subscript section 0 = Ok chap ->
  subscript section 1 = Ok num ->
  unnumbered num = true ->
  head (fetch_all net 5 [] (split 44 s) c).1.1
  = Some (chap, num, remove_html_tags_and_entities t)
  /\ (generate_latex_from_schedule net d rows c).1.1 = Raise TypeError
  /\ (1 <= count_gets (run_events net d rows c))%nat
  /\ completed net d rows c = d.
Proof.
  intros Hi Hfirst Hsplit Hnet Hhe Hsec Hchap Hnum Hbad.
  assert (fetch_one net 5 [] r c
          = ([(chap, num, remove_html_tags_and_entities t)],
             [EGet (sefaria_url (strip r))], S c)) as Hone.
  { rewrite fetch_one_spec. cbn zeta. rewrite url_of_unfold.
    change (Z.to_nat 5) with 5%nat. cbn [failures].
    rewrite Hnet. cbn [failed Z.eqb Pos.eqb negb].
    destruct (decide (0 < 5)%nat) as [_|?]; [|lia].
    rewrite Nat.add_0_r, Hnet.
    unfold parse_payload. rewrite Hsec, bind_Ok, Hhe, bind_Ok.
    cbn [clean_text]. rewrite bind_Ok, Hchap, bind_Ok, Hnum, bind_Ok.
    cbn [fst snd]. change (backoff _ 0 0) with (@nil event). done. }
  assert (exists rest evs c',
            fetch_all net 5 [] (split 44 s) c
            = ((chap, num, remove_html_tags_and_entities t) :: rest,
               EGet (sefaria_url (strip r)) :: evs, c')) as (rest & evs & c' & Hall).
  { rewrite Hsplit, fetch_all_cons, Hone, fetch_all_acc.
    destruct (fetch_all net 5 [] rs (S c)) as [[rest evs] c']. by eexists _, _, _. }
  split; [by rewrite Hall|].
  destruct (refused_number_stops_run d rows i date (CStr s)
              ((chap, num, remove_html_tags_and_entities t) :: rest) c Hi Hfirst)
    as (Hraise & Hgets & Hdisk).
  - by rewrite get_sefaria_unfold, Hall.
  - apply Exists_cons_hd. by apply unnumbered_raises.
  - split_and!; [done| |done].
    rewrite Hgets, get_sefaria_unfold, Hall. cbn [fst snd].
    rewrite app_nil_r. unfold count_gets. rewrite filter_cons. simpl. lia.
Qed.
End BadNumber.

Lemma unnumbered_entry_aborts_witness :
  (generate_latex_from_schedule
     (const_net (Some (JDict [(u "sections", JList [JStr (u "Genesis"); JStr (u "1")]);
                              (u "he", JStr (u "text"))])))
     empty_disk two_days 0%nat).1.1 = Raise TypeError.
Proof.
  refine (proj1 (proj2 (unnumbered_entry_aborts
                   (const_net (Some (JDict [(u "sections",
                                             JList [JStr (u "Genesis"); JStr (u "1")]);
                                            (u "he", JStr (u "text"))])))
                   empty_disk two_days 0%nat (u "2025-01-01")
                   (u "Genesis 1:7") (u "Genesis 1:7") [] 0%nat
                   _ (JList [JStr (u "Genesis"); JStr (u "1")])
                   (JStr (u "Genesis")) (JStr (u "1")) (u "text")
                   _ _ _ _ _ _ _ _ _)));
    vm_compute; reflexivity.
Defined.

(** A number with a fraction is not refused: it gets the letters of its
    hundreds and tens, and of its units when it has no fraction. *)
Example hebrew_number_of_floats :
  hebrew_number_of (JFloat (FNum (5 # 2))) = Ok []
  /\ hebrew_number_of (JFloat (FNum (231 # 2))) = Ok (u "קי")
  /\ hebrew_number_of (JFloat (FNum (15 # 1))) = Ok (u "טו")
  /\ hebrew_number_of (JFloat (FNum (7 # 1))) = Ok (u "ז")
  /\ hebrew_number_of (JFloat FNaN) = Ok []
  /\ hebrew_number_of (JFloat (FInf false)) = Ok [].
Proof. split_and!; vm_compute; reflexivity. Qed.

(** ** Interrupted runs, on an example *)

Lemma resume_between_writes_repeats_row_witness :
  exists (k : nat) (tex block suffix : str),
    block <> []
    /\ checkpoint (interrupted (const_net (Some sample_payload)) k empty_disk
                     two_days 0%nat)
       = Some (tex ++ block)
    /\ tex_file
         (completed (const_net (Some sample_payload))
            (interrupted (const_net (Some sample_payload)) k empty_disk
               two_days 0%nat)
            two_days 7%nat)
       = Some (tex ++ block ++ block ++ suffix ++ closing).
Proof.
  eassert (process_rows (const_net (Some sample_payload)) (-1) 0
             [(u "2025-01-01", CStr (u "Genesis 1:7"))] preamble 0%nat
           = (Ok _, _, _)) as Hdone by (vm_compute; reflexivity).
  lazymatch type of Hdone with
  | _ = (Ok ?tex, _, ?c1) =>
      eassert (format_day (const_net (Some sample_payload)) tex
                 (u "2025-01-02", CStr (u "Genesis 1:9")) c1
               = (Ok _, _, _)) as Hday by (vm_compute; reflexivity)
  end.
  eassert ((process_rows (const_net (Some sample_payload)) (-1) 0
              ([(u "2025-01-01", CStr (u "Genesis 1:7"))]
               ++ (u "2025-01-02", CStr (u "Genesis 1:9")) :: [])
              preamble 0%nat).1.1 = Ok _) as Hfinal by (vm_compute; reflexivity).
  destruct (resume_between_writes_repeats_row (const_net (Some sample_payload))
              _ _ _ _ _ _ _ _ _ _ _ 7%nat
              (stationary_const_net _) Hdone Hday Hfinal)
    as (block & suffix & Hne & _ & _ & Hck & _ & Htex & _).
  { repeat (apply Forall_cons_2; [discriminate|]). apply Forall_nil_2. }
  eexists _, _, block, suffix.
  split; [exact Hne|]. split; [exact Hck|exact Htex].
Defined.

Lemma cleanup_interrupted_loses_document_witness :
  exists k : nat,
    completed (const_net (Some sample_payload))
      (interrupted (const_net (Some sample_payload)) k empty_disk two_days 0%nat)
      two_days 7%nat
    = {| checkpoint := None;
         progress := None;
         tex_file := Some (preamble ++ closing) |}.
Proof.
  eexists.
  refine (proj2 (cleanup_interrupted_loses_document
                   (const_net (Some sample_payload)) two_days _ _ 0%nat _ 7%nat
                   _ _)).
  - done.
  - vm_compute. reflexivity.
Defined.
